(** * Survey-dashboard normalization pipeline: a shallow embedding

    The development follows the Python sources
    - [src/specific_scripts/process.py]  (role explosion, country
      normalization, integer coercion), and
    - [src/utils.py]  ([merge_attachments], [apply_scto_cleaning],
      [get_label], [get_labels_for_multiple], [run_specific_scripts]).

    Python strings are modelled by [string]; a character is a code point
    below 256.  Cell values are strings, integers, the missing marker NaN
    and [None]; floating-point cells other than NaN are outside the model,
    and the storage type pandas gives a column is computed from its
    cells where the sources depend on it.
    Python dictionaries keyed by column name keep their insertion order
    (association lists); the label metadata, which is only ever looked
    up, uses finite maps. *)

From Stdlib Require Import ZArith Ascii String List Bool Lia.
From Stdlib Require Import DecimalString.
From stdpp Require Import gmap strings list sorting.

Open Scope string_scope.
Open Scope list_scope.

(** ** Python values, exceptions and strings *)

Module Py.

Inductive value : Type :=
| VNone
| VNaN
| VStr (s : string)
| VInt (n : Z).

Inductive exn : Type :=
| AttributeError
| KeyError
| TypeError
| ValueError
| OverflowError
| MergeError
| IOError.

Inductive result (A : Type) : Type :=
| Ok (a : A)
| Err (e : exn).
Arguments Ok {A} a.
Arguments Err {A} e.

Definition bind {A B} (r : result A) (k : A -> result B) : result B :=
  match r with
  | Ok a => k a
  | Err e => Err e
  end.

Definition is_ok {A} (r : result A) : bool :=
  match r with Ok _ => true | Err _ => false end.

(** A loop body run over a list, stopping at the first exception. *)
Fixpoint mapM {A B} (f : A -> result B) (l : list A) : result (list B) :=
  match l with
  | [] => Ok []
  | x :: l' =>
      bind (f x) (fun y => bind (mapM f l') (fun ys => Ok (y :: ys)))
  end.

Global Instance value_eq_dec : EqDecision value.
Proof. solve_decision. Defined.

Global Instance exn_eq_dec : EqDecision exn.
Proof. solve_decision. Defined.

Definition value_to_sum (v : value) : (unit + unit) + (string + Z) :=
  match v with
  | VNone => inl (inl tt)
  | VNaN => inl (inr tt)
  | VStr s => inr (inl s)
  | VInt n => inr (inr n)
  end.

Definition value_of_sum (x : (unit + unit) + (string + Z)) : value :=
  match x with
  | inl (inl _) => VNone
  | inl (inr _) => VNaN
  | inr (inl s) => VStr s
  | inr (inr n) => VInt n
  end.

Global Instance value_countable : Countable value.
Proof.
  apply (inj_countable' value_to_sum value_of_sum).
  intros []; reflexivity.
Defined.

(** [isinstance(v, str)] *)
Definition is_str (v : value) : bool :=
  match v with VStr _ => true | _ => false end.

(** [pd.notna(v)] *)
Definition notna (v : value) : bool :=
  match v with VNone | VNaN => false | _ => true end.

(** Truth value of a cell: [None], the empty string and zero are false;
    NaN is a non-zero float and therefore true. *)
Definition truthy (v : value) : bool :=
  match v with
  | VNone => false
  | VNaN => true
  | VStr s => negb (String.eqb s "")
  | VInt n => negb (Z.eqb n 0)
  end.

(** [str(v)] *)
Definition str (v : value) : string :=
  match v with
  | VNone => "None"
  | VNaN => "nan"
  | VStr s => s
  | VInt n => NilZero.string_of_int (Z.to_int n)
  end.

(** [c.isspace()] on code points below 256: TAB, LF, VT, FF, CR,
    FS, GS, RS, US, SPACE, NEL and NBSP. *)
Definition isspace (c : ascii) : bool :=
  let n := nat_of_ascii c in
  (Nat.leb 9 n && Nat.leb n 13) || (Nat.leb 28 n && Nat.leb n 32)
  || Nat.eqb n 133 || Nat.eqb n 160.

Fixpoint lstrip (s : string) : string :=
  match s with
  | EmptyString => EmptyString
  | String c s' => if isspace c then lstrip s' else s
  end.

Fixpoint rstrip (s : string) : string :=
  match s with
  | EmptyString => EmptyString
  | String c s' =>
      match rstrip s' with
      | EmptyString => if isspace c then EmptyString else String c EmptyString
      | r => String c r
      end
  end.

(** [s.strip()] *)
Definition strip (s : string) : string := rstrip (lstrip s).

(** [v.strip()]: only strings have the method. *)
Definition strip_value (v : value) : result string :=
  match v with
  | VStr s => Ok (strip s)
  | _ => Err AttributeError
  end.

(** [s.split()]: the maximal runs of non-whitespace characters. *)
Fixpoint split (s : string) : list string :=
  match s with
  | EmptyString => []
  | String c s' =>
      if isspace c then split s'
      else
        match s' with
        | EmptyString => [String c EmptyString]
        | String c' _ =>
            if isspace c' then String c EmptyString :: split s'
            else
              match split s' with
              | t :: ts => String c t :: ts
              | [] => [String c EmptyString]
              end
        end
  end.

(** [s.startswith(p)] *)
Definition startswith (p s : string) : bool := String.prefix p s.

(** [sub in s] *)
Fixpoint contains (sub s : string) : bool :=
  String.prefix sub s
  || match s with
     | EmptyString => false
     | String _ s' => contains sub s'
     end.

(** [sep.join(l)] for a list of strings. *)
Fixpoint join (sep : string) (l : list string) : string :=
  match l with
  | [] => ""
  | [x] => x
  | x :: l' => x +:+ sep +:+ join sep l'
  end.

(** [sep.join(l)] for a list of arbitrary values: a non-string item
    raises [TypeError]. *)
Definition as_str (v : value) : result string :=
  match v with VStr s => Ok s | _ => Err TypeError end.

Definition join_values (sep : string) (l : list value) : result value :=
  bind (mapM as_str l) (fun ss => Ok (VStr (join sep ss))).

(** [s.replace(old, new)]: every non-overlapping occurrence, scanning
    left to right.  [skip] counts the characters of a matched
    occurrence still to be dropped.  (An empty [old] is not used by the
    sources and leaves the string unchanged here.) *)
Fixpoint replace_go (old new : string) (skip : nat) (s : string) : string :=
  match s with
  | EmptyString => EmptyString
  | String c s' =>
      match skip with
      | S k => replace_go old new k s'
      | O =>
          if negb (String.eqb old "") && String.prefix old s
          then new +:+ replace_go old new (Nat.pred (String.length old)) s'
          else String c (replace_go old new 0 s')
      end
  end.

Definition replace (old new s : string) : string := replace_go old new 0 s.

End Py.

Export Py.

(** ** Integer literals: [int(s)] and [astype(int)] *)

Module PyInt.

Definition digit_val (c : ascii) : option Z :=
  let n := nat_of_ascii c in
  if Nat.leb 48 n && Nat.leb n 57 then Some (Z.of_nat n - 48)%Z else None.

Definition is_digit (c : ascii) : bool :=
  match digit_val c with Some _ => true | None => false end.

Definition is_underscore (c : ascii) : bool := Ascii.eqb c "_".

(** The digits that follow an already consumed digit; an underscore is
    accepted only between two digits. *)
Fixpoint parse_digits (acc : Z) (s : string) : option Z :=
  match s with
  | EmptyString => Some acc
  | String c s' =>
      match digit_val c with
      | Some d => parse_digits (10 * acc + d)%Z s'
      | None =>
          if is_underscore c then
            match s' with
            | String c' s'' =>
                match digit_val c' with
                | Some d => parse_digits (10 * acc + d)%Z s''
                | None => None
                end
            | EmptyString => None
            end
          else None
      end
  end.

Definition parse_literal (s : string) : option Z :=
  match s with
  | String c s' =>
      match digit_val c with
      | Some d => parse_digits d s'
      | None => None
      end
  | EmptyString => None
  end.

(** The whitespace that [int] skips around a literal: TAB, LF, VT, FF,
    CR and SPACE, and the non-ASCII blanks NEL and NBSP.  The separators
    FS, GS, RS and US are whitespace for [str.strip] but not for [int],
    which rejects a text that has them. *)
Definition int_space (c : ascii) : bool :=
  let n := nat_of_ascii c in
  (Nat.leb 9 n && Nat.leb n 13) || Nat.eqb n 32
  || Nat.eqb n 133 || Nat.eqb n 160.

Fixpoint lstrip_int (s : string) : string :=
  match s with
  | EmptyString => EmptyString
  | String c s' => if int_space c then lstrip_int s' else s
  end.

Fixpoint rstrip_int (s : string) : string :=
  match s with
  | EmptyString => EmptyString
  | String c s' =>
      match rstrip_int s' with
      | EmptyString => if int_space c then EmptyString else String c EmptyString
      | r => String c r
      end
  end.

Definition strip_int (s : string) : string := rstrip_int (lstrip_int s).

(** [int(s)]: surrounding whitespace, an optional sign, decimal digits. *)
Definition py_int (s : string) : option Z :=
  match strip_int s with
  | String c r =>
      if Ascii.eqb c "-" then Z.opp <$> parse_literal r
      else if Ascii.eqb c "+" then parse_literal r
      else parse_literal (String c r)
  | EmptyString => None
  end.

Definition int64_min : Z := (- 2 ^ 63)%Z.
Definition int64_max : Z := (2 ^ 63 - 1)%Z.

Definition in_int64 (n : Z) : bool :=
  Z.leb int64_min n && Z.leb n int64_max.

Definition uint64_max : Z := (2 ^ 64 - 1)%Z.

Definition in_uint64 (n : Z) : bool :=
  Z.leb 0 n && Z.leb n uint64_max.

(** The bits of an unsigned 64-bit integer read as a signed one. *)
Definition wrap_int64 (n : Z) : Z :=
  if Z.leb n int64_max then n else (n - 2 ^ 64)%Z.

(** One cell of [astype(int)] on a column of Python objects. *)
Definition to_int (v : value) : result Z :=
  match v with
  | VNone => Err TypeError
  | VNaN => Err ValueError
  | VInt n => if in_int64 n then Ok n else Err OverflowError
  | VStr s =>
      match py_int s with
      | Some n => if in_int64 n then Ok n else Err OverflowError
      | None => Err ValueError
      end
  end.

Fixpoint string_exists (p : ascii -> bool) (s : string) : bool :=
  match s with
  | EmptyString => false
  | String c s' => p c || string_exists p s'
  end.

Definition is_int (v : value) : bool :=
  match v with VInt _ => true | _ => false end.

Definition int_of (v : value) : Z :=
  match v with VInt n => n | _ => 0%Z end.

(** An integer within the given range, or a missing cell. *)
Definition int_or_missing (range : Z -> bool) (v : value) : bool :=
  match v with
  | VInt n => range n
  | VNone | VNaN => true
  | VStr _ => false
  end.

(** How pandas stores a column.  Integers that all fit in 64 signed
    bits are an [int64] column; non-negative integers that fit in 64
    unsigned bits, one of them beyond the signed range, are a [uint64]
    column; such integers beside a missing cell are a [float64] column;
    everything else (any text, an integer beyond 64 bits, an integer
    beyond the signed range beside a negative one) is a column of Python
    objects.  (A [None] cell, which no table read from CSV holds, counts
    as missing.) *)
Inductive dtype : Type := Int64 | UInt64 | Float64 | Object.

Definition column_dtype (col : list value) : dtype :=
  if forallb is_int col then
    if forallb (fun v => in_int64 (int_of v)) col then Int64
    else if forallb (fun v => in_uint64 (int_of v)) col then UInt64
    else Object
  else if forallb (int_or_missing in_int64) col
          || forallb (int_or_missing in_uint64) col
  then Float64
  else Object.

(** [col.astype(int)]: an [int64] column is unchanged; a [uint64] column
    is reinterpreted, wrapping around silently; a [float64] column,
    which here always holds a missing cell, raises [ValueError]; a
    column of objects is converted cell by cell with [int], stopping at
    the first exception. *)
Definition astype_int_cells (col : list value) : result (list value) :=
  match column_dtype col with
  | Int64 => Ok col
  | UInt64 => Ok (map (fun v => VInt (wrap_int64 (int_of v))) col)
  | Float64 => Err ValueError
  | Object => bind (mapM to_int col) (fun ints => Ok (map VInt ints))
  end.

End PyInt.

Export PyInt.

(** ** Tables: the part of pandas the sources use *)

Module Pandas.

(** A table has a list of column labels (duplicates are possible) and
    rows of cells, positionally aligned with the labels. *)
Record DataFrame : Type := mkDF {
  columns : list string;
  rows : list (list value)
}.

(** A row as [iterrows] yields it: labels paired with cells. *)
Definition Series : Type := list (string * value).

(** A Python dict from column name to cell, in insertion order. *)
Definition dict : Type := list (string * value).

Definition iterrows (df : DataFrame) : list Series :=
  map (fun r => combine (columns df) r) (rows df).

Fixpoint lookup_label (c : string) (row : list (string * value)) : option value :=
  match row with
  | [] => None
  | (k, v) :: row' => if String.eqb c k then Some v else lookup_label c row'
  end.

(** [c in row] *)
Definition series_in (c : string) (row : Series) : bool :=
  match lookup_label c row with Some _ => true | None => false end.

(** [row.get(c, default)] *)
Definition series_get (c : string) (default : value) (row : Series) : value :=
  match lookup_label c row with Some v => v | None => default end.

(** [row[c]] *)
Definition series_item (c : string) (row : Series) : result value :=
  match lookup_label c row with Some v => Ok v | None => Err KeyError end.

Definition dict_get (k : string) (d : dict) : option value := lookup_label k d.

(** [d[k] = v]: an existing key keeps its position. *)
Fixpoint dict_set (k : string) (v : value) (d : dict) : dict :=
  match d with
  | [] => [(k, v)]
  | (k', v') :: d' =>
      if String.eqb k k' then (k, v) :: d' else (k', v') :: dict_set k v d'
  end.

Definition dict_keys (d : dict) : list string := map fst d.

Definition add_label (acc : list string) (k : string) : list string :=
  if bool_decide (k ∈ acc) then acc else acc ++ [k].

(** [pd.DataFrame(records)]: the columns are the keys in order of first
    appearance and a key a record lacks becomes NaN.  (pandas stores an
    integer column that received a NaN as floating point; the cells are
    kept as they are here, floating-point numbers being outside the
    model, and [column_dtype] accounts for the storage where the
    sources depend on it.) *)
Definition DataFrame_of_records (records : list dict) : DataFrame :=
  let cols :=
    fold_left (fun acc d => fold_left add_label (dict_keys d) acc) records [] in
  mkDF cols
       (map (fun d => map (fun c => default VNaN (dict_get c d)) cols) records).

Fixpoint index_of (c : string) (cols : list string) : option nat :=
  match cols with
  | [] => None
  | k :: cols' => if String.eqb c k then Some 0 else S <$> index_of c cols'
  end.

(** [df[c]] *)
Definition getitem (c : string) (df : DataFrame) : result (list value) :=
  match index_of c (columns df) with
  | Some i => Ok (map (fun r => nth i r VNaN) (rows df))
  | None => Err KeyError
  end.

Fixpoint set_nth (i : nat) (v : value) (r : list value) : list value :=
  match r, i with
  | [], _ => []
  | _ :: r', O => v :: r'
  | x :: r', S j => x :: set_nth j v r'
  end.

(** [df[c] = vals] for a column computed from the table itself (one
    value per row): an existing column is overwritten, a new one is
    appended. *)
Definition setitem (c : string) (vals : list value) (df : DataFrame) : DataFrame :=
  match index_of c (columns df) with
  | Some i =>
      mkDF (columns df)
           (map (fun rv => set_nth i (snd rv) (fst rv)) (combine (rows df) vals))
  | None =>
      mkDF (columns df ++ [c])
           (map (fun rv => fst rv ++ [snd rv]) (combine (rows df) vals))
  end.

(** [df.rename(columns={old: new})] *)
Definition rename (old new : string) (df : DataFrame) : DataFrame :=
  mkDF (map (fun c => if String.eqb c old then new else c) (columns df))
       (rows df).

(** Positions of the columns labelled [c]. *)
Fixpoint positions (c : string) (i : nat) (cols : list string) : list nat :=
  match cols with
  | [] => []
  | k :: cols' =>
      if String.eqb c k then i :: positions c (S i) cols'
      else positions c (S i) cols'
  end.

(** [df[keep]] for a list of labels: a label the table lacks raises
    [KeyError]; a repeated label is selected once per repetition. *)
Definition select (keep : list string) (df : DataFrame) : result DataFrame :=
  if forallb (fun k => bool_decide (k ∈ columns df)) keep then
    let idx := flat_map (fun k => positions k 0 (columns df)) keep in
    Ok (mkDF (map (fun i => nth i (columns df) "") idx)
             (map (fun r => map (fun i => nth i r VNaN) idx) (rows df)))
  else Err KeyError.

(** [labels.duplicated()]: marks every occurrence after the first. *)
Fixpoint duplicated (seen labels : list string) : list bool :=
  match labels with
  | [] => []
  | c :: labels' => bool_decide (c ∈ seen) :: duplicated (c :: seen) labels'
  end.

(** Duplicates that the suffixes created: positions duplicated after the
    renaming, but not before it. *)
Definition suffix_dups (before after : list string) : bool :=
  existsb (fun p => snd p && negb (fst p))
          (combine (duplicated [] before) (duplicated [] after)).

Definition drop_nth {A} (i : nat) (l : list A) : list A :=
  firstn i l ++ skipn (S i) l.

(** A key column of texts: it holds a text and no integer (texts beside
    integers are stored as mixed objects, which pandas joins with
    anything). *)
Definition text_keys (col : list value) : bool :=
  existsb is_str col && negb (existsb is_int col).

(** A key column that is stored as numbers. *)
Definition numeric_keys (col : list value) : bool :=
  match column_dtype col with
  | Object => false
  | _ => true
  end.

(** The check of the key columns before a join: a column of texts is
    not joined with a column stored as numbers.  Nothing is checked
    when either side has no rows. *)
Definition keys_joinable (lk rk : list value) : bool :=
  match lk, rk with
  | [], _ | _, [] => true
  | _, _ =>
      negb ((text_keys lk && numeric_keys rk)
            || (numeric_keys lk && text_keys rk))
  end.

(** [pd.merge(left, right, on=key, how='left')].  The key must label
    exactly one column on each side, and a text key is not joined with
    a numeric key ([ValueError]).  A non-key label present on both
    sides gets the suffixes [_x] and [_y]; duplicates created by the
    suffixes raise [MergeError], duplicates already present in an input
    are kept.  Every left row is retained, in order, once per matching
    right row, or once with NaN when nothing matches.  Key cells are
    compared as values. *)
Definition merge (left right : DataFrame) (key : string) : result DataFrame :=
  match positions key 0 (columns left), positions key 0 (columns right) with
  | [], _ | _, [] => Err KeyError
  | [i], [j] =>
      if negb (keys_joinable (map (fun r => nth i r VNaN) (rows left))
                             (map (fun r => nth j r VNaN) (rows right)))
      then Err ValueError
      else
      let rcols := drop_nth j (columns right) in
      let llabels :=
        map (fun c => if negb (String.eqb c key) && bool_decide (c ∈ rcols)
                      then c +:+ "_x" else c) (columns left) in
      let rlabels :=
        map (fun c => if bool_decide (c ∈ columns left)
                      then c +:+ "_y" else c) rcols in
      if suffix_dups (columns left) llabels || suffix_dups rcols rlabels
      then Err MergeError
      else
        let blank := map (fun _ => VNaN) rcols in
        let fan (lr : list value) :=
          match filter (fun rr => nth j rr VNaN = nth i lr VNaN) (rows right) with
          | [] => [lr ++ blank]
          | ms => map (fun rr => lr ++ drop_nth j rr) ms
          end in
        Ok (mkDF (llabels ++ rlabels) (flat_map fan (rows left)))
  | _, _ => Err ValueError
  end.

(** [df[c] = df[c].astype(int)] *)
Definition astype_int (c : string) (df : DataFrame) : result DataFrame :=
  bind (getitem c df) (fun col =>
  bind (astype_int_cells col) (fun cells =>
  Ok (setitem c cells df))).

End Pandas.

Export Pandas.

(** ** [specific_scripts/process.py] *)

Module Process.

Definition role_suffix_map : list (string * string) :=
  [("RA", "_ra"); ("FC", "_fc"); ("Hybrid", "_hyb"); ("Other", "")].

Definition base_columns : list string :=
  ["project_name"; "project_location"; "pi_name"; "pi_add";
   "project_blurb"; "hire_role"; "hire_role_other"; "KEY"; "hire_predoc_ra"].

Definition column_prefixes : list string :=
  ["number_role"; "hire_position_location"; "hire_desired_date";
   "position_details_others"; "language"; "skill_labels";
   "language_stata"; "language_r"; "language_scto"; "language_other";
   "language_bigdata"; "language_python"].

(** [role_suffix_map.get(role)]; [None] when [role not in role_suffix_map]. *)
Fixpoint suffix_of_in (m : list (string * string)) (role : string) : option string :=
  match m with
  | [] => None
  | (k, sfx) :: m' => if String.eqb role k then Some sfx else suffix_of_in m' role
  end.

Definition suffix_of : string -> option string := suffix_of_in role_suffix_map.

Definition recognized (role : string) : bool :=
  match suffix_of role with Some _ => true | None => false end.

(** [{col: row[col] for col in base_columns if col in row}] *)
Definition copy_base (row : Series) : dict :=
  fold_left (fun d col =>
               match lookup_label col row with
               | Some v => dict_set col v d
               | None => d
               end) base_columns [].

(** The value recorded under [hire_role]. *)
Definition role_value (row : Series) (role_clean : string) : result value :=
  if String.eqb role_clean "Other" then
    bind (strip_value (series_get "hire_role_other" (VStr "") row))
         (fun role_other_value =>
            Ok (VStr (if String.eqb role_other_value "" then "Other"
                      else role_other_value)))
  else Ok (VStr role_clean).

(** One turn of the loop over [column_prefixes]. *)
Definition copy_prefix (row : Series) (suffix : string) (new_row : dict)
    (col_prefix : string) : dict :=
  let full_col := col_prefix +:+ suffix in
  match lookup_label full_col row with
  | Some v => if notna v then dict_set col_prefix v new_row else new_row
  | None => new_row
  end.

(** The record built for a recognized role, once its role value is known. *)
Definition build_row (row : Series) (suffix : string) (role : value) : dict :=
  fold_left (copy_prefix row suffix) column_prefixes
            (dict_set "hire_role" role (copy_base row)).

(** The body of [for role in roles]: the records appended to [long_rows]. *)
Definition explode_role (row : Series) (role : string) : result (list dict) :=
  let role_clean := strip role in
  match suffix_of role_clean with
  | Some suffix =>
      bind (role_value row role_clean)
           (fun r => Ok [build_row row suffix r])
  | None => Ok []
  end.

Definition roles_of (row : Series) : list string :=
  split (str (series_get "hire_role" (VStr "") row)).

(** The body of [for _, row in df.iterrows()]. *)
Definition explode_row (row : Series) : result (list dict) :=
  bind (mapM (explode_role row) (roles_of row))
       (fun per_role => Ok (concat per_role)).

(** The whole loop: [long_rows]. *)
Definition long_rows (df : DataFrame) : result (list dict) :=
  bind (mapM explode_row (iterrows df))
       (fun per_row => Ok (concat per_row)).

(** Lines 18 to 42: the role explosion transform. *)
Definition explode (df : DataFrame) : result DataFrame :=
  bind (long_rows df) (fun records => Ok (DataFrame_of_records records)).

(** [sorted(names, key=lambda x: -len(x))]: a stable sort, so names of
    equal length keep their catalog order. *)
Fixpoint insert_by_len (x : string) (l : list string) : list string :=
  match l with
  | [] => [x]
  | y :: l' =>
      if Nat.leb (String.length y) (String.length x) then x :: y :: l'
      else y :: insert_by_len x l'
  end.

Definition sorted_by_len (names : list string) : list string :=
  fold_right insert_by_len [] names.

Section Script.

(** [c.name for c in pycountry.countries]: the catalog belongs to an
    external package and is a parameter here. *)
Variable countries : list string.

(** Lines 52 to 57 of the script (text clean-up and blanking of
    [pi_name]); no property below depends on what they compute. *)
Variable tail_steps : DataFrame -> result DataFrame.

Definition catalog : list string := countries ++ ["Global"].

(** The names selected by the list comprehension of lines 45 to 47. *)
Definition matched_names (text : value) : list string :=
  List.filter (fun name => contains name (str text)) (sorted_by_len catalog).

Definition normalize_location (text : value) : string :=
  join ", " (matched_names text).

(** Lines 44 to 48. *)
Definition normalize_locations (df : DataFrame) : result DataFrame :=
  bind (getitem "hire_position_location" df) (fun col =>
  Ok (setitem "hire_position_location"
              (map (fun text => VStr (normalize_location text)) col) df)).

(** Line 50. *)
Definition coerce_number_role (df : DataFrame) : result DataFrame :=
  astype_int "number_role" df.

(** The script from top to bottom; [df] is rebound to a fresh table at
    line 42, so the table the script received is never mutated. *)
Definition process (df : DataFrame) : result DataFrame :=
  bind (explode df) (fun exploded =>
  bind (normalize_locations exploded) (fun located =>
  bind (coerce_number_role located) tail_steps)).

End Script.

End Process.

Export Process.

(** ** [utils.py] *)

Module Utils.

Record form_cfg : Type := mkForm {
  form_id : option string;
  match_on : option string
}.

(** [tab_config["attachments"]]; an absent entry is
    [mkAttach None []]. *)
Record attach_cfg : Type := mkAttach {
  from_form : option form_cfg;
  fields : list string
}.

Definition has_column (c : option string) (df : DataFrame) : bool :=
  match c with
  | Some k => bool_decide (k ∈ columns df)
  | None => false
  end.

(** One turn of the renaming loop (lines 198 to 200). *)
Definition rename_collision (df_main : DataFrame) (col : string) : DataFrame :=
  if bool_decide (col ∈ columns df_main)
  then rename col (col +:+ "_file") df_main
  else df_main.

Definition rename_collisions (attachment_fields : list string)
    (df_main : DataFrame) : DataFrame :=
  fold_left rename_collision attachment_fields df_main.

Definition keep_fields (key : string) (attachment_fields : list string)
    (df_form : DataFrame) : list string :=
  key :: List.filter (fun c => bool_decide (c ∈ columns df_form)) attachment_fields.

Section Attachments.

(** [connect_scto], [get_form_data] and [read_csv] together: the table
    of the secondary form, or the exception any of them raised. *)
Variable fetch_form : option string -> result DataFrame.

(** The [try] block of [merge_attachments].  The first component is the
    binding of the local [df_main] when the block is left; the second is
    [Ok (Some r)] when the block returned [r], [Ok None] when it fell
    through, and [Err e] when it raised [e]. *)
Definition merge_attempt (df_main : DataFrame) (fc : form_cfg)
    (attachment_fields : list string)
    : DataFrame * result (option DataFrame) :=
  match fetch_form (form_id fc) with
  | Err e => (df_main, Err e)
  | Ok df_form =>
      match match_on fc with
      | Some key =>
          if has_column (Some key) df_main && has_column (Some key) df_form
          then
            let renamed := rename_collisions attachment_fields df_main in
            (renamed,
             bind (select (keep_fields key attachment_fields df_form) df_form)
                  (fun kept => bind (merge renamed kept key)
                                    (fun merged => Ok (Some merged))))
          else (df_main, Ok None)
      | None => (df_main, Ok None)
      end
  end.

(** [merge_attachments(df_main, tab_config)]: [except Exception] swallows
    whatever the block raised, and the function then returns the current
    binding of [df_main].  (An empty [from_form] mapping is falsy and
    returns at once; as [mkForm None None] it has no join key and the
    function returns [df_main] as well.) *)
Definition merge_attachments (df_main : DataFrame) (cfg : attach_cfg)
    : DataFrame :=
  match from_form cfg with
  | None => df_main
  | Some fc =>
      match merge_attempt df_main fc (fields cfg) with
      | (_, Ok (Some merged)) => merged
      | (current, _) => current
      end
  end.

End Attachments.

(** A unit of [specific_scripts/]: the table it leaves in [df], or the
    exception it raised.  This describes a unit that, like
    [process.py], binds [df] to a new table before it writes anything:
    the table it was handed is then the same object before and after,
    whether the unit ends or raises. *)
Definition script : Type := DataFrame -> result DataFrame.

(** One turn of the loop of [run_specific_scripts]: an exception is
    printed and the table is left as it was. *)
Definition run_script (df : DataFrame) (s : script) : DataFrame :=
  match s df with
  | Ok df' => df'
  | Err _ => df
  end.

(** [run_specific_scripts(df)], the scripts given in file-name order. *)
Definition run_specific_scripts (scripts : list script) (df : DataFrame)
    : DataFrame :=
  fold_left run_script scripts df.

(** The label metadata built by [apply_scto_cleaning]. *)
Record label_info : Type := mkInfo {
  select_one : gmap value string;
  select_multiple : gmap value string;
  label_map : gmap value (gmap string value)
}.

(** One row of the survey sheet (lines 274 to 283). *)
Definition classify (acc : gmap value string * gmap value string)
    (row : Series) : gmap value string * gmap value string :=
  let field_name := series_get "name" VNone row in
  let field_type := str (series_get "type" VNone row) in
  if truthy field_name then
    if startswith "select_one " field_type then
      (<[field_name := strip (replace "select_one " "" field_type)]> (fst acc),
       snd acc)
    else if startswith "select_multiple " field_type then
      (fst acc,
       <[field_name := strip (replace "select_multiple " "" field_type)]> (snd acc))
    else acc
  else acc.

Fixpoint ends_with (suffix s : string) : bool :=
  String.eqb suffix s
  || match s with
     | EmptyString => false
     | String _ s' => ends_with suffix s'
     end.

Fixpoint drop_last (n : nat) (s : string) : string :=
  match s with
  | EmptyString => EmptyString
  | String c s' =>
      if Nat.leb (String.length s) n then EmptyString
      else String c (drop_last n s')
  end.

(** [re.sub(r"\.0$", "", s)]: the dollar sign matches at the very end and
    also just before a final line feed. *)
Definition strip_dot0 (s : string) : string :=
  if ends_with ".0" s then drop_last 2 s
  else if ends_with (".0" +:+ String "010" EmptyString) s
       then drop_last 3 s +:+ String "010" EmptyString
       else s.

Definition clean_code (v : value) : string := strip (strip_dot0 (str v)).

(** One row of the choices sheet that survived [dropna]. *)
Definition add_choice (m : gmap value (gmap string value))
    (row : value * (value * value)) : gmap value (gmap string value) :=
  let '(list_name, (code, label)) := row in
  <[list_name := <[clean_code code := label]> (default ∅ (m !! list_name))]> m.

(** What [groupby("list_name").apply(...).to_dict()] gives when no row
    survived [dropna]: one empty dictionary under the name of every
    column of the sheet but the grouping column. *)
Definition empty_groups (choices_def : DataFrame)
    : gmap value (gmap string value) :=
  list_to_map
    (map (fun c => (VStr c, ∅))
         (List.filter (fun c => negb (String.eqb c "list_name"))
                      (columns choices_def))).

(** Lines 285 to 291. *)
Definition build_label_map (choices_def : DataFrame)
    : result (gmap value (gmap string value)) :=
  bind (getitem "list_name" choices_def) (fun names =>
  bind (getitem "value" choices_def) (fun codes =>
  bind (getitem "label" choices_def) (fun labels =>
  let kept :=
    List.filter (fun r => notna (fst r) && notna (fst (snd r)) && notna (snd (snd r)))
                (combine names (combine codes labels)) in
  Ok (match kept with
      | [] => empty_groups choices_def
      | _ => fold_left add_choice kept ∅
      end)))).

Section Cleaning.

(** [pd.read_excel(file, sheet_name=sheet)]: the sheet, or the exception
    raised for an unreadable file or a missing sheet. *)
Variable read_excel : option string -> string -> result DataFrame.

Definition apply_scto_cleaning (df : DataFrame) (file : option string)
    (survey_sheet choices_sheet : string) : result (DataFrame * label_info) :=
  bind (read_excel file survey_sheet) (fun survey_def =>
  bind (read_excel file choices_sheet) (fun choices_def =>
  let fields := fold_left classify (iterrows survey_def) (∅, ∅) in
  bind (build_label_map choices_def) (fun lm =>
  Ok (df, mkInfo (fst fields) (snd fields) lm)))).

(** Lines 136 to 147 of [load_processed_dataset]; [None] stands for the
    empty [label_info = {}]. *)
Definition label_stage (enabled : bool) (df : DataFrame) (file : option string)
    (survey_sheet choices_sheet : string) : DataFrame * option label_info :=
  if enabled then
    match apply_scto_cleaning df file survey_sheet choices_sheet with
    | Ok (df', info) => (df', Some info)
    | Err _ => (df, None)
    end
  else (df, None).

End Cleaning.

(** [label_info["label_map"].get(list_name, {})] *)
Definition choices_of (info : label_info) (list_name : option string)
    : gmap string value :=
  match list_name with
  | Some l => default ∅ (label_map info !! VStr l)
  | None => ∅
  end.

Definition get_label (field : string) (v : value) (info : label_info) : value :=
  let list_name := select_one info !! VStr field in
  default v (choices_of info list_name !! strip (str v)).

(** The label of one code, the raw code on a miss. *)
Definition label_or_code (info : label_info) (list_name : string)
    (code : string) : value :=
  default (VStr code) (choices_of info (Some list_name) !! code).

Definition get_labels_for_multiple (field : string) (value_string : value)
    (info : label_info) : result value :=
  match select_multiple info !! VStr field, value_string with
  | Some list_name, VStr s =>
      if String.eqb list_name "" then Ok value_string
      else
        let codes := map strip (split (strip s)) in
        join_values " | " (map (label_or_code info list_name) codes)
  | _, _ => Ok value_string
  end.

End Utils.

Export Utils.

(** ** Notions used to state the properties *)

Module Notions.

(** The cell a record of the given suffix receives under a bare prefix:
    the source cell at prefix+suffix, when present and not missing. *)
Definition selected (row : Series) (suffix prefix : string) : option value :=
  match lookup_label (prefix +:+ suffix) row with
  | Some v => if notna v then Some v else None
  | None => None
  end.

(** The tokens of the roles field that are recognized roles. *)
Definition recognized_roles (row : Series) : list string :=
  List.filter recognized (roles_of row).

(** [s[n:]] *)
Fixpoint drop_chars (n : nat) (s : string) : string :=
  match n, s with
  | O, _ => s
  | S n', String _ s' => drop_chars n' s'
  | S _, EmptyString => EmptyString
  end.

(** [sub] occurs in [s] starting at position [i]. *)
Definition occurs_at (sub : string) (i : nat) (s : string) : Prop :=
  i + String.length sub <= String.length s
  /\ String.prefix sub (drop_chars i s) = true.

(** Every occurrence of [a] in the text lies within an occurrence of [b]. *)
Definition only_inside (a b text : string) : Prop :=
  forall i, occurs_at a i text ->
    exists j, occurs_at b j text
              /\ j <= i /\ i + String.length a <= j + String.length b.

(** Longest-match-only selection, as a reading of "longest name first to
    avoid partial-name collisions": of two catalog names, one inside the
    other, the longer one is selected when it occurs in the text and the
    shorter one is not selected on the sole ground of occurring inside
    the longer one. *)
Definition prefers_longest (countries : list string) (text : value) : Prop :=
  forall a b,
    a ∈ catalog countries -> b ∈ catalog countries -> a <> b ->
    contains a b = true -> contains b (str text) = true ->
    b ∈ matched_names countries text
    /\ (only_inside a b (str text) -> a ∉ matched_names countries text).

(** [x] comes before [y] in [l]. *)
Definition precedes {A} (x y : A) (l : list A) : Prop :=
  exists l1 l2 l3, l = l1 ++ x :: l2 ++ y :: l3.

(** The display text of a code in a choice list whose labels are text:
    the label, or the raw code on a miss. *)
Definition text_label (choices : gmap string value) (code : string) : string :=
  match choices !! code with
  | Some (VStr l) => l
  | _ => code
  end.

(** The order of the sorted catalog: a name is never followed by a
    longer one. *)
Definition longer_first (x y : string) : Prop :=
  String.length y <= String.length x.

(** The digits of an integer literal: decimal digits, with single
    underscores allowed between two digits. *)
Inductive digit_groups : string -> Prop :=
| one_digit (c : ascii) :
    is_digit c = true -> digit_groups (String c EmptyString)
| next_digit (c : ascii) (s : string) :
    is_digit c = true -> digit_groups s -> digit_groups (String c s)
| next_group (c : ascii) (s : string) :
    is_digit c = true -> digit_groups s ->
    digit_groups (String c (String "_" s)).

(** A text made of the whitespace that [int] skips. *)
Definition blank (s : string) : bool :=
  negb (string_exists (fun c => negb (int_space c)) s).

(** The texts that denote an integer: optional whitespace, an optional
    sign, the digits, optional whitespace. *)
Definition int_text (s : string) : Prop :=
  exists before sign body after,
    s = before +:+ sign +:+ body +:+ after
    /\ blank before = true /\ blank after = true
    /\ (sign = "" \/ sign = "+" \/ sign = "-")
    /\ digit_groups body.

(** A non-numeric cell: a missing cell, or a text that does not denote
    an integer. *)
Definition non_numeric (v : value) : Prop :=
  match v with
  | VNone | VNaN => True
  | VInt _ => False
  | VStr s => ~ int_text s
  end.

End Notions.

Export Notions.

(** ** Sample data *)

Module Samples.

(** A primary table that already carries the file name of one attachment
    ([cv_file]) but not of the other ([photo_file] is absent, which is
    what makes [load_processed_dataset] call the merge). *)
Definition primary : DataFrame :=
  mkDF ["KEY"; "cv"; "cv_file"]
       [[VStr "uuid:1"; VStr "https://server/cv/1"; VStr "cv_1.pdf"];
        [VStr "uuid:2"; VStr "https://server/cv/2"; VStr "cv_2.pdf"]].

Definition secondary : DataFrame :=
  mkDF ["KEY"; "cv"; "photo"]
       [[VStr "uuid:1"; VStr "1_cv.pdf"; VStr "1_photo.jpg"]].

Definition attachments : attach_cfg :=
  mkAttach (Some (mkForm (Some "hiring_form") (Some "KEY"))) ["cv"; "photo"].

(** A multi-choice field [fruits] and a single-choice field [children],
    the latter with codes 0, 1, 2 labelled "1", "2" and "3+". *)
Definition fruit_info : label_info :=
  mkInfo {[ VStr "children" := "nchild" ]}
         {[ VStr "fruits" := "fruit" ]}
         {[ VStr "fruit" := {[ "a" := VStr "Apple"; "b" := VStr "Banana" ]};
            VStr "nchild" := {[ "0" := VStr "1"; "1" := VStr "2";
                                "2" := VStr "3+" ]} ]}.

Definition survey_sheet : DataFrame :=
  mkDF ["type"; "name"]
       [[VStr "text"; VStr "pi_name"];
        [VStr "select_one nchild"; VStr "children"];
        [VStr "select_multiple fruit"; VStr "fruits"]].

Definition choices_sheet : DataFrame :=
  mkDF ["list_name"; "value"; "label"]
       [[VStr "fruit"; VStr "a"; VStr "Apple"];
        [VStr "fruit"; VStr "b"; VStr "Banana"];
        [VStr "nchild"; VInt 0; VStr "1"];
        [VStr "nchild"; VInt 1; VStr "2"];
        [VStr "nchild"; VStr "2.0"; VStr "3+"]].

Definition workbook (file : option string) (sheet : string) : result DataFrame :=
  if String.eqb sheet "survey" then Ok survey_sheet
  else if String.eqb sheet "choices" then Ok choices_sheet
  else Err ValueError.

(** A form with a multi-choice field [cohorts] and a single-choice
    field [first_cohort] on a choice list that has the years 2023 and
    2024 as labels; a spreadsheet cell holding a number is read as a
    number. *)
Definition cohort_survey : DataFrame :=
  mkDF ["type"; "name"]
       [[VStr "select_multiple cohort"; VStr "cohorts"];
        [VStr "select_one cohort"; VStr "first_cohort"]].

Definition cohort_choices : DataFrame :=
  mkDF ["list_name"; "value"; "label"]
       [[VStr "cohort"; VInt 1; VInt 2023];
        [VStr "cohort"; VInt 2; VInt 2024]].

Definition cohort_workbook (file : option string) (sheet : string)
    : result DataFrame :=
  if String.eqb sheet "survey" then Ok cohort_survey
  else if String.eqb sheet "choices" then Ok cohort_choices
  else Err ValueError.

Definition cohort_info : label_info :=
  mkInfo {[ VStr "first_cohort" := "cohort" ]}
         {[ VStr "cohorts" := "cohort" ]}
         {[ VStr "cohort" := {[ "1" := VInt 2023; "2" := VInt 2024 ]} ]}.

End Samples.

(** ** Further parts of the sources *)

Module Shapes.

(** Every row has one cell per column, as in any table pandas builds. *)
Definition well_formed (df : DataFrame) : Prop :=
  Forall (fun r => length r = length (columns df)) (rows df).

(** The rows of [df[c] = vals] for an existing column at position [i]. *)
Definition overwrite (i : nat) (rs : list (list value)) (vals : list value)
    : list (list value) :=
  map (fun rv : list value * value => set_nth i (snd rv) (fst rv))
      (combine rs vals).

End Shapes.

Export Shapes.

(** *** [specific_scripts/process.py], line 53 *)

Module ProcessTail.

(** [df.loc[df["pi_add"] == "No", "pi_name"] = ""]: the comparison is
    cell by cell, so only the text "No" matches.  A table without a
    [pi_name] column gets one, missing wherever nothing is assigned. *)
Definition hide_pi_name (df : DataFrame) : result DataFrame :=
  bind (getitem "pi_add" df) (fun adds =>
  let names :=
    match getitem "pi_name" df with
    | Ok col => col
    | Err _ => map (fun _ => VNaN) (rows df)
    end in
  Ok (setitem "pi_name"
        (zip_with (fun add name =>
                     if bool_decide (add = VStr "No") then VStr "" else name)
                  adds names)
        df)).

End ProcessTail.

Export ProcessTail.

(** *** Rows of the choices sheet *)

Module ChoiceRows.

(** The rows [dropna] keeps: list name, code and label all present. *)
Definition complete_rows (names codes labels : list value)
    : list (value * (value * value)) :=
  List.filter (fun r => notna (fst r) && notna (fst (snd r)) && notna (snd (snd r)))
              (combine names (combine codes labels)).

(** The rows of a list whose normalized code is [code]. *)
Definition rows_for (list_name : value) (code : string)
    (rs : list (value * (value * value))) : list (value * (value * value)) :=
  List.filter (fun r => bool_decide (fst r = list_name)
                        && String.eqb (clean_code (fst (snd r))) code) rs.

End ChoiceRows.

Export ChoiceRows.

(** *** [utils.py]: loading, labelling, uploading, downloading *)

Module Pipeline.

(** [tab_config["filter"]]: the column and the value to keep; an absent
    entry of the mapping is [None] and [VNone]. *)
Record filter_cfg : Type := mkFilter {
  filter_column : option string;
  filter_value : value
}.

(** [tab_config["scto_cleaning"]]; absent, it is not enabled. *)
Record cleaning_cfg : Type := mkCleaning {
  enabled : bool;
  definition_file : option string;
  survey_sheet : option string;
  choices_sheet : option string
}.

(** [tab_config["column_labels"]] *)
Record label_cfg : Type := mkLabels {
  label_file : string;
  column_header_col : string;
  column_label_col : string;
  label_sheet : option string
}.

Record tab_config : Type := mkTab {
  source : string;
  source_type : option string;
  filter_by : option filter_cfg;
  attachments : attach_cfg;
  scto_cleaning : cleaning_cfg;
  column_labels : option label_cfg
}.

(** What [utils.py] needs from outside: the credentials read by
    [connect_scto], the server, the file system and the script folder.
    [title] is [str.title]. *)
Record environment : Type := mkEnv {
  server : option string;
  username : option string;
  password : option string;
  get_server_dataset : string -> result string;
  get_form_data : string -> result string;
  read_csv_text : string -> result DataFrame;
  read_csv_file : string -> result DataFrame;
  fetch_form : option string -> result DataFrame;
  scripts : list script;
  read_excel : option string -> string -> result DataFrame;
  read_excel_sheet : string -> option string -> result DataFrame;
  title : string -> string
}.

(** One cell of [df[col] == val]: a missing cell equals nothing, and a
    text never equals a number. *)
Definition cell_eq (v w : value) : bool :=
  match v, w with
  | VStr a, VStr b => String.eqb a b
  | VInt a, VInt b => Z.eqb a b
  | _, _ => false
  end.

(** [df[df[col] == val]] for a column the table has. *)
Definition filter_rows (col : string) (val : value) (df : DataFrame) : DataFrame :=
  match index_of col (columns df) with
  | Some i =>
      mkDF (columns df)
           (List.filter (fun r => cell_eq (nth i r VNaN) val) (rows df))
  | None => df
  end.

(** Lines 121 to 126. *)
Definition filter_stage (cfg : tab_config) (df : DataFrame) : DataFrame :=
  match filter_by cfg with
  | Some f =>
      match filter_column f with
      | Some col =>
          if bool_decide (col ∈ columns df)
          then filter_rows col (filter_value f) df
          else df
      | None => df
      end
  | None => df
  end.

(** One kept row of the label file: the header cell and the stripped
    label text; when both configured columns are the same column, the
    header cell is the stripped text as well. *)
Definition label_entry (same_column : bool) (r : value * value) : value * string :=
  let text := strip (str (snd r)) in
  (if same_column then VStr text else fst r, text).

Definition add_entry (m : gmap value string) (e : value * string)
    : gmap value string :=
  <[fst e := snd e]> m.

(** [{col: label_map.get(col, col.replace("_", " ").title()) ...}] *)
Definition add_column_label (env : environment) (label_map : gmap value string)
    (m : gmap string string) (col : string) : gmap string string :=
  <[col := default (title env (replace "_" " " col)) (label_map !! VStr col)]> m.

Definition apply_column_labels (env : environment) (df : DataFrame)
    (cfg : label_cfg) : result (gmap string string) :=
  bind (if ends_with ".csv" (label_file cfg)
        then read_csv_file env (label_file cfg)
        else read_excel_sheet env (label_file cfg)
               (match label_sheet cfg with
                | Some s => if String.eqb s "" then None else Some s
                | None => None
                end))
       (fun label_df =>
  bind (getitem (column_header_col cfg) label_df) (fun headers =>
  bind (getitem (column_label_col cfg) label_df) (fun labels =>
  let kept :=
    List.filter (fun r => notna (fst r) && notna (snd r))
                (combine headers labels) in
  let same := String.eqb (column_header_col cfg) (column_label_col cfg) in
  let label_map := fold_left add_entry (map (label_entry same) kept) ∅ in
  Ok (fold_left (add_column_label env label_map) (columns df) ∅)))).

(** One call of the upload endpoint. *)
Record upload : Type := mkUpload {
  up_dataset : string;
  up_title : string;
  up_mode : string;
  up_table : DataFrame
}.

(** [write_dataset(df, dataset_id, tab_config, dataset_title, append)].
    [auth] is [None] without credentials, else the outcome of the
    authentication; [post] is the upload with its status check.  The
    second component lists the uploads sent. *)
Definition write_dataset (auth : option (result string))
    (post : upload -> result value) (df : DataFrame) (dataset_id : string)
    (tab_cfg : option attach_cfg) (dataset_title : option string)
    (append : option bool) : result value * list upload :=
  match append with
  | None => (Err ValueError, [])
  | Some mode =>
      match
        match tab_cfg with
        | Some cfg =>
            select (List.filter
                      (fun col => negb (bool_decide
                         (col ∈ map (fun f => f +:+ "_file") (fields cfg))))
                      (columns df)) df
        | None => Ok df
        end
      with
      | Err e => (Err e, [])
      | Ok table =>
          match auth with
          | None => (Err AttributeError, [])
          | Some (Err e) => (Err e, [])
          | Some (Ok _) =>
              let sent :=
                mkUpload dataset_id
                  (match dataset_title with
                   | Some t => if String.eqb t "" then dataset_id else t
                   | None => dataset_id
                   end)
                  (if mode then "append" else "clear")
                  table in
              (post sent, [sent])
          end
      end
  end.

(** One turn of the loop of [collect_row_attachments]. *)
Definition collect_field (download : string -> result string) (row : Series)
    (found : list (value * string)) (field : string) : list (value * string) :=
  let link := series_get field (VStr "") row in
  let file_cell := series_get (field +:+ "_file") (VStr "") row in
  let filename := if truthy file_cell then file_cell
                  else VStr (field +:+ ".dat") in
  match link with
  | VStr url =>
      if startswith "http" url then
        match download url with
        | Ok data => found ++ [(filename, data)]
        | Err _ => found
        end
      else found
  | _ => found
  end.

Definition collect_row_attachments (download : string -> result string)
    (row : Series) (cfg : attach_cfg) : list (value * string) :=
  fold_left (collect_field download row) (fields cfg) [].

End Pipeline.

Export Pipeline.

(** *** [app.py]: the columns and cells of the two views *)

Module App.



Definition is_select_one (info : option label_info) (col : string) : bool :=
  match info with
  | Some i => bool_decide (is_Some (select_one i !! VStr col))
  | None => false
  end.

Definition is_select_multiple (info : option label_info) (col : string) : bool :=
  match info with
  | Some i => bool_decide (is_Some (select_multiple i !! VStr col))
  | None => false
  end.

(** Lines 93 to 97: the value shown for a column of the selected row
    (cells are texts, integers or missing; there is no timestamp cell). *)
Definition detail_value (info : option label_info) (row : Series)
    (col : string) : result value :=
  let val := series_get col VNone row in
  match info with
  | Some i =>
      if is_select_one info col then Ok (get_label col val i)
      else if is_select_multiple info col then get_labels_for_multiple col val i
      else Ok val
  | None => Ok val
  end.

(** One turn of the loop of lines 92 to 103. *)
Definition detail_step (info : option label_info)
    (labels : gmap string string) (row : Series)
    (acc : result dict) (col : string) : result dict :=
  bind acc (fun row_display =>
  bind (detail_value info row col) (fun val =>
  Ok (dict_set (default col (labels !! col)) val row_display))).

Definition row_display (info : option label_info) (labels : gmap string string)
    (row : Series) (cols : list string) : result dict :=
  fold_left (detail_step info labels row) cols (Ok []).

(** Lines 157 to 160. *)
Definition shown (v : value) : bool :=
  notna v && negb (String.eqb (strip (str v)) "").

Definition detail_items (info : option label_info)
    (labels : gmap string string) (row : Series) (cols : list string)
    : result dict :=
  bind (row_display info labels row cols) (fun d =>
  Ok (List.filter (fun kv => shown (snd kv)) d)).

(** Line 176. *)
Definition selected_columns (default_cols : list string) (full_df : DataFrame)
    : list string :=
  List.filter (fun col => bool_decide (col ∈ columns full_df)) default_cols.

Definition backslash : ascii := "\"%char.
Definition line_feed : ascii := "010"%char.

(** The pattern of line 203 is a backslash, any character but a line
    feed, and a zero, at the end of the text; the text has been stripped,
    so it cannot end with a line feed. *)
Fixpoint drop_backslash_x0 (s : string) : string :=
  match s with
  | String a (String b (String c EmptyString)) =>
      if Ascii.eqb a backslash && negb (Ascii.eqb b line_feed)
         && Ascii.eqb c "0"
      then EmptyString else s
  | String a s' => String a (drop_backslash_x0 s')
  | EmptyString => EmptyString
  end.

(** Lines 203 and 204: one cell of a single-choice column of the table
    view; [Series.map] with a dictionary gives NaN for a key the
    dictionary lacks. *)
Definition table_cell (info : label_info) (list_name : string) (v : value)
    : value :=
  default VNaN
    (choices_of info (Some list_name) !! drop_backslash_x0 (strip (str v))).

(** Line 209: [rename(columns=column_labels)]. *)
Definition display_labels (labels : gmap string string) (cols : list string)
    : list string :=
  map (fun c => default c (labels !! c)) cols.

(** Line 211: [visible_df.columns.duplicated().any()]. *)
Definition duplicates_detected (cols : list string) : bool :=
  existsb (fun b => b) (duplicated [] cols).

(** Lines 197 and 198: the column labels of [visible_df], which are
    the selected columns of the table followed by the hidden
    [row_index] column (assigning to a label the table already has adds
    no column).  Only the labels matter to the check, so the cells of
    [row_index] are left out. *)
Definition visible_columns (default_cols : list string) (full_df : DataFrame)
    : list string :=
  match select (selected_columns default_cols full_df) full_df with
  | Ok t => columns (setitem "row_index" [] t)
  | Err _ => []
  end.

(** Lines 209 to 214: whether the table view, having resolved the
    choice columns, stops on duplicate column names. *)
Definition table_blocked (labels : gmap string string)
    (default_cols : list string) (full_df : DataFrame) : bool :=
  duplicates_detected (display_labels labels (visible_columns default_cols full_df)).

End App.

Export App.

(** * Properties *)

(** ** The string primitives on sample inputs *)

Module PyExamples.

Example split_roles : split "  RA   Other " = ["RA"; "Other"].
Proof. reflexivity. Qed.

Example strip_inner : strip "  a b  " = "a b".
Proof. reflexivity. Qed.

Example replace_type : replace "select_one " "" "select_one yesno" = "yesno".
Proof. reflexivity. Qed.

Example str_negative : str (VInt (-12)) = "-12".
Proof. reflexivity. Qed.

Example contains_inside : contains "Niger" "in Nigeria" = true.
Proof. reflexivity. Qed.

Example py_int_spaces : py_int " -1_000 " = Some (-1000)%Z.
Proof. reflexivity. Qed.

Example py_int_decimal_point : py_int "3.5" = None.
Proof. reflexivity. Qed.

Example py_int_double_underscore : py_int "1__0" = None.
Proof. reflexivity. Qed.

(** The unit separator is stripped by [str.strip] and refused by
    [int]. *)
Example strip_unit_separator : strip (String "031" "12") = "12".
Proof. reflexivity. Qed.

Example py_int_unit_separator : py_int (String "031" "12") = None.
Proof. reflexivity. Qed.

Example astype_int_uint64 :
  astype_int_cells [VInt 9223372036854775808; VInt 5]
  = Ok [VInt (-9223372036854775808); VInt 5].
Proof. reflexivity. Qed.

Example astype_int_objects :
  astype_int_cells [VInt 9223372036854775808; VStr "5"] = Err OverflowError.
Proof. reflexivity. Qed.

Example astype_int_float64 :
  astype_int_cells [VInt 5; VNaN] = Err ValueError.
Proof. reflexivity. Qed.

Example merge_text_with_numbers :
  merge (mkDF ["KEY"; "cv"] [[VInt 1; VStr "a.pdf"]])
        (mkDF ["KEY"; "photo"] [[VStr "uuid:1"; VStr "a.jpg"]]) "KEY"
  = Err ValueError.
Proof. reflexivity. Qed.

Example strip_dot0_float : clean_code (VStr "2.0") = "2".
Proof. reflexivity. Qed.

End PyExamples.

(** ** Dictionaries and tables *)

Module PandasFacts.

Lemma bind_ok {A B} (r : result A) (k : A -> result B) (b : B) :
  bind r k = Ok b -> exists a, r = Ok a /\ k a = Ok b.
Proof. destruct r as [a|e]; simpl; intros H; [eauto | discriminate]. Qed.

Lemma mapM_ok_map {A B} (f : A -> result B) (g : A -> B) (l : list A) :
  (forall x, x ∈ l -> f x = Ok (g x)) -> mapM f l = Ok (map g l).
Proof.
  induction l as [|x l IH]; intros H; simpl; [reflexivity|].
  rewrite (H x) by left. simpl.
  rewrite IH; [reflexivity|]. intros y Hy. apply H. by right.
Qed.

Lemma mapM_err {A B} (f : A -> result B) (l : list A) (x : A) (e : exn) :
  x ∈ l -> f x = Err e -> exists e', mapM f l = Err e'.
Proof.
  induction l as [|y l IH]; intros Hin Hx; [by apply elem_of_nil in Hin|].
  apply elem_of_cons in Hin as [->|Hin]; simpl.
  - rewrite Hx. eauto.
  - destruct (f y) as [b|e0]; simpl; [|eauto].
    destruct (IH Hin Hx) as [e' ->]. eauto.
Qed.

Lemma mapM_length {A B} (f : A -> result B) (l : list A) (ys : list B) :
  mapM f l = Ok ys -> length ys = length l.
Proof.
  revert ys; induction l as [|x l IH]; intros ys; simpl.
  - intros [= <-]. reflexivity.
  - destruct (f x) as [y|]; simpl; [|discriminate].
    destruct (mapM f l) as [ys'|]; simpl; [|discriminate].
    intros [= <-]. simpl. f_equal. by apply IH.
Qed.

Lemma lookup_label_dict_set (k k' : string) (v : value) (d : dict) :
  lookup_label k' (dict_set k v d)
  = if String.eqb k' k then Some v else lookup_label k' d.
Proof.
  induction d as [|[k1 v1] d IH]; simpl; [reflexivity|].
  destruct (String.eqb k k1) eqn:E; simpl.
  - apply String.eqb_eq in E as <-. by destruct (String.eqb k' k).
  - rewrite IH. destruct (String.eqb k' k1) eqn:E1; [|reflexivity].
    apply String.eqb_eq in E1 as ->.
    by rewrite String.eqb_sym, E.
Qed.

Lemma dict_get_set_eq (k : string) (v : value) (d : dict) :
  dict_get k (dict_set k v d) = Some v.
Proof. unfold dict_get. by rewrite lookup_label_dict_set, String.eqb_refl. Qed.

Lemma dict_get_set_ne (k k' : string) (v : value) (d : dict) :
  k' <> k -> dict_get k' (dict_set k v d) = dict_get k' d.
Proof.
  intros Hne. unfold dict_get. rewrite lookup_label_dict_set.
  by apply String.eqb_neq in Hne as ->.
Qed.

Lemma lookup_label_keys (k : string) (v : value) (d : dict) :
  lookup_label k d = Some v -> k ∈ dict_keys d.
Proof.
  induction d as [|[k1 v1] d IH]; simpl; [discriminate|].
  destruct (String.eqb k k1) eqn:E.
  - apply String.eqb_eq in E as ->. intros _. left.
  - intros H. right. by apply IH.
Qed.

Lemma add_label_incl (acc : list string) (k x : string) :
  x ∈ acc -> x ∈ add_label acc k.
Proof.
  intros Hx. unfold add_label. case_bool_decide; [done|].
  apply elem_of_app. by left.
Qed.

Lemma add_label_in (acc : list string) (k : string) : k ∈ add_label acc k.
Proof.
  unfold add_label. case_bool_decide; [done|].
  apply elem_of_app. right. left.
Qed.

Lemma fold_add_label_incl (ks acc : list string) (x : string) :
  x ∈ acc -> x ∈ fold_left add_label ks acc.
Proof.
  revert acc; induction ks as [|k ks IH]; intros acc H; simpl; [done|].
  apply IH. by apply add_label_incl.
Qed.

Lemma fold_add_label_in (ks acc : list string) (k : string) :
  k ∈ ks -> k ∈ fold_left add_label ks acc.
Proof.
  revert acc; induction ks as [|k0 ks IH]; intros acc H; simpl.
  - by apply elem_of_nil in H.
  - apply elem_of_cons in H as [->|H]; [|by apply IH].
    apply fold_add_label_incl, add_label_in.
Qed.

Lemma record_labels_in (recs : list dict) (acc : list string) (d : dict)
    (k : string) :
  d ∈ recs -> k ∈ dict_keys d ->
  k ∈ fold_left (fun acc d => fold_left add_label (dict_keys d) acc) recs acc.
Proof.
  revert acc; induction recs as [|d0 recs IH]; intros acc Hd Hk; simpl.
  - by apply elem_of_nil in Hd.
  - apply elem_of_cons in Hd as [->|Hd]; [|by apply IH].
    clear IH. generalize (fold_add_label_in (dict_keys d0) acc k Hk).
    generalize (fold_left add_label (dict_keys d0) acc). clear.
    induction recs as [|d1 recs IH]; intros acc H; simpl; [done|].
    apply IH. by apply fold_add_label_incl.
Qed.

Lemma index_of_elem (c : string) (cols : list string) :
  c ∈ cols -> exists i, index_of c cols = Some i.
Proof.
  induction cols as [|k cols IH]; intros H; [by apply elem_of_nil in H|].
  simpl. destruct (String.eqb c k) eqn:E; [eauto|].
  apply elem_of_cons in H as [->|H].
  - by rewrite String.eqb_refl in E.
  - destruct (IH H) as [i ->]. simpl. eauto.
Qed.

Lemma nth_index_of {A} (f : string -> A) (c : string) (cols : list string)
    (i : nat) (d : A) :
  index_of c cols = Some i -> nth i (map f cols) d = f c.
Proof.
  revert i; induction cols as [|k cols IH]; intros i; simpl; [discriminate|].
  destruct (String.eqb c k) eqn:E.
  - intros [= <-]. apply String.eqb_eq in E as ->. reflexivity.
  - destruct (index_of c cols) as [j|]; simpl; [|discriminate].
    intros [= <-]. by apply IH.
Qed.

(** A column of a table built from records holds, row by row, the
    record's entry for the label, or NaN when the record has none. *)
Lemma getitem_of_records (c : string) (recs : list dict) (d : dict) :
  d ∈ recs -> c ∈ dict_keys d ->
  getitem c (DataFrame_of_records recs)
  = Ok (map (fun r => default VNaN (dict_get c r)) recs).
Proof.
  intros Hd Hc. unfold getitem, DataFrame_of_records. simpl.
  destruct (index_of_elem c _ (record_labels_in recs [] d c Hd Hc)) as [i Hi].
  rewrite Hi. f_equal. rewrite map_map. apply map_ext. intros r.
  by apply (nth_index_of (fun c0 => default VNaN (dict_get c0 r))).
Qed.

Lemma rows_of_records (recs : list dict) :
  length (rows (DataFrame_of_records recs)) = length recs.
Proof. unfold DataFrame_of_records. simpl. by rewrite length_map. Qed.

End PandasFacts.

Import PandasFacts.

(** ** Role explosion *)

Module ProcessFacts.

(** Closed decidable facts about the script's constant tables. *)
Ltac by_computation :=
  match goal with
  | |- ?P => apply (bool_decide_eq_true_1 P); vm_compute; reflexivity
  end.

Lemma mapM_all_ok {A B} (f : A -> result B) (l : list A) :
  (forall x, x ∈ l -> exists y, f x = Ok y) -> exists ys, mapM f l = Ok ys.
Proof.
  induction l as [|x l IH]; intros H; simpl; [eauto|].
  destruct (H x) as [y ->]; [left|]. simpl.
  destruct IH as [ys ->]; [|simpl; eauto].
  intros z Hz. apply H. by right.
Qed.

Lemma mapM_err_uniform {A B} (f : A -> result B) (l : list A) (e : exn) :
  (forall x, x ∈ l -> is_ok (f x) = true \/ f x = Err e) ->
  (exists x, x ∈ l /\ f x = Err e) ->
  mapM f l = Err e.
Proof.
  induction l as [|y l IH]; intros Hall [x [Hin Hx]].
  - by apply elem_of_nil in Hin.
  - simpl. destruct (Hall y) as [Hy|Hy]; [left| |by rewrite Hy].
    destruct (f y) as [b|] eqn:Ey; [|discriminate]. simpl.
    apply elem_of_cons in Hin as [->|Hin].
    + congruence.
    + rewrite IH; [reflexivity| |eauto].
      intros z Hz. apply Hall. by right.
Qed.

(** Tokens produced by [split] contain no whitespace, so the
    [role.strip()] of the loop body leaves them as they are. *)
Lemma split_no_space (s t : string) :
  t ∈ split s -> string_exists isspace t = false /\ t <> "".
Proof.
  revert t; induction s as [|c s IH]; intros t; simpl.
  - intros H. by apply elem_of_nil in H.
  - destruct (isspace c) eqn:Ec; [apply IH|].
    destruct s as [|c' s'].
    + intros H. apply list_elem_of_singleton in H as ->. simpl.
      by rewrite Ec.
    + destruct (isspace c') eqn:Ec'.
      * intros H. apply elem_of_cons in H as [->|H]; [|by apply IH].
        simpl. by rewrite Ec.
      * destruct (split (String c' s')) as [|t0 ts] eqn:Es.
        -- intros H. apply list_elem_of_singleton in H as ->. simpl.
           by rewrite Ec.
        -- intros H. apply elem_of_cons in H as [->|H].
           ++ simpl. rewrite Ec. simpl. split; [|done].
              apply IH. left.
           ++ apply IH. by right.
Qed.

Lemma rstrip_no_space (t : string) :
  string_exists isspace t = false -> rstrip t = t.
Proof.
  induction t as [|c t IH]; simpl; [done|].
  intros H. apply orb_false_iff in H as [Hc Ht].
  rewrite (IH Ht), Hc. by destruct t.
Qed.

Lemma strip_no_space (t : string) :
  string_exists isspace t = false -> strip t = t.
Proof.
  intros H. unfold strip.
  assert (lstrip t = t) as ->; [|by apply rstrip_no_space].
  destruct t as [|c t]; simpl in *; [done|].
  apply orb_false_iff in H as [-> _]. reflexivity.
Qed.

Lemma strip_role (row : Series) (role : string) :
  role ∈ roles_of row -> strip role = role.
Proof. intros H. apply strip_no_space. by apply (split_no_space _ _ H). Qed.

(** What ends up under a bare prefix: the cell at prefix+suffix when the
    column exists and is not missing. *)
Lemma copy_prefix_get (row : Series) (suffix : string) (d : dict)
    (p k : string) :
  dict_get k (copy_prefix row suffix d p)
  = if String.eqb k p
    then match selected row suffix p with
         | Some v => Some v
         | None => dict_get k d
         end
    else dict_get k d.
Proof.
  unfold copy_prefix, selected.
  destruct (lookup_label (p +:+ suffix) row) as [v|]; [|by destruct (String.eqb k p)].
  destruct (notna v); [|by destruct (String.eqb k p)].
  unfold dict_get. by rewrite lookup_label_dict_set.
Qed.

Lemma fold_copy_prefix_get (row : Series) (suffix : string) (ps : list string)
    (d : dict) (k : string) :
  dict_get k (fold_left (copy_prefix row suffix) ps d)
  = if bool_decide (k ∈ ps)
    then match selected row suffix k with
         | Some v => Some v
         | None => dict_get k d
         end
    else dict_get k d.
Proof.
  revert d; induction ps as [|p ps IH]; intros d; simpl; [done|].
  rewrite IH, copy_prefix_get.
  destruct (String.eqb k p) eqn:E.
  - apply String.eqb_eq in E as ->.
    rewrite (bool_decide_eq_true_2 (p ∈ p :: ps)) by left.
    destruct (selected row suffix p); by case_bool_decide.
  - apply String.eqb_neq in E.
    case_bool_decide as H1; case_bool_decide as H2; try reflexivity.
    + exfalso. apply H2. by right.
    + exfalso. apply elem_of_cons in H2 as [?|?]; done.
Qed.

Lemma copy_base_get (row : Series) (k : string) :
  dict_get k (copy_base row)
  = if bool_decide (k ∈ base_columns) then lookup_label k row else None.
Proof.
  unfold copy_base.
  assert (forall cols d,
    dict_get k (fold_left (fun d col =>
                   match lookup_label col row with
                   | Some v => dict_set col v d
                   | None => d
                   end) cols d)
    = if bool_decide (k ∈ cols)
      then match lookup_label k row with
           | Some v => Some v
           | None => dict_get k d
           end
      else dict_get k d) as Hgen.
  { induction cols as [|c cols IH]; intros d; simpl; [done|].
    rewrite IH. destruct (String.eqb k c) eqn:E.
    - apply String.eqb_eq in E as ->.
      rewrite (bool_decide_eq_true_2 (c ∈ c :: cols)) by left.
      destruct (lookup_label c row) as [v|] eqn:Ev.
      + rewrite dict_get_set_eq. by case_bool_decide.
      + by case_bool_decide.
    - apply String.eqb_neq in E.
      assert (dict_get k match lookup_label c row with
                         | Some v => dict_set c v d
                         | None => d
                         end = dict_get k d) as ->.
      { destruct (lookup_label c row); [by apply dict_get_set_ne|done]. }
      case_bool_decide as H1; case_bool_decide as H2; try reflexivity.
      + exfalso. apply H2. by right.
      + exfalso. apply elem_of_cons in H2 as [?|?]; done. }
  rewrite Hgen. simpl. by destruct (bool_decide _), (lookup_label k row).
Qed.

(** The record built for a role carries the role value... *)
Lemma build_row_role (row : Series) (suffix : string) (r : value) :
  dict_get "hire_role" (build_row row suffix r) = Some r.
Proof.
  unfold build_row. rewrite fold_copy_prefix_get.
  rewrite bool_decide_eq_false_2.
  - apply dict_get_set_eq.
  - by_computation.
Qed.

(** ... and, under each configured prefix, exactly the selected cell. *)
Lemma build_row_prefix (row : Series) (suffix : string) (r : value)
    (p : string) :
  p ∈ column_prefixes ->
  dict_get p (build_row row suffix r) = selected row suffix p.
Proof.
  intros Hp. unfold build_row. rewrite fold_copy_prefix_get.
  rewrite bool_decide_eq_true_2 by done.
  destruct (selected row suffix p); [done|].
  assert (p <> "hire_role" /\ p ∉ base_columns) as [Hne Hnb].
  { unfold column_prefixes in Hp.
    repeat (apply elem_of_cons in Hp as [->|Hp];
            [split; by_computation|]).
    by apply elem_of_nil in Hp. }
  rewrite dict_get_set_ne by done. rewrite copy_base_get.
  by rewrite bool_decide_eq_false_2.
Qed.

Lemma explode_role_cases (row : Series) (role : string) :
  explode_role row role
  = match suffix_of (strip role) with
    | Some suffix =>
        match role_value row (strip role) with
        | Ok r => Ok [build_row row suffix r]
        | Err e => Err e
        end
    | None => Ok []
    end.
Proof.
  unfold explode_role. destruct (suffix_of (strip role)); [|done].
  by destruct (role_value row (strip role)).
Qed.

Lemma role_value_cases (row : Series) (role : string) :
  role_value row role
  = if String.eqb role "Other"
    then match series_get "hire_role_other" (VStr "") row with
         | VStr s => Ok (VStr (if String.eqb (strip s) "" then "Other" else strip s))
         | _ => Err AttributeError
         end
    else Ok (VStr role).
Proof.
  unfold role_value. destruct (String.eqb role "Other"); [|done].
  by destruct (series_get "hire_role_other" (VStr "") row).
Qed.

Lemma explode_role_ok_or_attribute_error (row : Series) (role : string) :
  is_ok (explode_role row role) = true
  \/ explode_role row role = Err AttributeError.
Proof.
  rewrite explode_role_cases, role_value_cases.
  destruct (suffix_of (strip role)); [|by left].
  destruct (String.eqb (strip role) "Other"); [|by left].
  destruct (series_get "hire_role_other" (VStr "") row); auto.
Qed.

Lemma explode_row_ok_or_attribute_error (row : Series) :
  is_ok (explode_row row) = true \/ explode_row row = Err AttributeError.
Proof.
  unfold explode_row.
  destruct (mapM (explode_role row) (roles_of row)) as [l|e] eqn:E; [by left|].
  right. simpl. f_equal.
  revert E. induction (roles_of row) as [|role l IH]; simpl; [discriminate|].
  destruct (explode_role_ok_or_attribute_error row role) as [H|H].
  - destruct (explode_role row role); [|discriminate]. simpl.
    destruct (mapM (explode_role row) l); simpl; [discriminate|].
    intros [= <-]. by apply IH.
  - rewrite H. simpl. by intros [= <-].
Qed.

End ProcessFacts.

Import ProcessFacts.

Module Explosion.

(** When the override can be stripped, a record yields one output record
    per recognized token, in token order, each built from that token's
    suffix; unrecognized tokens yield nothing. *)
Lemma explode_row_records (row : Series) :
  ("Other" ∈ roles_of row ->
   is_str (series_get "hire_role_other" (VStr "") row) = true) ->
  exists recs,
    explode_row row = Ok recs
    /\ length recs = length (recognized_roles row)
    /\ Forall2 (fun role rec =>
                  exists suffix r,
                    suffix_of role = Some suffix
                    /\ role_value row role = Ok r
                    /\ rec = build_row row suffix r
                    /\ forall p, p ∈ column_prefixes ->
                                 dict_get p rec = selected row suffix p)
               (recognized_roles row) recs.
Proof.
  intros Hother. unfold explode_row, recognized_roles.
  assert (forall role, role ∈ roles_of row -> strip role = role) as Hstrip
    by (intros role; apply strip_role).
  revert Hother Hstrip.
  generalize (roles_of row) as l.
  induction l as [|role l IH]; intros Hother Hstrip.
  - exists []. simpl. auto.
  - destruct IH as (recs & Hrecs & Hlen & Hall).
    { intros H. apply Hother. by right. }
    { intros r Hr. apply Hstrip. by right. }
    apply bind_ok in Hrecs as (per & Hper & [= <-]).
    simpl. rewrite explode_role_cases, role_value_cases, Hper.
    rewrite (Hstrip role) by left.
    assert (recognized role
            = match suffix_of role with Some _ => true | None => false end)
      as Hrec by reflexivity.
    destruct (suffix_of role) as [suffix|] eqn:Es; rewrite Hrec; simpl.
    + assert (exists r, (if String.eqb role "Other"
                         then match series_get "hire_role_other" (VStr "") row with
                              | VStr s => Ok (VStr (if String.eqb (strip s) ""
                                                    then "Other" else strip s))
                              | _ => Err AttributeError
                              end
                         else Ok (VStr role)) = Ok r) as [r Hr].
      { destruct (String.eqb role "Other") eqn:E; [|eauto].
        apply String.eqb_eq in E as ->.
        destruct (series_get "hire_role_other" (VStr "") row) eqn:Ev;
          try (specialize (Hother ltac:(left)); discriminate).
        eauto. }
      rewrite Hr. simpl. eexists. split; [reflexivity|]. split.
      * simpl. by rewrite Hlen.
      * constructor; [|done].
        exists suffix, r. rewrite role_value_cases.
        repeat split; try done.
        intros p Hp. by apply build_row_prefix.
    + eexists. split; [reflexivity|]. split; done.
Qed.

(** C1 (the code departs from the claim): a record whose only role is
    the recognized token Other and whose override cell is missing has one
    recognized token, yet the explosion emits no record for it: the
    transform stops with AttributeError, for the row and for the table. *)
Theorem explode_missing_override_raises :
  recognized_roles
    [("KEY", VStr "uuid:1"); ("hire_role", VStr "Other");
     ("hire_role_other", VNaN); ("number_role", VInt 2)] = ["Other"]
  /\ explode_row
       [("KEY", VStr "uuid:1"); ("hire_role", VStr "Other");
        ("hire_role_other", VNaN); ("number_role", VInt 2)]
     = Err AttributeError
  /\ explode (mkDF ["KEY"; "hire_role"; "hire_role_other"; "number_role"]
                   [[VStr "uuid:1"; VStr "Other"; VNaN; VInt 2]])
     = Err AttributeError.
Proof. repeat split; vm_compute; reflexivity. Qed.

(** C2: a one-row table whose roles field is "RA Other" and whose
    override is the empty string explodes into exactly two records, the
    first with role "RA" and the second with the literal "Other". *)
Theorem explode_RA_Other_blank_override (cols : list string)
    (cells : list value) :
  lookup_label "hire_role" (combine cols cells) = Some (VStr "RA Other") ->
  lookup_label "hire_role_other" (combine cols cells) = Some (VStr "") ->
  exists r1 r2 t,
    long_rows (mkDF cols [cells]) = Ok [r1; r2]
    /\ dict_get "hire_role" r1 = Some (VStr "RA")
    /\ dict_get "hire_role" r2 = Some (VStr "Other")
    /\ explode (mkDF cols [cells]) = Ok t
    /\ length (rows t) = 2
    /\ getitem "hire_role" t = Ok [VStr "RA"; VStr "Other"].
Proof.
  intros Hrole Hother.
  set (row := combine cols cells) in *.
  assert (roles_of row = ["RA"; "Other"]) as Hroles.
  { unfold roles_of, series_get. by rewrite Hrole. }
  assert (explode_role row "RA" = Ok [build_row row "_ra" (VStr "RA")]) as Hra
    by reflexivity.
  assert (explode_role row "Other" = Ok [build_row row "" (VStr "Other")])
    as Hoth.
  { rewrite explode_role_cases, role_value_cases. unfold series_get.
    rewrite Hother. reflexivity. }
  assert (long_rows (mkDF cols [cells])
          = Ok [build_row row "_ra" (VStr "RA");
                build_row row "" (VStr "Other")]) as Hlong.
  { assert (explode_row row
            = Ok [build_row row "_ra" (VStr "RA");
                  build_row row "" (VStr "Other")]) as Hrow.
    { unfold explode_row. rewrite Hroles. cbn [mapM].
      rewrite Hra, Hoth. reflexivity. }
    unfold long_rows, iterrows. cbn [rows columns map mapM]. fold row.
    rewrite Hrow. reflexivity. }
  exists (build_row row "_ra" (VStr "RA")), (build_row row "" (VStr "Other")).
  eexists. split; [exact Hlong|].
  split; [apply build_row_role|]. split; [apply build_row_role|].
  unfold explode. rewrite Hlong. simpl. split; [reflexivity|].
  split; [by rewrite rows_of_records|].
  rewrite (getitem_of_records "hire_role" _ (build_row row "_ra" (VStr "RA"))).
  - simpl. by rewrite !build_row_role.
  - left.
  - apply (lookup_label_keys _ (VStr "RA")). apply build_row_role.
Qed.

Lemma explode_RA_Other_blank_override_witness :
  exists r1 r2 t,
    long_rows (mkDF ["KEY"; "hire_role"; "hire_role_other"]
                    [[VStr "uuid:1"; VStr "RA Other"; VStr ""]]) = Ok [r1; r2]
    /\ dict_get "hire_role" r1 = Some (VStr "RA")
    /\ dict_get "hire_role" r2 = Some (VStr "Other")
    /\ explode (mkDF ["KEY"; "hire_role"; "hire_role_other"]
                     [[VStr "uuid:1"; VStr "RA Other"; VStr ""]]) = Ok t
    /\ length (rows t) = 2
    /\ getitem "hire_role" t = Ok [VStr "RA"; VStr "Other"].
Proof.
  apply (explode_RA_Other_blank_override
           ["KEY"; "hire_role"; "hire_role_other"]
           [VStr "uuid:1"; VStr "RA Other"; VStr ""]); reflexivity.
Defined.

(** C9: for a record that lists the recognized token Other, the
    explosion completes, and applies the blank-override fallback, exactly
    when the override value is a string; on any other value, a missing
    (NaN) cell in particular, it raises AttributeError and so does the
    explosion of every table holding the record. *)
Theorem other_fallback_needs_string_override (row : Series) :
  "Other" ∈ roles_of row ->
  (forall s, series_get "hire_role_other" (VStr "") row = VStr s ->
     (exists recs, explode_row row = Ok recs)
     /\ role_value row "Other"
        = Ok (VStr (if String.eqb (strip s) "" then "Other" else strip s)))
  /\ (is_str (series_get "hire_role_other" (VStr "") row) = false ->
      explode_row row = Err AttributeError
      /\ forall df, row ∈ iterrows df -> explode df = Err AttributeError)
  /\ (series_get "hire_role_other" (VStr "") row = VNaN ->
      explode_row row = Err AttributeError).
Proof.
  intros Hin.
  assert (is_str (series_get "hire_role_other" (VStr "") row) = false ->
          explode_row row = Err AttributeError) as Hraise.
  { intros Hns. unfold explode_row.
    rewrite (mapM_err_uniform (explode_role row) (roles_of row) AttributeError);
      [reflexivity| |].
    - intros role _. apply explode_role_ok_or_attribute_error.
    - exists "Other". split; [done|].
      rewrite explode_role_cases, role_value_cases.
      change (strip "Other") with "Other". simpl.
      by destruct (series_get "hire_role_other" (VStr "") row). }
  split; [|split].
  - intros s Hs. split.
    + destruct (explode_row_records row) as (recs & Hrecs & _); [|eauto].
      intros _. by rewrite Hs.
    + rewrite role_value_cases, Hs. reflexivity.
  - intros Hns. split; [by apply Hraise|].
    intros df Hdf. unfold explode, long_rows.
    rewrite (mapM_err_uniform explode_row (iterrows df) AttributeError);
      [reflexivity| |].
    + intros r _. apply explode_row_ok_or_attribute_error.
    + exists row. split; [done|]. by apply Hraise.
  - intros Hnan. apply Hraise. by rewrite Hnan.
Qed.

Lemma other_fallback_needs_string_override_witness :
  (forall s, series_get "hire_role_other" (VStr "")
               [("hire_role", VStr "FC Other"); ("hire_role_other", VNaN)]
             = VStr s ->
     (exists recs, explode_row [("hire_role", VStr "FC Other");
                                ("hire_role_other", VNaN)] = Ok recs)
     /\ role_value [("hire_role", VStr "FC Other"); ("hire_role_other", VNaN)]
                   "Other"
        = Ok (VStr (if String.eqb (strip s) "" then "Other" else strip s)))
  /\ (is_str (series_get "hire_role_other" (VStr "")
                [("hire_role", VStr "FC Other"); ("hire_role_other", VNaN)])
      = false ->
      explode_row [("hire_role", VStr "FC Other"); ("hire_role_other", VNaN)]
      = Err AttributeError
      /\ forall df,
           [("hire_role", VStr "FC Other"); ("hire_role_other", VNaN)]
             ∈ iterrows df ->
           explode df = Err AttributeError)
  /\ (series_get "hire_role_other" (VStr "")
        [("hire_role", VStr "FC Other"); ("hire_role_other", VNaN)] = VNaN ->
      explode_row [("hire_role", VStr "FC Other"); ("hire_role_other", VNaN)]
      = Err AttributeError).
Proof.
  apply (other_fallback_needs_string_override
           [("hire_role", VStr "FC Other"); ("hire_role_other", VNaN)]).
  apply (bool_decide_eq_true_1 _). vm_compute. reflexivity.
Defined.

End Explosion.

(** ** Country normalization *)

Module Countries.

Local Arguments String.append !_ _ / : simpl nomatch.

Lemma prefix_append (a s : string) :
  String.prefix a s = true <-> exists q, s = a +:+ q.
Proof.
  revert s; induction a as [|c a IH]; intros s; simpl.
  - destruct s; split; eauto.
  - destruct s as [|c' s]; simpl.
    + split; [discriminate|]. intros [q Hq]. discriminate.
    + destruct (Ascii.ascii_dec c c') as [->|Hne].
      * rewrite IH. split; intros [q Hq]; exists q; [by rewrite Hq|].
        by injection Hq.
      * split; [discriminate|]. intros [q Hq]. injection Hq. congruence.
Qed.

Lemma append_assoc (a b c : string) : (a +:+ b) +:+ c = a +:+ (b +:+ c).
Proof. induction a as [|x a IH]; simpl; [done|]. by rewrite IH. Qed.

Lemma contains_append (sub s : string) :
  contains sub s = true <-> exists p q, s = p +:+ sub +:+ q.
Proof.
  induction s as [|c s IH].
  - cbn [contains]. rewrite orb_false_r, prefix_append. split.
    + intros [q Hq]. by exists "", q.
    + intros (p & q & Hpq). destruct p; [by exists q|discriminate].
  - cbn [contains]. rewrite orb_true_iff, IH, prefix_append. split.
    + intros [[q Hq]|(p & q & Hpq)].
      * by exists "", q.
      * exists (String c p), q. simpl. by rewrite Hpq.
    + intros (p & q & Hpq). destruct p as [|c' p].
      * left. by exists q.
      * right. exists p, q. simpl in Hpq. by injection Hpq.
Qed.

(** A name inside a name that occurs in the text occurs in the text. *)
Lemma contains_trans (a b t : string) :
  contains a b = true -> contains b t = true -> contains a t = true.
Proof.
  rewrite !contains_append.
  intros (p1 & q1 & ->) (p2 & q2 & ->).
  exists (p2 +:+ p1), (q1 +:+ q2). by rewrite !append_assoc.
Qed.

Lemma insert_by_len_elem (x y : string) (l : list string) :
  y ∈ insert_by_len x l <-> y = x \/ y ∈ l.
Proof.
  induction l as [|z l IH]; simpl.
  - rewrite list_elem_of_singleton, elem_of_nil. tauto.
  - destruct (Nat.leb _ _).
    + rewrite elem_of_cons. tauto.
    + rewrite !elem_of_cons, IH. tauto.
Qed.

Lemma sorted_by_len_elem (y : string) (l : list string) :
  y ∈ sorted_by_len l <-> y ∈ l.
Proof.
  induction l as [|x l IH]; simpl; [done|].
  rewrite insert_by_len_elem, IH, elem_of_cons. tauto.
Qed.

Lemma insert_by_len_sorted (x : string) (l : list string) :
  StronglySorted longer_first l -> StronglySorted longer_first (insert_by_len x l).
Proof.
  induction l as [|y l IH]; intros Hs; simpl.
  - by repeat constructor.
  - apply StronglySorted_cons in Hs as [Hy Hl].
    destruct (Nat.leb (String.length y) (String.length x)) eqn:E.
    + apply Nat.leb_le in E. apply StronglySorted_cons. split.
      * constructor; [done|].
        eapply Forall_impl; [exact Hy|]. unfold longer_first. intros; lia.
      * by apply StronglySorted_cons.
    + apply Nat.leb_gt in E. apply StronglySorted_cons. split; [|by apply IH].
      apply Forall_forall. intros z Hz.
      apply insert_by_len_elem in Hz as [->|Hz].
      * unfold longer_first. lia.
      * by apply (proj1 (Forall_forall _ _) Hy).
Qed.

Lemma sorted_by_len_sorted (l : list string) :
  StronglySorted longer_first (sorted_by_len l).
Proof.
  induction l as [|x l IH]; simpl; [constructor|].
  by apply insert_by_len_sorted.
Qed.

Lemma filter_sorted (p : string -> bool) (l : list string) :
  StronglySorted longer_first l -> StronglySorted longer_first (List.filter p l).
Proof.
  induction l as [|x l IH]; intros Hs; simpl; [constructor|].
  apply StronglySorted_cons in Hs as [Hx Hl].
  destruct (p x); [|by apply IH].
  apply StronglySorted_cons. split; [|by apply IH].
  apply Forall_forall. intros z Hz.
  apply list_elem_of_In, filter_In in Hz as [Hz _].
  apply (proj1 (Forall_forall _ _) Hx). by apply list_elem_of_In.
Qed.

Lemma sorted_precedes (l : list string) (a b : string) :
  StronglySorted longer_first l -> a ∈ l -> b ∈ l ->
  String.length a < String.length b -> precedes b a l.
Proof.
  induction l as [|x l IH]; intros Hs Ha Hb Hlt.
  - by apply elem_of_nil in Ha.
  - apply StronglySorted_cons in Hs as [Hx Hl].
    pose proof (proj1 (Forall_forall _ _) Hx) as Hx'.
    apply elem_of_cons in Ha as [->|Ha]; apply elem_of_cons in Hb as [->|Hb].
    + lia.
    + specialize (Hx' b Hb). unfold longer_first in Hx'. lia.
    + apply list_elem_of_split in Ha as (l2 & l3 & ->).
      by exists [], l2, l3.
    + destruct (IH Hl Ha Hb Hlt) as (l1 & l2 & l3 & ->).
      by exists (x :: l1), l2, l3.
Qed.

Lemma matched_names_elem (countries : list string) (text : value)
    (name : string) :
  name ∈ matched_names countries text
  <-> name ∈ catalog countries /\ contains name (str text) = true.
Proof.
  unfold matched_names.
  rewrite list_elem_of_In, filter_In, <- list_elem_of_In, sorted_by_len_elem.
  reflexivity.
Qed.

Lemma only_inside_Niger :
  only_inside "Niger" "Nigeria" "Nigeria".
Proof.
  intros i [Hlen Hpre]. exists 0. simpl in Hlen.
  destruct i as [|[|[|i]]]; try (simpl in Hpre; discriminate); [|lia].
  repeat split; simpl; lia.
Qed.

(** C3 (as stated, refuted): with the catalog names Niger and Nigeria
    and the text "Nigeria", the only occurrence of the shorter name lies
    inside the longer match, yet the output is "Nigeria, Niger". *)
Lemma longest_match_only_fails :
  normalize_location ["Niger"; "Nigeria"] (VStr "Nigeria") = "Nigeria, Niger"
  /\ ~ prefers_longest ["Niger"; "Nigeria"] (VStr "Nigeria").
Proof.
  split; [reflexivity|].
  intros H.
  destruct (H "Niger" "Nigeria") as [_ Hno]; [by_computation..|].
  apply Hno; [apply only_inside_Niger | by_computation].
Qed.

(** C3 (amended): when one catalog name lies inside another and the
    longer one occurs in the text, the output lists both names (every
    catalog name occurring in the text is selected) and the longer name
    comes before the shorter one; the output is the selected names
    joined by ", ". *)
Theorem longest_name_listed_first (countries : list string) (text : value)
    (a b : string) :
  a ∈ catalog countries -> b ∈ catalog countries ->
  contains a b = true -> contains b (str text) = true ->
  b ∈ matched_names countries text
  /\ a ∈ matched_names countries text
  /\ (String.length a < String.length b ->
      precedes b a (matched_names countries text))
  /\ normalize_location countries text
     = join ", " (matched_names countries text).
Proof.
  intros Ha Hb Hab Hbt.
  assert (b ∈ matched_names countries text) as Hmb
    by (by apply matched_names_elem).
  assert (a ∈ matched_names countries text) as Hma.
  { apply matched_names_elem. split; [done|]. by apply (contains_trans a b). }
  repeat split; try done.
  intros Hlt. apply sorted_precedes; try done.
  apply filter_sorted, sorted_by_len_sorted.
Qed.

Lemma longest_name_listed_first_witness :
  "Nigeria" ∈ matched_names ["Niger"; "Nigeria"] (VStr "Lagos, Nigeria")
  /\ "Niger" ∈ matched_names ["Niger"; "Nigeria"] (VStr "Lagos, Nigeria")
  /\ (String.length "Niger" < String.length "Nigeria" ->
      precedes "Nigeria" "Niger"
               (matched_names ["Niger"; "Nigeria"] (VStr "Lagos, Nigeria")))
  /\ normalize_location ["Niger"; "Nigeria"] (VStr "Lagos, Nigeria")
     = join ", " (matched_names ["Niger"; "Nigeria"] (VStr "Lagos, Nigeria")).
Proof.
  apply (longest_name_listed_first ["Niger"; "Nigeria"]
           (VStr "Lagos, Nigeria") "Niger" "Nigeria");
    first [reflexivity | by_computation].
Defined.

End Countries.

(** ** Integer coercion and the script runner *)

Module Coercion.

Local Arguments String.append !_ _ / : simpl nomatch.

Lemma lstrip_sub (p : ascii -> bool) (s : string) :
  string_exists p s = false -> string_exists p (lstrip s) = false.
Proof.
  induction s as [|c s IH]; simpl; [done|].
  intros H. apply orb_false_iff in H as [Hc Hs].
  destruct (isspace c); [by apply IH|]. simpl. by rewrite Hc, Hs.
Qed.

Lemma rstrip_sub (p : ascii -> bool) (s : string) :
  string_exists p s = false -> string_exists p (rstrip s) = false.
Proof.
  induction s as [|c s IH]; simpl; [done|].
  intros H. apply orb_false_iff in H as [Hc Hs]. specialize (IH Hs).
  destruct (rstrip s) as [|c' r].
  - destruct (isspace c); simpl; [done|]. by rewrite Hc.
  - cbn [string_exists] in *. by rewrite Hc, IH.
Qed.

(** *** The texts that [int] accepts *)

Lemma digit_not_space (c : ascii) : is_digit c = true -> int_space c = false.
Proof.
  destruct c as [[] [] [] [] [] [] [] []]; vm_compute; congruence.
Qed.

Lemma digit_not_sign (c : ascii) :
  is_digit c = true -> Ascii.eqb c "-" = false /\ Ascii.eqb c "+" = false.
Proof.
  destruct c as [[] [] [] [] [] [] [] []]; vm_compute; intuition congruence.
Qed.

Lemma is_digit_val (c : ascii) :
  is_digit c = true -> exists d, digit_val c = Some d.
Proof. unfold is_digit. destruct (digit_val c); [eauto | discriminate]. Qed.

Lemma blank_cons (c : ascii) (s : string) :
  blank (String c s) = int_space c && blank s.
Proof. unfold blank. simpl. by destruct (int_space c). Qed.

Lemma lstrip_int_split (s : string) :
  exists b, s = b +:+ lstrip_int s /\ blank b = true.
Proof.
  induction s as [|c s (b & Hs & Hb)]; simpl; [by exists ""|].
  destruct (int_space c) eqn:Ec.
  - exists (String c b). simpl. rewrite <- Hs, blank_cons, Ec, Hb. done.
  - by exists "".
Qed.

Lemma rstrip_int_split (s : string) :
  exists a, s = rstrip_int s +:+ a /\ blank a = true.
Proof.
  induction s as [|c s (a & Hs & Ha)]; simpl; [by exists ""|].
  destruct (rstrip_int s) as [|c' r]; simpl in *.
  - subst s. destruct (int_space c) eqn:Ec.
    + exists (String c a). by rewrite blank_cons, Ec, Ha.
    + by exists a.
  - exists a. by rewrite <- Hs.
Qed.

Lemma parse_digits_groups (s : string) (c : ascii) (acc z : Z) :
  is_digit c = true -> parse_digits acc s = Some z ->
  digit_groups (String c s).
Proof.
  revert c acc.
  induction s as [s IH] using (well_founded_induction
                                 (well_founded_ltof _ String.length)).
  intros c acc Hc. destruct s as [|c1 s1]; simpl; [intros _; by constructor|].
  destruct (digit_val c1) as [d|] eqn:Ed.
  - intros H. apply next_digit; [done|].
    apply (IH s1) with (acc := (10 * acc + d)%Z); [unfold ltof; simpl; lia| |done].
    unfold is_digit. by rewrite Ed.
  - destruct (is_underscore c1) eqn:Eu; [|discriminate].
    apply Ascii.eqb_eq in Eu as ->.
    destruct s1 as [|c2 s2]; [discriminate|].
    destruct (digit_val c2) as [d|] eqn:Ed2; [|discriminate].
    intros H. apply next_group; [done|].
    apply (IH s2) with (acc := (10 * acc + d)%Z); [unfold ltof; simpl; lia| |done].
    unfold is_digit. by rewrite Ed2.
Qed.

Lemma parse_literal_groups (s : string) (z : Z) :
  parse_literal s = Some z -> digit_groups s.
Proof.
  destruct s as [|c s]; simpl; [discriminate|].
  destruct (digit_val c) as [d|] eqn:Ed; [|discriminate].
  apply parse_digits_groups. unfold is_digit. by rewrite Ed.
Qed.

(** What [int] accepts denotes an integer. *)
Lemma py_int_int_text (s : string) (z : Z) : py_int s = Some z -> int_text s.
Proof.
  unfold py_int, strip_int.
  destruct (lstrip_int_split s) as (b & Hs & Hb).
  destruct (rstrip_int_split (lstrip_int s)) as (a & Hl & Ha).
  destruct (rstrip_int (lstrip_int s)) as [|c r]; [discriminate|].
  rewrite Hl in Hs.
  destruct (Ascii.eqb c "-") eqn:E1.
  { apply Ascii.eqb_eq in E1 as ->.
    destruct (parse_literal r) as [n|] eqn:En; [|discriminate]. intros _.
    exists b, "-", r, a.
    split_and!; [by rewrite Hs | done | done | auto
                | by apply (parse_literal_groups r n)]. }
  destruct (Ascii.eqb c "+") eqn:E2.
  { apply Ascii.eqb_eq in E2 as ->. intros En.
    exists b, "+", r, a.
    split_and!; [by rewrite Hs | done | done | auto
                | by apply (parse_literal_groups r z)]. }
  intros En. exists b, "", (String c r), a.
  split_and!; [by rewrite Hs | done | done | auto
              | by apply (parse_literal_groups _ z)].
Qed.

Lemma lstrip_int_blank (b t : string) :
  blank b = true -> lstrip_int (b +:+ t) = lstrip_int t.
Proof.
  induction b as [|c b IH]; simpl; [done|].
  rewrite blank_cons. intros H. apply andb_true_iff in H as [-> Hb]. auto.
Qed.

Lemma rstrip_int_all_blank (a : string) : blank a = true -> rstrip_int a = "".
Proof.
  induction a as [|c a IH]; simpl; [done|].
  rewrite blank_cons. intros H. apply andb_true_iff in H as [Hc Ha].
  by rewrite (IH Ha), Hc.
Qed.

Lemma rstrip_int_blank (t a : string) :
  blank a = true -> rstrip_int (t +:+ a) = rstrip_int t.
Proof.
  intros Ha. induction t as [|c t IH]; simpl.
  - by apply rstrip_int_all_blank.
  - by rewrite IH.
Qed.

Lemma rstrip_int_id (t : string) :
  string_exists int_space t = false -> rstrip_int t = t.
Proof.
  induction t as [|c t IH]; simpl; [done|].
  intros H. apply orb_false_iff in H as [Hc Ht].
  rewrite (IH Ht), Hc. by destruct t.
Qed.

Lemma digit_groups_no_space (body : string) :
  digit_groups body -> string_exists int_space body = false.
Proof.
  induction 1 as [c Hc|c s Hc _ IH|c s Hc _ IH]; simpl;
    rewrite (digit_not_space c Hc); simpl; done.
Qed.

Lemma digit_groups_parse (body : string) :
  digit_groups body ->
  exists c r, body = String c r /\ is_digit c = true
              /\ forall acc, exists z, parse_digits acc r = Some z.
Proof.
  induction 1 as [c Hc|c s Hc _ IH|c s Hc _ IH].
  - exists c, "". split_and!; try done. intros acc. simpl. eauto.
  - destruct IH as (c' & r' & -> & Hc' & IH).
    exists c, (String c' r'). split_and!; try done. intros acc. simpl.
    destruct (is_digit_val c' Hc') as [d ->]. apply IH.
  - destruct IH as (c' & r' & -> & Hc' & IH).
    exists c, (String "_" (String c' r')). split_and!; try done.
    intros acc. simpl.
    destruct (is_digit_val c' Hc') as [d ->]. apply IH.
Qed.

(** What denotes an integer is accepted by [int]. *)
Lemma int_text_parses (s : string) : int_text s -> exists z, py_int s = Some z.
Proof.
  intros (b & sign & body & a & -> & Hb & Ha & Hsign & Hbody).
  pose proof (digit_groups_no_space body Hbody) as Hns.
  destruct (digit_groups_parse body Hbody) as (c & r & -> & Hc & Hparse).
  destruct (is_digit_val c Hc) as [d Hd].
  destruct (digit_not_sign c Hc) as [Hm Hp].
  pose proof (digit_not_space c Hc) as Hsp.
  unfold py_int, strip_int. rewrite (lstrip_int_blank b _ Hb).
  destruct Hsign as [-> | [-> | ->]].
  - change ("" +:+ String c r +:+ a) with (String c r +:+ a).
    assert (lstrip_int (String c r +:+ a) = String c r +:+ a) as ->
      by (simpl; by rewrite Hsp).
    rewrite (rstrip_int_blank _ a Ha), (rstrip_int_id _ Hns).
    rewrite Hm, Hp. simpl. rewrite Hd. apply Hparse.
  - assert (string_exists int_space (String "+" (String c r)) = false) as Hsg
      by (change (false || string_exists int_space (String c r) = false);
          exact Hns).
    change ("+" +:+ String c r +:+ a) with (String "+" (String c r) +:+ a).
    assert (lstrip_int (String "+" (String c r) +:+ a)
            = String "+" (String c r) +:+ a) as -> by reflexivity.
    rewrite (rstrip_int_blank _ a Ha), (rstrip_int_id _ Hsg).
    simpl. rewrite Hd. apply Hparse.
  - assert (string_exists int_space (String "-" (String c r)) = false) as Hsg
      by (change (false || string_exists int_space (String c r) = false);
          exact Hns).
    change ("-" +:+ String c r +:+ a) with (String "-" (String c r) +:+ a).
    assert (lstrip_int (String "-" (String c r) +:+ a)
            = String "-" (String c r) +:+ a) as -> by reflexivity.
    rewrite (rstrip_int_blank _ a Ha), (rstrip_int_id _ Hsg).
    simpl. rewrite Hd. destruct (Hparse d) as [z ->]. simpl. eauto.
Qed.

(** The texts that denote an integer are exactly those [int] accepts. *)
Lemma int_text_iff (s : string) : int_text s <-> is_Some (py_int s).
Proof.
  split.
  - intros H. destruct (int_text_parses s H) as [z ->]. eauto.
  - intros [z Hz]. by apply (py_int_int_text s z).
Qed.

Lemma non_numeric_texts :
  non_numeric (VStr "two") /\ non_numeric (VStr "1-2")
  /\ non_numeric (VStr "1 2") /\ non_numeric (VStr "1__0")
  /\ non_numeric (VStr "3.0") /\ non_numeric (VStr "")
  /\ int_text " +1_000 " /\ int_text "007".
Proof.
  repeat split;
    try (intros H; apply int_text_parses in H as [z Hz]; discriminate Hz).
  - by apply (py_int_int_text _ 1000).
  - by apply (py_int_int_text _ 7).
Qed.

Lemma to_int_non_numeric (v : value) :
  non_numeric v -> exists e, to_int v = Err e.
Proof.
  destruct v as [| |s|n]; simpl; eauto; [|done].
  intros H. destruct (py_int s) as [z|] eqn:Ez; [|eauto].
  exfalso. apply H. by apply (py_int_int_text s z).
Qed.

(** A column that holds a non-numeric cell cannot be coerced, however
    pandas stores it. *)
Lemma astype_int_cells_non_numeric (col : list value) (v : value) :
  v ∈ col -> non_numeric v -> exists e, astype_int_cells col = Err e.
Proof.
  intros Hv Hnn. unfold astype_int_cells, column_dtype.
  destruct (forallb is_int col) eqn:Eint.
  { exfalso. rewrite forallb_forall in Eint.
    specialize (Eint v). rewrite <- list_elem_of_In in Eint.
    specialize (Eint Hv). by destruct v. }
  match goal with
  | |- context [if ?b then Float64 else Object] =>
      destruct b; simpl; [eauto|]
  end.
  destruct (to_int_non_numeric v Hnn) as [e He].
  destruct (mapM_err to_int col v e Hv He) as [e' ->]. simpl. eauto.
Qed.

Lemma astype_int_non_numeric (c : string) (t : DataFrame) (col : list value)
    (v : value) :
  getitem c t = Ok col -> v ∈ col -> non_numeric v ->
  exists e, astype_int c t = Err e.
Proof.
  intros Hcol Hv Hnn. unfold astype_int. rewrite Hcol. simpl.
  destruct (astype_int_cells_non_numeric col v Hv Hnn) as [e ->].
  simpl. eauto.
Qed.


Lemma index_of_inj (c c' : string) (cols : list string) (i : nat) :
  index_of c cols = Some i -> index_of c' cols = Some i -> c = c'.
Proof.
  revert i; induction cols as [|k cols IH]; intros i; simpl; [discriminate|].
  destruct (String.eqb c k) eqn:E; destruct (String.eqb c' k) eqn:E'.
  - apply String.eqb_eq in E, E'. congruence.
  - intros [= <-]. destruct (index_of c' cols); discriminate.
  - destruct (index_of c cols); simpl; [|discriminate].
    intros [= <-]. discriminate.
  - destruct (index_of c cols) as [a|]; simpl; [|discriminate].
    destruct (index_of c' cols) as [b|] eqn:Eb; simpl; [|by intros [= <-]].
    intros [= <-] [= ->]. by apply (IH a).
Qed.

Lemma nth_set_nth_ne (i j : nat) (v d : value) (r : list value) :
  i <> j -> nth i (set_nth j v r) d = nth i r d.
Proof.
  revert i j; induction r as [|x r IH]; intros i j Hne; simpl.
  - by destruct i, j.
  - destruct j as [|j]; destruct i as [|i]; simpl; try done.
    apply IH. lia.
Qed.

Lemma combine_map_self {A B} (f : A -> B) (l : list A) :
  combine l (map f l) = map (fun x => (x, f x)) l.
Proof. induction l as [|x l IH]; simpl; [done|]. by rewrite IH. Qed.

(** Country normalization rewrites one column and leaves the others. *)
Lemma normalize_keeps_column (countries : list string) (t t' : DataFrame)
    (c : string) :
  c <> "hire_position_location" ->
  normalize_locations countries t = Ok t' -> getitem c t' = getitem c t.
Proof.
  intros Hne. unfold normalize_locations, getitem.
  destruct (index_of "hire_position_location" (columns t)) as [j|] eqn:Ej;
    simpl; [|discriminate].
  intros [= <-]. unfold setitem. rewrite Ej. simpl.
  destruct (index_of c (columns t)) as [i|] eqn:Ei; [|done].
  f_equal.
  rewrite (map_map (fun r => nth j r VNaN)), combine_map_self, !map_map.
  simpl.
  apply map_ext. intros r. apply nth_set_nth_ne.
  intros ->. apply Hne. by apply (index_of_inj _ _ _ _ Ei Ej).
Qed.

(** C4 (as stated, refuted): the script fails on the non-numeric role
    count "two" with ValueError, yet [run_specific_scripts] returns
    normally with the table it was given: the error is caught, nothing
    reaches the caller and the run goes on with the unexploded table. *)
Lemma coercion_error_does_not_abort :
  exists exploded located,
    explode (mkDF ["KEY"; "hire_role"; "number_role_ra";
                   "hire_position_location_ra"]
                  [[VStr "uuid:1"; VStr "RA"; VStr "two"; VStr "Kenya"]])
    = Ok exploded
    /\ normalize_locations ["Kenya"] exploded = Ok located
    /\ getitem "number_role" exploded = Ok [VStr "two"]
    /\ non_numeric (VStr "two")
    /\ coerce_number_role located = Err ValueError
    /\ process ["Kenya"] Ok
         (mkDF ["KEY"; "hire_role"; "number_role_ra";
                "hire_position_location_ra"]
               [[VStr "uuid:1"; VStr "RA"; VStr "two"; VStr "Kenya"]])
       = Err ValueError
    /\ run_specific_scripts [process ["Kenya"] Ok]
         (mkDF ["KEY"; "hire_role"; "number_role_ra";
                "hire_position_location_ra"]
               [[VStr "uuid:1"; VStr "RA"; VStr "two"; VStr "Kenya"]])
       = mkDF ["KEY"; "hire_role"; "number_role_ra";
               "hire_position_location_ra"]
              [[VStr "uuid:1"; VStr "RA"; VStr "two"; VStr "Kenya"]].
Proof.
  eexists. eexists.
  split; [vm_compute; reflexivity|].
  split; [vm_compute; reflexivity|].
  split; [vm_compute; reflexivity|].
  split.
  { intros H. apply int_text_parses in H as [z Hz]. discriminate Hz. }
  repeat split; vm_compute; reflexivity.
Qed.

(** C4 (amended): when the role-count column of the exploded table
    holds a non-numeric value, that is a missing cell or a text that
    does not denote an integer, the coercion step raises an exception
    and the script fails; [run_specific_scripts] catches the exception,
    drops the script's table and goes on with the table the script
    received, so the run is not aborted and nothing reaches the
    caller. *)
Theorem coercion_error_is_caught (countries : list string)
    (tail_steps : DataFrame -> result DataFrame)
    (df exploded : DataFrame) (col : list value) (v : value) :
  explode df = Ok exploded ->
  getitem "number_role" exploded = Ok col ->
  v ∈ col ->
  non_numeric v ->
  (forall located,
      normalize_locations countries exploded = Ok located ->
      exists e, coerce_number_role located = Err e)
  /\ (exists e, process countries tail_steps df = Err e)
  /\ run_script df (process countries tail_steps) = df
  /\ (forall after,
        run_specific_scripts (process countries tail_steps :: after) df
        = run_specific_scripts after df).
Proof.
  intros Hex Hcol Hv Hnn.
  assert (forall located,
             normalize_locations countries exploded = Ok located ->
             exists e, coerce_number_role located = Err e) as Hstep.
  { intros located Hloc. unfold coerce_number_role.
    apply (astype_int_non_numeric _ _ col v); try done.
    by rewrite (normalize_keeps_column countries exploded located). }
  assert (exists e, process countries tail_steps df = Err e) as [e He].
  { unfold process. rewrite Hex. simpl.
    destruct (normalize_locations countries exploded) as [located|e] eqn:El;
      simpl; [|eauto].
    destruct (Hstep located eq_refl) as [e ->]. simpl. eauto. }
  assert (run_script df (process countries tail_steps) = df) as Hrun
    by (unfold run_script; by rewrite He).
  repeat split; try done; [eauto|].
  intros after. unfold run_specific_scripts. simpl. by rewrite Hrun.
Qed.

Lemma coercion_error_is_caught_witness :
  (forall located,
      normalize_locations ["Kenya"]
        (mkDF ["hire_role"; "KEY"; "number_role"; "hire_position_location"]
              [[VStr "RA"; VStr "uuid:1"; VStr "1 2"; VStr "Kenya"]])
      = Ok located ->
      exists e, coerce_number_role located = Err e)
  /\ (exists e,
        process ["Kenya"] Ok
          (mkDF ["KEY"; "hire_role"; "number_role_ra";
                 "hire_position_location_ra"]
                [[VStr "uuid:1"; VStr "RA"; VStr "1 2"; VStr "Kenya"]])
        = Err e)
  /\ run_script
       (mkDF ["KEY"; "hire_role"; "number_role_ra";
              "hire_position_location_ra"]
             [[VStr "uuid:1"; VStr "RA"; VStr "1 2"; VStr "Kenya"]])
       (process ["Kenya"] Ok)
     = mkDF ["KEY"; "hire_role"; "number_role_ra";
             "hire_position_location_ra"]
            [[VStr "uuid:1"; VStr "RA"; VStr "1 2"; VStr "Kenya"]]
  /\ (forall after,
        run_specific_scripts (process ["Kenya"] Ok :: after)
          (mkDF ["KEY"; "hire_role"; "number_role_ra";
                 "hire_position_location_ra"]
                [[VStr "uuid:1"; VStr "RA"; VStr "1 2"; VStr "Kenya"]])
        = run_specific_scripts after
            (mkDF ["KEY"; "hire_role"; "number_role_ra";
                   "hire_position_location_ra"]
                  [[VStr "uuid:1"; VStr "RA"; VStr "1 2"; VStr "Kenya"]])).
Proof.
  apply (coercion_error_is_caught ["Kenya"] Ok
           (mkDF ["KEY"; "hire_role"; "number_role_ra";
                  "hire_position_location_ra"]
                 [[VStr "uuid:1"; VStr "RA"; VStr "1 2"; VStr "Kenya"]])
           (mkDF ["hire_role"; "KEY"; "number_role"; "hire_position_location"]
                 [[VStr "RA"; VStr "uuid:1"; VStr "1 2"; VStr "Kenya"]])
           [VStr "1 2"] (VStr "1 2")).
  - reflexivity.
  - reflexivity.
  - by_computation.
  - intros H. apply int_text_parses in H as [z Hz]. discriminate Hz.
Defined.

End Coercion.

(** ** Attachment merge *)

Module Attachments.

Lemma rename_collision_columns (df : DataFrame) (col : string) :
  columns (rename_collision df col)
  = map (fun c => if String.eqb c col then col +:+ "_file" else c) (columns df).
Proof.
  unfold rename_collision. case_bool_decide as Hin; [reflexivity|].
  simpl. symmetry. rewrite <- (map_id (columns df)) at 2.
  apply map_ext_in. intros c Hc.
  destruct (String.eqb c col) eqn:E; [|reflexivity].
  apply String.eqb_eq in E as ->. by apply list_elem_of_In in Hc.
Qed.

(** When no attachment field is itself the [_file] name of another one,
    the renaming loop renames exactly the colliding columns. *)
Lemma rename_collisions_columns (attachment_fields : list string)
    (df : DataFrame) :
  (forall f, f ∈ attachment_fields -> f +:+ "_file" ∉ attachment_fields) ->
  columns (rename_collisions attachment_fields df)
  = map (fun c => if bool_decide (c ∈ attachment_fields)
                  then c +:+ "_file" else c) (columns df).
Proof.
  unfold rename_collisions. revert df.
  induction attachment_fields as [|f fs IH]; intros df Hchain; simpl.
  - symmetry. apply map_id.
  - assert (f +:+ "_file" ∉ fs) as Hf.
    { intros H. apply (Hchain f); [left|by right]. }
    rewrite IH, rename_collision_columns, map_map.
    + apply map_ext. intros c. destruct (String.eqb c f) eqn:E.
      * apply String.eqb_eq in E as ->.
        rewrite (bool_decide_eq_false_2 _ Hf).
        rewrite bool_decide_eq_true_2; [reflexivity | left].
      * apply String.eqb_neq in E.
        case_bool_decide as H1; case_bool_decide as H2; try reflexivity.
        -- exfalso. apply H2. by right.
        -- exfalso. apply elem_of_cons in H2 as [?|?]; done.
    + intros g Hg Hgf. apply (Hchain g); by right.
Qed.

(** C5 (the code departs from the claim): the primary table has distinct
    columns, among them the attachment field [cv] and its [cv_file]
    companion; the file name of the second attachment is absent, so the
    merge runs.  Renaming [cv] to [cv_file] collides with the column
    already there, and the merged table has two columns named
    [cv_file]. *)
Theorem merge_attachments_duplicates_cv_file :
  NoDup (columns Samples.primary)
  /\ ("photo_file" ∉ columns Samples.primary)
  /\ columns (rename_collisions (fields Samples.attachments) Samples.primary)
     = ["KEY"; "cv_file"; "cv_file"]
  /\ columns (merge_attachments (fun _ => Ok Samples.secondary)
                                Samples.primary Samples.attachments)
     = ["KEY"; "cv_file"; "cv_file"; "cv"; "photo"]
  /\ ~ NoDup (columns (merge_attachments (fun _ => Ok Samples.secondary)
                                         Samples.primary Samples.attachments)).
Proof.
  split; [by_computation|]. split; [by_computation|].
  split; [reflexivity|]. split; [reflexivity|].
  by_computation.
Qed.

(** C6: when the secondary fetch raises, or the join key is absent from
    the primary table or from the secondary table, the merge returns the
    primary table as it received it; the function has no exceptional
    outcome, whatever the fetch does. *)
Theorem merge_attachments_skipped (fetch_form : option string -> result DataFrame)
    (df_main : DataFrame) (cfg : attach_cfg) (fc : form_cfg) :
  from_form cfg = Some fc ->
  is_ok (fetch_form (form_id fc)) = false
  \/ has_column (match_on fc) df_main = false
  \/ (exists df_form, fetch_form (form_id fc) = Ok df_form
                      /\ has_column (match_on fc) df_form = false) ->
  merge_attachments fetch_form df_main cfg = df_main.
Proof.
  intros Hfc Hskip. unfold merge_attachments, merge_attempt. rewrite Hfc.
  destruct (fetch_form (form_id fc)) as [df_form|e] eqn:Ef; [|reflexivity].
  destruct (match_on fc) as [key|] eqn:Ek; [|reflexivity].
  destruct Hskip as [H|[H|(df' & Hdf' & H)]].
  - discriminate.
  - simpl in H. simpl. by rewrite H.
  - injection Hdf' as <-. simpl in H. simpl. rewrite H.
    by rewrite andb_false_r.
Qed.

Lemma merge_attachments_skipped_witness :
  merge_attachments (fun _ => Err IOError) Samples.primary Samples.attachments
  = Samples.primary.
Proof.
  apply (merge_attachments_skipped (fun _ => Err IOError) Samples.primary
           Samples.attachments
           (mkForm (Some "hiring_form") (Some "KEY")));
    [reflexivity | left; reflexivity].
Defined.

End Attachments.

(** ** Choice labels *)

Module Labels.

Lemma split_cons (c : ascii) (s : string) :
  split (String c s)
  = if isspace c then split s
    else match s with
         | EmptyString => [String c EmptyString]
         | String c' _ =>
             if isspace c' then String c EmptyString :: split s
             else match split s with
                  | t :: ts => String c t :: ts
                  | [] => [String c EmptyString]
                  end
         end.
Proof. by destruct s. Qed.

Lemma split_lstrip (s : string) : split (lstrip s) = split s.
Proof.
  induction s as [|c s IH]; [done|].
  rewrite split_cons. cbn [lstrip].
  destruct (isspace c) eqn:Ec; [done|]. by rewrite split_cons, Ec.
Qed.

Lemma rstrip_cons (c : ascii) (s : string) :
  rstrip (String c s)
  = match rstrip s with
    | EmptyString => if isspace c then EmptyString else String c EmptyString
    | r => String c r
    end.
Proof. reflexivity. Qed.

Lemma rstrip_empty (c : ascii) (s : string) :
  rstrip (String c s) = "" -> isspace c = true /\ rstrip s = "".
Proof.
  rewrite rstrip_cons. destruct (rstrip s); [|discriminate].
  by destruct (isspace c).
Qed.

Lemma rstrip_empty_split (s : string) : rstrip s = "" -> split s = [].
Proof.
  induction s as [|c s IH]; [done|].
  intros H. apply rstrip_empty in H as [Hc Hs].
  rewrite split_cons, Hc. by apply IH.
Qed.

Lemma split_rstrip (s : string) : split (rstrip s) = split s.
Proof.
  induction s as [|c s IH]; [done|].
  rewrite rstrip_cons, (split_cons c s).
  destruct (rstrip s) as [|c1 r1] eqn:Er.
  - pose proof (rstrip_empty_split s Er) as Hs.
    destruct (isspace c) eqn:Ec; [by rewrite Hs|].
    rewrite split_cons, Ec.
    destruct s as [|c' s']; [done|].
    apply rstrip_empty in Er as [-> _]. by rewrite Hs.
  - destruct s as [|c' s']; [discriminate|].
    assert (c1 = c') as ->.
    { rewrite rstrip_cons in Er. destruct (rstrip s'); [|congruence].
      destruct (isspace c'); congruence. }
    rewrite split_cons, IH. reflexivity.
Qed.

(** The codes the function works on are the whitespace-separated tokens
    of the value. *)
Lemma codes_are_tokens (s : string) : map strip (split (strip s)) = split s.
Proof.
  unfold strip. rewrite split_rstrip, split_lstrip.
  rewrite <- (map_id (split s)) at 2.
  apply map_ext_in. intros t Ht. apply strip_no_space.
  apply list_elem_of_In in Ht. by apply (split_no_space s).
Qed.

Lemma label_or_code_text (info : label_info) (list_name code : string) :
  (forall l, choices_of info (Some list_name) !! code = Some l ->
             is_str l = true) ->
  label_or_code info list_name code
  = VStr (text_label (choices_of info (Some list_name)) code).
Proof.
  unfold label_or_code, text_label. intros H.
  destruct (choices_of info (Some list_name) !! code) as [l|]; [|done].
  specialize (H l eq_refl). by destruct l.
Qed.

Lemma join_values_text (sep : string) (f : string -> value)
    (g : string -> string) (l : list string) :
  (forall x, x ∈ l -> f x = VStr (g x)) ->
  join_values sep (map f l) = Ok (VStr (join sep (map g l))).
Proof.
  intros H. unfold join_values.
  assert (mapM as_str (map f l) = Ok (map g l)) as ->; [|done].
  induction l as [|x l IH]; [done|].
  simpl. rewrite (H x) by left. simpl.
  rewrite IH; [done|]. intros y Hy. apply H. by right.
Qed.

(** The multi-choice lookup when the labels are texts: for a field
    bound to a choice list, a string value is split on whitespace, each
    code is replaced by its label (the raw code on a miss) and, every
    label reached being a text, the results are joined with " | " in the
    order of the codes, so "b a" with a labelled Apple and b labelled
    Banana gives "Banana | Apple"; a value that is not a string, and the
    empty string, come back unchanged. *)
Lemma get_labels_for_multiple_joins_labels (info : label_info)
    (field list_name : string) :
  select_multiple info !! VStr field = Some list_name ->
  list_name <> "" ->
  (forall s,
      get_labels_for_multiple field (VStr s) info
      = join_values " | " (map (label_or_code info list_name) (split s)))
  /\ (forall code,
        label_or_code info list_name code
        = match choices_of info (Some list_name) !! code with
          | Some label => label
          | None => VStr code
          end)
  /\ (forall s,
        (forall code l, code ∈ split s ->
                        choices_of info (Some list_name) !! code = Some l ->
                        is_str l = true) ->
        get_labels_for_multiple field (VStr s) info
        = Ok (VStr (join " | "
                      (map (text_label (choices_of info (Some list_name)))
                           (split s)))))
  /\ (forall v, is_str v = false -> get_labels_for_multiple field v info = Ok v)
  /\ get_labels_for_multiple field (VStr "") info = Ok (VStr "")
  /\ get_labels_for_multiple "fruits" (VStr "b a") Samples.fruit_info
     = Ok (VStr "Banana | Apple").
Proof.
  intros Hbound Hne.
  assert (forall s,
      get_labels_for_multiple field (VStr s) info
      = join_values " | " (map (label_or_code info list_name) (split s)))
    as Hmain.
  { intros s. unfold get_labels_for_multiple. rewrite Hbound.
    apply String.eqb_neq in Hne. rewrite Hne.
    by rewrite codes_are_tokens. }
  split; [exact Hmain|]. split.
  { intros code. unfold label_or_code.
    by destruct (choices_of info (Some list_name) !! code). }
  split.
  { intros s Hstr. rewrite Hmain. apply join_values_text.
    intros code Hcode. apply label_or_code_text.
    intros l Hl. by apply (Hstr code). }
  split.
  { intros v Hv. unfold get_labels_for_multiple. rewrite Hbound.
    by destruct v. }
  split; [by rewrite Hmain|].
  vm_compute. reflexivity.
Qed.

Lemma get_labels_for_multiple_joins_labels_witness :
  get_labels_for_multiple "fruits" (VStr "b kiwi a") Samples.fruit_info
  = Ok (VStr (join " | "
                (map (text_label (choices_of Samples.fruit_info (Some "fruit")))
                     (split "b kiwi a")))).
Proof.
  apply (get_labels_for_multiple_joins_labels Samples.fruit_info
           "fruits" "fruit");
    [by_computation | by_computation |].
  intros code l Hcode.
  apply list_elem_of_In in Hcode. simpl in Hcode.
  destruct Hcode as [<-|[<-|[<-|[]]]]; vm_compute; intros [= <-]; reflexivity.
Defined.

(** C7 (the code departs from the claim): a choice list whose labels
    are numbers.  The choices sheet of the sample form labels the codes
    1 and 2 with the years 2023 and 2024, and [apply_scto_cleaning]
    stores the labels as the numbers they are.  Each code of the value
    "1 2" is mapped to its label, but joining the labels raises
    TypeError instead of giving "2023 | 2024", and so does the single
    code "1"; the single-choice lookup returns the same label without
    failing. *)
Theorem get_labels_for_multiple_numeric_labels_raise :
  apply_scto_cleaning Samples.cohort_workbook
    (mkDF ["cohorts"] [[VStr "1 2"]]) None "survey" "choices"
  = Ok (mkDF ["cohorts"] [[VStr "1 2"]], Samples.cohort_info)
  /\ select_multiple Samples.cohort_info !! VStr "cohorts" = Some "cohort"
  /\ map (label_or_code Samples.cohort_info "cohort") (split "1 2")
     = [VInt 2023; VInt 2024]
  /\ get_labels_for_multiple "cohorts" (VStr "1 2") Samples.cohort_info
     = Err TypeError
  /\ get_labels_for_multiple "cohorts" (VStr "1") Samples.cohort_info
     = Err TypeError
  /\ get_label "first_cohort" (VInt 1) Samples.cohort_info = VInt 2023.
Proof.
  repeat split; vm_compute; reflexivity.
Qed.

(** C8 (as stated, refuted): in the list of the field [children] the
    code 0 is labelled "1" and "1" is itself a code, labelled "2";
    resolving 0 twice gives "2", resolving it once gives "1". *)
Lemma get_label_not_idempotent :
  is_Some (choices_of Samples.fruit_info (Some "nchild") !! strip (str (VInt 0)))
  /\ get_label "children" (VInt 0) Samples.fruit_info = VStr "1"
  /\ get_label "children"
       (get_label "children" (VInt 0) Samples.fruit_info) Samples.fruit_info
     = VStr "2"
  /\ get_label "children"
       (get_label "children" (VInt 0) Samples.fruit_info) Samples.fruit_info
     <> get_label "children" (VInt 0) Samples.fruit_info.
Proof.
  split; [vm_compute; eauto|].
  repeat split; try (vm_compute; reflexivity).
  vm_compute. discriminate.
Qed.

(** C8 (amended): for a code present in the field's choice list,
    resolving twice equals resolving once exactly when the label of the
    code is not itself a code of the list carrying another label. *)
Theorem get_label_idempotent_iff (info : label_info) (field list_name : string)
    (choices : gmap string value) (v label : value) :
  select_one info !! VStr field = Some list_name ->
  label_map info !! VStr list_name = Some choices ->
  choices !! strip (str v) = Some label ->
  get_label field v info = label
  /\ (get_label field (get_label field v info) info = get_label field v info
      <-> forall label', choices !! strip (str label) = Some label' ->
                         label' = label).
Proof.
  intros Hone Hmap Hcode.
  assert (forall x, get_label field x info
                    = default x (choices !! strip (str x))) as Hget.
  { intros x. unfold get_label, choices_of. rewrite Hone, Hmap. reflexivity. }
  assert (get_label field v info = label) as Hv
    by (by rewrite Hget, Hcode).
  split; [exact Hv|]. rewrite Hv, Hget.
  destruct (choices !! strip (str label)) as [l'|]; simpl.
  - split; [intros -> l'' [= <-]; reflexivity | intros H; by apply H].
  - split; [intros _ l'; discriminate | reflexivity].
Qed.

Lemma get_label_idempotent_iff_witness :
  get_label "children" (VStr "1") Samples.fruit_info = VStr "2"
  /\ (get_label "children"
        (get_label "children" (VStr "1") Samples.fruit_info) Samples.fruit_info
      = get_label "children" (VStr "1") Samples.fruit_info
      <-> forall label',
            ({[ "0" := VStr "1"; "1" := VStr "2"; "2" := VStr "3+" ]}
               : gmap string value) !! strip (str (VStr "2")) = Some label' ->
            label' = VStr "2").
Proof.
  apply (get_label_idempotent_iff Samples.fruit_info "children" "nchild");
    vm_compute; reflexivity.
Defined.

End Labels.

(** ** Label-metadata extraction *)

Module Cleaning.

Lemma getitem_ok (c : string) (df : DataFrame) :
  c ∈ columns df -> exists col, getitem c df = Ok col.
Proof.
  intros Hc. unfold getitem.
  destruct (index_of_elem c (columns df) Hc) as [i ->]. eauto.
Qed.

Lemma build_label_map_ok (choices_def : DataFrame) :
  "list_name" ∈ columns choices_def ->
  "value" ∈ columns choices_def ->
  "label" ∈ columns choices_def ->
  exists lm, build_label_map choices_def = Ok lm.
Proof.
  intros H1 H2 H3. unfold build_label_map.
  destruct (getitem_ok _ _ H1) as [names ->].
  destruct (getitem_ok _ _ H2) as [codes ->].
  destruct (getitem_ok _ _ H3) as [labels ->].
  simpl. eauto.
Qed.

(** C10: whatever the table and the form-definition file, a result of
    [apply_scto_cleaning] has the input table as its first component;
    a result exists whenever both sheets can be read and the choices
    sheet has its three columns, and only the label metadata is built
    then.  In [load_processed_dataset] the table is therefore the same
    after the stage as before it, also when the extraction fails. *)
Theorem apply_scto_cleaning_keeps_table
    (read_excel : option string -> string -> result DataFrame)
    (df : DataFrame) (file : option string)
    (survey_sheet choices_sheet : string) :
  (forall df' info,
      apply_scto_cleaning read_excel df file survey_sheet choices_sheet
      = Ok (df', info) -> df' = df)
  /\ (forall survey_def choices_def,
        read_excel file survey_sheet = Ok survey_def ->
        read_excel file choices_sheet = Ok choices_def ->
        "list_name" ∈ columns choices_def ->
        "value" ∈ columns choices_def ->
        "label" ∈ columns choices_def ->
        exists lm,
          build_label_map choices_def = Ok lm
          /\ apply_scto_cleaning read_excel df file survey_sheet choices_sheet
             = Ok (df,
                   mkInfo
                     (fst (fold_left classify (iterrows survey_def) (∅, ∅)))
                     (snd (fold_left classify (iterrows survey_def) (∅, ∅)))
                     lm))
  /\ (forall enabled,
        fst (label_stage read_excel enabled df file survey_sheet choices_sheet)
        = df).
Proof.
  assert (forall df' info,
      apply_scto_cleaning read_excel df file survey_sheet choices_sheet
      = Ok (df', info) -> df' = df) as Hsame.
  { intros df' info. unfold apply_scto_cleaning.
    destruct (read_excel file survey_sheet) as [survey_def|]; simpl;
      [|discriminate].
    destruct (read_excel file choices_sheet) as [choices_def|]; simpl;
      [|discriminate].
    destruct (build_label_map choices_def) as [lm|]; simpl; [|discriminate].
    by intros [= <- _]. }
  split; [exact Hsame|]. split.
  - intros survey_def choices_def Hs Hc H1 H2 H3.
    destruct (build_label_map_ok choices_def H1 H2 H3) as [lm Hlm].
    exists lm. split; [exact Hlm|].
    unfold apply_scto_cleaning. rewrite Hs, Hc. simpl. by rewrite Hlm.
  - intros enabled. unfold label_stage.
    destruct enabled; [|reflexivity].
    destruct (apply_scto_cleaning read_excel df file survey_sheet choices_sheet)
      as [[df' info]|] eqn:E; [|reflexivity].
    simpl. by apply (Hsame df' info).
Qed.

Lemma apply_scto_cleaning_keeps_table_witness :
  exists lm,
    build_label_map Samples.choices_sheet = Ok lm
    /\ apply_scto_cleaning Samples.workbook Samples.primary None
         "survey" "choices"
       = Ok (Samples.primary,
             mkInfo
               (fst (fold_left classify (iterrows Samples.survey_sheet) (∅, ∅)))
               (snd (fold_left classify (iterrows Samples.survey_sheet) (∅, ∅)))
               lm).
Proof.
  apply (apply_scto_cleaning_keeps_table Samples.workbook Samples.primary None
           "survey" "choices");
    first [reflexivity | by_computation].
Defined.

(** The sample workbook yields the sample metadata, with the codes 0, 1
    and "2.0" normalized to "0", "1" and "2". *)
Example sample_label_info :
  apply_scto_cleaning Samples.workbook Samples.primary None "survey" "choices"
  = Ok (Samples.primary, Samples.fruit_info).
Proof. vm_compute. reflexivity. Qed.

End Cleaning.

(** * Further properties of the sources *)

(** ** The exploded records and table *)

Module ExplodedRecords.

Lemma mapM_inv {A B} (f : A -> result B) (l : list A) (ys : list B) :
  mapM f l = Ok ys -> Forall2 (fun x y => f x = Ok y) l ys.
Proof.
  revert ys; induction l as [|x l IH]; intros ys; simpl.
  - intros [= <-]. constructor.
  - destruct (f x) as [y|] eqn:Ey; simpl; [|discriminate].
    destruct (mapM f l) as [ys'|]; simpl; [|discriminate].
    intros [= <-]. constructor; [done|]. by apply IH.
Qed.

Lemma elem_of_concat {A} (x : A) (ls : list (list A)) :
  x ∈ concat ls -> exists l, x ∈ l /\ l ∈ ls.
Proof.
  induction ls as [|l ls IH]; simpl; intros H.
  - by apply elem_of_nil in H.
  - apply elem_of_app in H as [H|H].
    + exists l. split; [done | left].
    + destruct (IH H) as (l' & ? & ?). exists l'. split; [done | by right].
Qed.

Lemma explode_role_inv (row : Series) (role : string) (recs : list dict)
    (rec : dict) :
  role ∈ roles_of row -> explode_role row role = Ok recs -> rec ∈ recs ->
  exists suffix r,
    suffix_of role = Some suffix /\ role_value row role = Ok r
    /\ rec = build_row row suffix r.
Proof.
  intros Hrole. rewrite explode_role_cases, (strip_role row role Hrole).
  destruct (suffix_of role) as [suffix|]; [|intros [= <-] H; by apply elem_of_nil in H].
  destruct (role_value row role) as [r|]; [|discriminate].
  intros [= <-] H. apply list_elem_of_singleton in H as ->. eauto.
Qed.

(** Every record the loop appends for a row was built for one of the
    row's recognized tokens. *)
Lemma explode_row_inv (row : Series) (recs : list dict) (rec : dict) :
  explode_row row = Ok recs -> rec ∈ recs ->
  exists role suffix r,
    role ∈ roles_of row /\ suffix_of role = Some suffix
    /\ role_value row role = Ok r /\ rec = build_row row suffix r.
Proof.
  unfold explode_row. intros H Hrec.
  apply bind_ok in H as (per & Hper & [= <-]).
  apply mapM_inv in Hper.
  apply elem_of_concat in Hrec as (recs' & Hin & Hrecs').
  assert (forall l per', Forall2 (fun x y => explode_role row x = Ok y) l per' ->
            (forall x, x ∈ l -> x ∈ roles_of row) -> recs' ∈ per' ->
            exists role, role ∈ roles_of row /\ explode_role row role = Ok recs')
    as Hgen.
  { clear. induction 1 as [|x y l per' Hxy _ IH]; intros Hsub Hy.
    - by apply elem_of_nil in Hy.
    - apply elem_of_cons in Hy as [->|Hy].
      + exists x. split; [apply Hsub; left | done].
      + apply IH; [|done]. intros z Hz. apply Hsub. by right. }
  destruct (Hgen _ _ Hper (fun x H => H) Hrecs') as (role & Hrole & Hex).
  destruct (explode_role_inv row role recs' rec Hrole Hex Hin)
    as (suffix & r & ? & ? & ?).
  exists role, suffix, r. eauto.
Qed.

(** X1: the lookup table of an emitted record.  Under [hire_role] it
    holds the role value; under a configured prefix the source cell at
    prefix+suffix, when present and not missing; under any other base
    column the source cell, verbatim; and it has no other key, so no
    suffixed column name ever reaches the exploded table. *)
Theorem emitted_record_lookup (row : Series) (recs : list dict) (rec : dict) :
  explode_row row = Ok recs -> rec ∈ recs ->
  exists role suffix r,
    role ∈ roles_of row /\ suffix_of role = Some suffix
    /\ role_value row role = Ok r
    /\ forall k,
         dict_get k rec
         = if String.eqb k "hire_role" then Some r
           else if bool_decide (k ∈ column_prefixes) then selected row suffix k
           else if bool_decide (k ∈ base_columns) then lookup_label k row
           else None.
Proof.
  intros Hrow Hrec.
  destruct (explode_row_inv row recs rec Hrow Hrec)
    as (role & suffix & r & Hrole & Hsfx & Hr & ->).
  exists role, suffix, r. repeat split; try done.
  intros k. destruct (String.eqb k "hire_role") eqn:Ek.
  - apply String.eqb_eq in Ek as ->. apply build_row_role.
  - apply String.eqb_neq in Ek.
    case_bool_decide as Hp; [by apply build_row_prefix|].
    unfold build_row. rewrite fold_copy_prefix_get.
    rewrite (bool_decide_eq_false_2 _ Hp).
    rewrite dict_get_set_ne by done. apply copy_base_get.
Qed.

Lemma emitted_record_lookup_witness :
  exists role suffix r,
    role ∈ roles_of [("KEY", VStr "uuid:1"); ("hire_role", VStr "FC");
                     ("number_role_fc", VInt 2); ("number_role_ra", VInt 5)]
    /\ suffix_of role = Some suffix
    /\ role_value [("KEY", VStr "uuid:1"); ("hire_role", VStr "FC");
                   ("number_role_fc", VInt 2); ("number_role_ra", VInt 5)]
                  role = Ok r
    /\ forall k,
         dict_get k [("hire_role", VStr "FC"); ("KEY", VStr "uuid:1");
                     ("number_role", VInt 2)]
         = if String.eqb k "hire_role" then Some r
           else if bool_decide (k ∈ column_prefixes)
                then selected [("KEY", VStr "uuid:1"); ("hire_role", VStr "FC");
                               ("number_role_fc", VInt 2);
                               ("number_role_ra", VInt 5)] suffix k
           else if bool_decide (k ∈ base_columns)
                then lookup_label k [("KEY", VStr "uuid:1");
                                     ("hire_role", VStr "FC");
                                     ("number_role_fc", VInt 2);
                                     ("number_role_ra", VInt 5)]
           else None.
Proof.
  apply (emitted_record_lookup
           [("KEY", VStr "uuid:1"); ("hire_role", VStr "FC");
            ("number_role_fc", VInt 2); ("number_role_ra", VInt 5)]
           [[("hire_role", VStr "FC"); ("KEY", VStr "uuid:1");
             ("number_role", VInt 2)]]);
    [reflexivity | left].
Defined.

Lemma mapM_lengths {A B} (f : A -> result (list B)) (g : A -> nat)
    (l : list A) :
  (forall x, x ∈ l -> exists ys, f x = Ok ys /\ length ys = g x) ->
  exists per, mapM f l = Ok per
              /\ length (concat per) = sum_list (map g l).
Proof.
  induction l as [|x l IH]; intros H; simpl; [by exists []|].
  destruct (H x) as (ys & -> & Hlen); [left|].
  destruct IH as (per & -> & Hper).
  { intros z Hz. apply H. by right. }
  simpl. eexists. split; [reflexivity|].
  simpl. rewrite length_app. lia.
Qed.

(** X2: when every row that lists Other has a string override, the
    explosion succeeds and the exploded table has one row per recognized
    token of the source table: the sum, over the source rows, of their
    numbers of recognized tokens.  Rows without a recognized token
    contribute nothing. *)
Theorem explode_row_count (df : DataFrame) :
  (forall row, row ∈ iterrows df -> "Other" ∈ roles_of row ->
     is_str (series_get "hire_role_other" (VStr "") row) = true) ->
  exists t,
    explode df = Ok t
    /\ length (rows t)
       = sum_list (map (fun row => length (recognized_roles row)) (iterrows df)).
Proof.
  intros Hstr. unfold explode, long_rows.
  destruct (mapM_lengths explode_row
              (fun row => length (recognized_roles row)) (iterrows df))
    as (per & -> & Hlen).
  { intros row Hrow.
    destruct (Explosion.explode_row_records row (Hstr row Hrow))
      as (recs & Hrecs & Hl & _).
    eauto. }
  simpl. eexists. split; [reflexivity|]. by rewrite rows_of_records.
Qed.

Lemma explode_row_count_witness :
  exists t,
    explode (mkDF ["hire_role"; "hire_role_other"]
                  [[VStr "RA FC"; VNaN]; [VStr "intern"; VNaN];
                   [VStr "Other"; VStr "Driver"]]) = Ok t
    /\ length (rows t)
       = sum_list (map (fun row => length (recognized_roles row))
                       (iterrows (mkDF ["hire_role"; "hire_role_other"]
                                       [[VStr "RA FC"; VNaN];
                                        [VStr "intern"; VNaN];
                                        [VStr "Other"; VStr "Driver"]]))).
Proof.
  apply (explode_row_count
           (mkDF ["hire_role"; "hire_role_other"]
                 [[VStr "RA FC"; VNaN]; [VStr "intern"; VNaN];
                  [VStr "Other"; VStr "Driver"]])).
  intros row Hrow Hother.
  apply list_elem_of_In in Hrow. simpl in Hrow.
  destruct Hrow as [<-|[<-|[<-|[]]]]; try reflexivity;
    exfalso; revert Hother; by_computation.
Defined.

End ExplodedRecords.

Module ExplodedTable.






Lemma concat_nils {A B} (l : list A) :
  concat (map (fun _ : A => @nil B) l) = [].
Proof. induction l; simpl; auto. Qed.

(** X4: when no row of the source table lists a recognized role (an
    empty table included) the explosion yields a table without columns,
    the country step finds no [hire_position_location] column and the
    script stops with KeyError; [run_specific_scripts] then keeps the
    unexploded table. *)
Theorem process_without_roles_fails (countries : list string)
    (tail_steps : DataFrame -> result DataFrame) (df : DataFrame) :
  (forall row, row ∈ iterrows df -> recognized_roles row = []) ->
  explode df = Ok (mkDF [] [])
  /\ process countries tail_steps df = Err KeyError
  /\ run_script df (process countries tail_steps) = df.
Proof.
  intros Hnone.
  assert (explode df = Ok (mkDF [] [])) as Hex.
  { unfold explode, long_rows.
    rewrite (mapM_ok_map explode_row (fun _ => [])).
    - simpl. by rewrite concat_nils.
    - intros row Hrow.
      destruct (Explosion.explode_row_records row)
        as (recs & -> & Hlen & _).
      + intros Hother. exfalso.
        assert ("Other" ∈ recognized_roles row) as Hin.
        { unfold recognized_roles.
          apply list_elem_of_In, filter_In. split; [by apply list_elem_of_In|].
          reflexivity. }
        rewrite (Hnone row Hrow) in Hin. by apply elem_of_nil in Hin.
      + rewrite (Hnone row Hrow) in Hlen. by destruct recs. }
  assert (process countries tail_steps df = Err KeyError) as Hp
    by (unfold process; by rewrite Hex).
  repeat split; try done.
  unfold run_script. by rewrite Hp.
Qed.

Lemma process_without_roles_fails_witness :
  explode (mkDF ["KEY"; "hire_role"]
                [[VStr "uuid:1"; VStr "Intern"]; [VStr "uuid:2"; VNaN]])
  = Ok (mkDF [] [])
  /\ process ["Kenya"] Ok
       (mkDF ["KEY"; "hire_role"]
             [[VStr "uuid:1"; VStr "Intern"]; [VStr "uuid:2"; VNaN]])
     = Err KeyError
  /\ run_script
       (mkDF ["KEY"; "hire_role"]
             [[VStr "uuid:1"; VStr "Intern"]; [VStr "uuid:2"; VNaN]])
       (process ["Kenya"] Ok)
     = mkDF ["KEY"; "hire_role"]
            [[VStr "uuid:1"; VStr "Intern"]; [VStr "uuid:2"; VNaN]].
Proof.
  apply (process_without_roles_fails ["Kenya"] Ok
           (mkDF ["KEY"; "hire_role"]
                 [[VStr "uuid:1"; VStr "Intern"]; [VStr "uuid:2"; VNaN]])).
  intros row Hrow. apply list_elem_of_In in Hrow. simpl in Hrow.
  destruct Hrow as [<-|[<-|[]]]; reflexivity.
Defined.

End ExplodedTable.

Module CountriesMore.

Lemma insert_by_len_perm (x : string) (l : list string) :
  insert_by_len x l ≡ₚ x :: l.
Proof.
  induction l as [|y l IH]; simpl; [done|].
  destruct (Nat.leb _ _); [done|].
  rewrite IH. apply Permutation_swap.
Qed.

Lemma sorted_by_len_perm (l : list string) : sorted_by_len l ≡ₚ l.
Proof.
  induction l as [|x l IH]; simpl; [done|].
  by rewrite insert_by_len_perm, IH.
Qed.

(** X5: the names selected for a text are listed by decreasing length,
    and none is listed twice when the catalog (with the sentinel Global)
    names no country twice. *)
Theorem matched_names_sorted_nodup (countries : list string) (text : value) :
  StronglySorted longer_first (matched_names countries text)
  /\ (NoDup (catalog countries) -> NoDup (matched_names countries text)).
Proof.
  split.
  - apply Countries.filter_sorted, Countries.sorted_by_len_sorted.
  - intros Hnd. unfold matched_names.
    apply NoDup_ListNoDup, List.NoDup_filter, NoDup_ListNoDup.
    by rewrite sorted_by_len_perm.
Qed.

Lemma matched_names_sorted_nodup_witness :
  NoDup (matched_names ["Niger"; "Nigeria"; "Kenya"] (VStr "Kenya; Nigeria")).
Proof.
  apply (matched_names_sorted_nodup ["Niger"; "Nigeria"; "Kenya"]
           (VStr "Kenya; Nigeria")).
  by_computation.
Defined.

Local Arguments String.append !_ _ / : simpl nomatch.

Lemma append_empty_r (s : string) : s +:+ "" = s.
Proof. induction s as [|c s IH]; simpl; [done|]. by rewrite IH. Qed.

Lemma contains_join (sep x : string) (l : list string) :
  x ∈ l -> contains x (join sep l) = true.
Proof.
  intros Hx. apply Countries.contains_append.
  induction l as [|y l IH]; [by apply elem_of_nil in Hx|].
  destruct l as [|z l].
  - apply list_elem_of_singleton in Hx as ->.
    exists "", "". simpl. by rewrite append_empty_r.
  - apply elem_of_cons in Hx as [->|Hx].
    + exists "", (sep +:+ join sep (z :: l)). reflexivity.
    + destruct (IH Hx) as (p & q & Hpq).
      exists (y +:+ sep +:+ p), q.
      change (join sep (y :: z :: l)) with (y +:+ sep +:+ join sep (z :: l)).
      rewrite Hpq. by rewrite !Countries.append_assoc.
Qed.

(** X6: normalizing an already normalized value loses no country: every
    name selected for a text is selected again for the comma-joined
    output. *)
Theorem renormalizing_keeps_names (countries : list string) (text : value)
    (name : string) :
  name ∈ matched_names countries text ->
  name ∈ matched_names countries (VStr (normalize_location countries text)).
Proof.
  intros H. apply Countries.matched_names_elem. split.
  - by apply Countries.matched_names_elem in H as [? _].
  - simpl. unfold normalize_location. by apply contains_join.
Qed.

Lemma renormalizing_keeps_names_witness :
  "Niger" ∈ matched_names ["Niger"; "Nigeria"]
              (VStr (normalize_location ["Niger"; "Nigeria"]
                       (VStr "Abuja (Nigeria)"))).
Proof.
  apply (renormalizing_keeps_names ["Niger"; "Nigeria"]
           (VStr "Abuja (Nigeria)") "Niger").
  by_computation.
Defined.

End CountriesMore.

(** ** Columns overwritten in place *)

Module ColumnUpdates.

Lemma index_of_lt (c : string) (cols : list string) (i : nat) :
  index_of c cols = Some i -> i < length cols.
Proof.
  revert i; induction cols as [|k cols IH]; intros i; simpl; [discriminate|].
  destruct (String.eqb c k); [intros [= <-]; lia|].
  destruct (index_of c cols) as [j|]; simpl; [|discriminate].
  intros [= <-]. specialize (IH j eq_refl). lia.
Qed.

Lemma index_of_Some_elem (c : string) (cols : list string) (i : nat) :
  index_of c cols = Some i -> c ∈ cols.
Proof.
  revert i; induction cols as [|k cols IH]; intros i; simpl; [discriminate|].
  destruct (String.eqb c k) eqn:E.
  - apply String.eqb_eq in E as ->. intros _. left.
  - destruct (index_of c cols) as [j|]; simpl; [|discriminate].
    intros _. right. by apply (IH j).
Qed.

Lemma nth_set_nth_eq (i : nat) (v d : value) (r : list value) :
  i < length r -> nth i (set_nth i v r) d = v.
Proof.
  revert i; induction r as [|x r IH]; intros i Hi; simpl in *; [lia|].
  destruct i as [|i]; simpl; [done|]. apply IH. lia.
Qed.

Lemma set_nth_twice (i : nat) (v w : value) (r : list value) :
  set_nth i v (set_nth i w r) = set_nth i v r.
Proof.
  revert i; induction r as [|x r IH]; intros i; simpl.
  - by destruct i.
  - destruct i as [|i]; simpl; [done|]. by rewrite IH.
Qed.

Lemma set_nth_length (i : nat) (v : value) (r : list value) :
  length (set_nth i v r) = length r.
Proof.
  revert i; induction r as [|x r IH]; intros i; simpl.
  - by destruct i.
  - destruct i as [|i]; simpl; [done|]. by rewrite IH.
Qed.

Lemma overwrite_read (i : nat) (rs : list (list value)) (vals : list value) :
  length vals = length rs -> Forall (fun r => i < length r) rs ->
  map (fun r => nth i r VNaN) (overwrite i rs vals) = vals.
Proof.
  unfold overwrite. revert vals; induction rs as [|r rs IH]; intros vals Hlen Hwf.
  - by destruct vals.
  - destruct vals as [|v vals]; [discriminate|]. simpl in *.
    apply Forall_cons in Hwf as [Hr Hrs].
    rewrite nth_set_nth_eq by done. f_equal. apply IH; [lia | done].
Qed.

Lemma overwrite_other (i j : nat) (rs : list (list value)) (vals : list value) :
  length vals = length rs -> i <> j ->
  map (fun r => nth i r VNaN) (overwrite j rs vals)
  = map (fun r => nth i r VNaN) rs.
Proof.
  unfold overwrite. revert vals; induction rs as [|r rs IH]; intros vals Hlen Hne.
  - by destruct vals.
  - destruct vals as [|v vals]; [discriminate|]. simpl in *.
    rewrite Coercion.nth_set_nth_ne by done. f_equal. apply IH; [lia | done].
Qed.

Lemma overwrite_twice (i : nat) (rs : list (list value)) (vals : list value) :
  length vals = length rs ->
  overwrite i (overwrite i rs vals) vals = overwrite i rs vals.
Proof.
  unfold overwrite. revert vals; induction rs as [|r rs IH]; intros vals Hlen.
  - by destruct vals.
  - destruct vals as [|v vals]; [discriminate|]. simpl in *.
    rewrite set_nth_twice. f_equal. apply IH. lia.
Qed.

Lemma overwrite_length (i : nat) (rs : list (list value)) (vals : list value) :
  length vals = length rs -> length (overwrite i rs vals) = length rs.
Proof.
  intros H. unfold overwrite. rewrite length_map, length_combine. lia.
Qed.

Lemma setitem_existing (c : string) (vals : list value) (df : DataFrame)
    (i : nat) :
  index_of c (columns df) = Some i ->
  setitem c vals df = mkDF (columns df) (overwrite i (rows df) vals).
Proof. intros H. unfold setitem. by rewrite H. Qed.

Lemma well_formed_index (df : DataFrame) (c : string) (i : nat) :
  well_formed df -> index_of c (columns df) = Some i ->
  Forall (fun r => i < length r) (rows df).
Proof.
  intros Hwf Hi. apply index_of_lt in Hi.
  eapply Forall_impl; [exact Hwf|]. simpl. intros r ->. done.
Qed.

Lemma to_int_range (v : value) (n : Z) : to_int v = Ok n -> in_int64 n = true.
Proof.
  destruct v as [| |s|m]; simpl; try discriminate.
  - destruct (py_int s) as [k|]; [|discriminate].
    destruct (in_int64 k) eqn:E; [|discriminate]. by intros [= <-].
  - destruct (in_int64 m) eqn:E; [|discriminate]. by intros [= <-].
Qed.

Lemma mapM_to_int_range (col : list value) (ints : list Z) :
  mapM to_int col = Ok ints -> Forall (fun n => in_int64 n = true) ints.
Proof.
  revert ints; induction col as [|v col IH]; intros ints; simpl.
  - by intros [= <-].
  - destruct (to_int v) as [n|] eqn:En; simpl; [|discriminate].
    destruct (mapM to_int col) as [ns|]; simpl; [|discriminate].
    intros [= <-]. apply to_int_range in En. constructor; [done|by apply IH].
Qed.

Lemma wrap_int64_range (n : Z) : in_uint64 n = true -> in_int64 (wrap_int64 n) = true.
Proof.
  unfold in_uint64, in_int64, wrap_int64, uint64_max, int64_min, int64_max.
  change (2 ^ 64)%Z with 18446744073709551616%Z.
  change (2 ^ 63)%Z with 9223372036854775808%Z.
  intros H. apply andb_true_iff in H as [H0 H1].
  apply Z.leb_le in H0, H1.
  destruct (Z.leb_spec n (9223372036854775808 - 1)) as [Hle|Hgt];
    apply andb_true_iff; split; apply Z.leb_le; lia.
Qed.

Lemma all_int_cells (col : list value) :
  forallb is_int col = true -> col = map VInt (map int_of col).
Proof.
  induction col as [|v col IH]; simpl; [done|].
  intros H. apply andb_true_iff in H as [Hv Hcol].
  rewrite <- (IH Hcol). by destruct v.
Qed.

Lemma forallb_Forall_map {A B} (p : B -> bool) (f : A -> B) (l : list A) :
  forallb (fun x => p (f x)) l = true -> Forall (fun y => p y = true) (map f l).
Proof.
  induction l as [|x l IH]; simpl; [constructor|].
  intros H. apply andb_true_iff in H as [Hx Hl]. constructor; auto.
Qed.

(** A column of 64-bit signed integers is an [int64] column, which the
    coercion leaves as it is. *)
Lemma astype_int_cells_int64 (ints : list Z) :
  Forall (fun n => in_int64 n = true) ints ->
  astype_int_cells (map VInt ints) = Ok (map VInt ints).
Proof.
  intros Hall. unfold astype_int_cells, column_dtype.
  assert (forallb is_int (map VInt ints) = true) as ->.
  { apply forallb_forall. intros v Hv. apply in_map_iff in Hv as (n & <- & _).
    done. }
  assert (forallb (fun v => in_int64 (int_of v)) (map VInt ints) = true) as ->;
    [|done].
  apply forallb_forall. intros v Hv. apply in_map_iff in Hv as (n & <- & Hn).
  simpl. rewrite Forall_forall in Hall. by apply Hall, list_elem_of_In.
Qed.

(** What a successful coercion of the cells of a column gives. *)
Lemma astype_int_cells_ok (col cells : list value) :
  astype_int_cells col = Ok cells ->
  length cells = length col
  /\ exists ints, cells = map VInt ints
                  /\ Forall (fun n => in_int64 n = true) ints.
Proof.
  unfold astype_int_cells, column_dtype.
  destruct (forallb is_int col) eqn:Eint.
  - destruct (forallb (fun v => in_int64 (int_of v)) col) eqn:E64.
    + intros [= <-]. split; [done|]. exists (map int_of col).
      split; [by apply all_int_cells|].
      by apply (forallb_Forall_map in_int64 int_of).
    + destruct (forallb (fun v => in_uint64 (int_of v)) col) eqn:Eu64.
      * intros [= <-]. split; [by rewrite length_map|].
        exists (map (fun v => wrap_int64 (int_of v)) col).
        split; [by rewrite map_map|].
        apply (forallb_Forall_map in_int64 (fun v => wrap_int64 (int_of v))).
        apply forallb_forall. intros v Hv.
        rewrite forallb_forall in Eu64. by apply wrap_int64_range, Eu64.
      * destruct (mapM to_int col) as [ints|] eqn:Em; simpl; [|discriminate].
        intros [= <-]. split.
        { by rewrite length_map, (mapM_length _ _ _ Em). }
        exists ints. split; [done|]. by apply (mapM_to_int_range col).
  - match goal with
    | |- context [if ?b then Float64 else Object] =>
        destruct b; simpl; [discriminate|]
    end.
    destruct (mapM to_int col) as [ints|] eqn:Em; simpl; [|discriminate].
    intros [= <-]. split.
    { by rewrite length_map, (mapM_length _ _ _ Em). }
    exists ints. split; [done|]. by apply (mapM_to_int_range col).
Qed.

(** X7: when the integer coercion of a column succeeds on a well formed
    table, the table keeps its columns and its number of rows, the
    coerced column holds only integers within the 64-bit range, every
    other column is unchanged, and coercing once more changes nothing. *)
Theorem coercion_yields_integers (c : string) (df df' : DataFrame) :
  well_formed df -> astype_int c df = Ok df' ->
  columns df' = columns df
  /\ length (rows df') = length (rows df)
  /\ (exists ints,
        getitem c df' = Ok (map VInt ints)
        /\ Forall (fun n => in_int64 n = true) ints)
  /\ (forall c', c' <> c -> getitem c' df' = getitem c' df)
  /\ astype_int c df' = Ok df'.
Proof.
  intros Hwf. unfold astype_int at 1, getitem at 1.
  destruct (index_of c (columns df)) as [i|] eqn:Ei; simpl; [|discriminate].
  destruct (astype_int_cells (map (fun r => nth i r VNaN) (rows df)))
    as [cells|] eqn:Ecells; simpl; [|discriminate].
  intros [= <-].
  destruct (astype_int_cells_ok _ _ Ecells) as (Hlen & ints & -> & Hrange).
  rewrite (length_map (fun r => nth i r VNaN)) in Hlen.
  pose proof (astype_int_cells_int64 ints Hrange) as Hagain.
  rewrite (setitem_existing c _ df i Ei).
  assert (getitem c (mkDF (columns df) (overwrite i (rows df) (map VInt ints)))
          = Ok (map VInt ints)) as Hget.
  { unfold getitem. simpl. rewrite Ei. f_equal.
    apply overwrite_read; [done|]. by apply (well_formed_index df c). }
  split; [done|]. split; [by apply overwrite_length|].
  split; [eauto|]. split.
  - intros c' Hne. unfold getitem. simpl.
    destruct (index_of c' (columns df)) as [j|] eqn:Ej; [|done].
    f_equal. apply overwrite_other; [done|].
    intros ->. apply Hne. by apply (Coercion.index_of_inj _ _ _ _ Ej Ei).
  - unfold astype_int. rewrite Hget. simpl. rewrite Hagain. simpl.
    unfold setitem. simpl. rewrite Ei. f_equal. f_equal.
    by apply overwrite_twice.
Qed.

Lemma coercion_yields_integers_witness :
  columns (mkDF ["KEY"; "number_role"]
                [[VStr "uuid:1"; VInt 2]; [VStr "uuid:2"; VInt 10]])
  = columns (mkDF ["KEY"; "number_role"]
                  [[VStr "uuid:1"; VStr " 2 "]; [VStr "uuid:2"; VInt 10]])
  /\ length (rows (mkDF ["KEY"; "number_role"]
                        [[VStr "uuid:1"; VInt 2]; [VStr "uuid:2"; VInt 10]]))
     = length (rows (mkDF ["KEY"; "number_role"]
                          [[VStr "uuid:1"; VStr " 2 "];
                           [VStr "uuid:2"; VInt 10]]))
  /\ (exists ints,
        getitem "number_role"
          (mkDF ["KEY"; "number_role"]
                [[VStr "uuid:1"; VInt 2]; [VStr "uuid:2"; VInt 10]])
        = Ok (map VInt ints)
        /\ Forall (fun n => in_int64 n = true) ints)
  /\ (forall c', c' <> "number_role" ->
        getitem c' (mkDF ["KEY"; "number_role"]
                         [[VStr "uuid:1"; VInt 2]; [VStr "uuid:2"; VInt 10]])
        = getitem c' (mkDF ["KEY"; "number_role"]
                           [[VStr "uuid:1"; VStr " 2 "];
                            [VStr "uuid:2"; VInt 10]]))
  /\ astype_int "number_role"
       (mkDF ["KEY"; "number_role"]
             [[VStr "uuid:1"; VInt 2]; [VStr "uuid:2"; VInt 10]])
     = Ok (mkDF ["KEY"; "number_role"]
                [[VStr "uuid:1"; VInt 2]; [VStr "uuid:2"; VInt 10]]).
Proof.
  apply (coercion_yields_integers "number_role"
           (mkDF ["KEY"; "number_role"]
                 [[VStr "uuid:1"; VStr " 2 "]; [VStr "uuid:2"; VInt 10]])).
  - repeat constructor.
  - reflexivity.
Defined.

(** X8: on a well formed table that has the columns [pi_add] and
    [pi_name], the last step of the script succeeds; afterwards
    [pi_name] is the empty text in exactly the rows whose [pi_add] is the
    text "No" and is unchanged in the other rows, and no other column is
    touched. *)
Theorem hide_pi_name_blanks_declined (df : DataFrame)
    (adds names : list value) :
  well_formed df ->
  getitem "pi_add" df = Ok adds ->
  getitem "pi_name" df = Ok names ->
  exists df',
    hide_pi_name df = Ok df'
    /\ columns df' = columns df
    /\ getitem "pi_name" df'
       = Ok (zip_with (fun add name =>
                         if bool_decide (add = VStr "No") then VStr "" else name)
                      adds names)
    /\ (forall c, c <> "pi_name" -> getitem c df' = getitem c df).
Proof.
  intros Hwf Hadds Hnames. unfold hide_pi_name. rewrite Hadds, Hnames. simpl.
  eexists. split; [reflexivity|].
  unfold getitem in Hadds, Hnames.
  destruct (index_of "pi_add" (columns df)) as [a|] eqn:Ea; [|discriminate].
  destruct (index_of "pi_name" (columns df)) as [i|] eqn:Ei; [|discriminate].
  injection Hadds as <-. injection Hnames as <-.
  rewrite (setitem_existing "pi_name" _ df i Ei).
  set (vals := zip_with _ _ _).
  assert (length vals = length (rows df)) as Hlen.
  { unfold vals. rewrite length_zip_with, !length_map. lia. }
  split; [done|]. split.
  - unfold getitem. simpl. rewrite Ei. f_equal.
    apply overwrite_read; [done|]. by apply (well_formed_index df "pi_name").
  - intros c Hne. unfold getitem. simpl.
    destruct (index_of c (columns df)) as [j|] eqn:Ej; [|done].
    f_equal. apply overwrite_other; [done|].
    intros ->. apply Hne. by apply (Coercion.index_of_inj _ _ _ _ Ej Ei).
Qed.

Lemma hide_pi_name_blanks_declined_witness :
  exists df',
    hide_pi_name (mkDF ["pi_name"; "pi_add"]
                       [[VStr "A. Diallo"; VStr "Yes"];
                        [VStr "B. Khan"; VStr "No"];
                        [VStr "C. Ruiz"; VNaN]]) = Ok df'
    /\ columns df' = ["pi_name"; "pi_add"]
    /\ getitem "pi_name" df'
       = Ok (zip_with (fun add name =>
                         if bool_decide (add = VStr "No") then VStr "" else name)
                      [VStr "Yes"; VStr "No"; VNaN]
                      [VStr "A. Diallo"; VStr "B. Khan"; VStr "C. Ruiz"])
    /\ (forall c, c <> "pi_name" ->
          getitem c df'
          = getitem c (mkDF ["pi_name"; "pi_add"]
                            [[VStr "A. Diallo"; VStr "Yes"];
                             [VStr "B. Khan"; VStr "No"];
                             [VStr "C. Ruiz"; VNaN]])).
Proof.
  apply (hide_pi_name_blanks_declined
           (mkDF ["pi_name"; "pi_add"]
                 [[VStr "A. Diallo"; VStr "Yes"]; [VStr "B. Khan"; VStr "No"];
                  [VStr "C. Ruiz"; VNaN]]));
    [repeat constructor | reflexivity | reflexivity].
Defined.

End ColumnUpdates.

(** ** Rows and key of the attachment merge *)

Module RunnerAndMerge.

Lemma rename_collisions_rows (attachment_fields : list string)
    (df : DataFrame) :
  rows (rename_collisions attachment_fields df) = rows df.
Proof.
  unfold rename_collisions. revert df.
  induction attachment_fields as [|f fs IH]; intros df; simpl; [done|].
  rewrite IH. unfold rename_collision. by case_bool_decide.
Qed.

Lemma flat_map_length_ge {A B} (f : A -> list B) (l : list A) :
  (forall x, f x <> []) -> length l <= length (flat_map f l).
Proof.
  intros Hne. induction l as [|x l IH]; simpl; [lia|].
  rewrite length_app. specialize (Hne x).
  destruct (f x); [done|]. simpl. lia.
Qed.

Lemma merge_rows (left right merged : DataFrame) (key : string) :
  merge left right key = Ok merged ->
  length (rows left) <= length (rows merged).
Proof.
  unfold merge.
  destruct (positions key 0 (columns left)) as [|i [|? ?]];
    destruct (positions key 0 (columns right)) as [|j [|? ?]];
    try discriminate.
  destruct (negb (keys_joinable _ _)); [discriminate|].
  destruct (_ || _); [discriminate|].
  intros [= <-]. simpl. apply flat_map_length_ge.
  intros lr. destruct (filter _ _) as [|m ms]; [done|]. discriminate.
Qed.

(** X10: the attachment merge never loses a record of the primary table:
    on every path (merge skipped, merge failed, merge done) the returned
    table has at least as many rows as the primary table. *)
Theorem merge_attachments_keeps_rows
    (fetch_form : option string -> result DataFrame)
    (df_main : DataFrame) (cfg : attach_cfg) :
  length (rows df_main)
  <= length (rows (merge_attachments fetch_form df_main cfg)).
Proof.
  unfold merge_attachments, merge_attempt.
  destruct (from_form cfg) as [fc|]; [|done].
  destruct (fetch_form (form_id fc)) as [df_form|]; [|done].
  destruct (match_on fc) as [key|]; [|done].
  destruct (_ && _); [|done].
  destruct (select _ df_form) as [kept|]; simpl;
    [|by rewrite rename_collisions_rows].
  destruct (merge _ kept key) as [merged|] eqn:Em; simpl;
    [|by rewrite rename_collisions_rows].
  apply merge_rows in Em. by rewrite rename_collisions_rows in Em.
Qed.

Lemma positions_absent (c : string) (i : nat) (cols : list string) :
  c ∉ cols -> positions c i cols = [].
Proof.
  revert i; induction cols as [|k cols IH]; intros i Hc; simpl; [done|].
  destruct (String.eqb c k) eqn:E.
  - apply String.eqb_eq in E as ->. exfalso. apply Hc. left.
  - apply IH. intros H. apply Hc. by right.
Qed.

Lemma keep_fields_selectable (key : string) (attachment_fields : list string)
    (df_form : DataFrame) :
  key ∈ columns df_form ->
  exists kept,
    select (keep_fields key attachment_fields df_form) df_form = Ok kept.
Proof.
  intros Hkey. unfold select.
  assert (forallb (fun k => bool_decide (k ∈ columns df_form))
                  (keep_fields key attachment_fields df_form) = true) as ->;
    [|eauto].
  unfold keep_fields. simpl. rewrite (bool_decide_eq_true_2 _ Hkey). simpl.
  apply forallb_forall. intros c Hc. by apply filter_In in Hc as [_ ?].
Qed.

(** X11: when the join key is itself listed among the attachment fields
    (and no field is the [_file] name of another), the key column of the
    primary table is renamed away before the join, the join fails and is
    swallowed, and the function returns the primary table with its
    columns renamed and without any attachment column. *)
Theorem merge_attachments_key_among_fields
    (fetch_form : option string -> result DataFrame)
    (df_main df_form : DataFrame) (cfg : attach_cfg) (fc : form_cfg)
    (key : string) :
  from_form cfg = Some fc -> match_on fc = Some key ->
  fetch_form (form_id fc) = Ok df_form ->
  key ∈ columns df_main -> key ∈ columns df_form ->
  key ∈ fields cfg ->
  (forall f, f ∈ fields cfg -> f +:+ "_file" ∉ fields cfg) ->
  merge_attachments fetch_form df_main cfg
  = rename_collisions (fields cfg) df_main
  /\ (key ∉ columns (merge_attachments fetch_form df_main cfg))
  /\ key +:+ "_file" ∈ columns (merge_attachments fetch_form df_main cfg).
Proof.
  intros Hfc Hkey Hfetch Hmain Hform Hfield Hchain.
  assert (columns (rename_collisions (fields cfg) df_main)
          = map (fun c => if bool_decide (c ∈ fields cfg)
                          then c +:+ "_file" else c) (columns df_main))
    as Hcols by (by apply Attachments.rename_collisions_columns).
  assert (key ∉ columns (rename_collisions (fields cfg) df_main)) as Habsent.
  { rewrite Hcols. intros H.
    apply list_elem_of_In, in_map_iff in H as (c & Hc & _).
    case_bool_decide as Hin.
    - apply (Hchain c Hin). by rewrite Hc.
    - by subst c. }
  assert (merge_attachments fetch_form df_main cfg
          = rename_collisions (fields cfg) df_main) as Hres.
  { unfold merge_attachments, merge_attempt.
    rewrite Hfc, Hfetch, Hkey. simpl.
    rewrite (bool_decide_eq_true_2 _ Hmain), (bool_decide_eq_true_2 _ Hform).
    simpl.
    destruct (keep_fields_selectable key (fields cfg) df_form Hform)
      as [kept ->].
    simpl. unfold merge. by rewrite (positions_absent _ _ _ Habsent). }
  rewrite Hres. repeat split; try done.
  rewrite Hcols. apply list_elem_of_In, in_map_iff.
  exists key. split; [|by apply list_elem_of_In].
  by rewrite (bool_decide_eq_true_2 _ Hfield).
Qed.

Lemma merge_attachments_key_among_fields_witness :
  merge_attachments (fun _ => Ok Samples.secondary) Samples.primary
    (mkAttach (Some (mkForm (Some "hiring_form") (Some "KEY"))) ["KEY"; "photo"])
  = rename_collisions ["KEY"; "photo"] Samples.primary
  /\ ("KEY" ∉ columns (merge_attachments (fun _ => Ok Samples.secondary)
                         Samples.primary
                         (mkAttach (Some (mkForm (Some "hiring_form") (Some "KEY")))
                                   ["KEY"; "photo"])))
  /\ "KEY" +:+ "_file"
       ∈ columns (merge_attachments (fun _ => Ok Samples.secondary)
                    Samples.primary
                    (mkAttach (Some (mkForm (Some "hiring_form") (Some "KEY")))
                              ["KEY"; "photo"])).
Proof.
  apply (merge_attachments_key_among_fields (fun _ => Ok Samples.secondary)
           Samples.primary Samples.secondary
           (mkAttach (Some (mkForm (Some "hiring_form") (Some "KEY")))
                     ["KEY"; "photo"])
           (mkForm (Some "hiring_form") (Some "KEY")) "KEY");
    try reflexivity; try by_computation.
  intros f Hf. apply list_elem_of_In in Hf. simpl in Hf.
  destruct Hf as [<-|[<-|[]]]; by_computation.
Defined.

End RunnerAndMerge.

(** ** The attachment merge when the names do not clash *)

Module MergeColumns.

Local Arguments String.append !_ _ / : simpl nomatch.

Lemma length_append (a b : string) :
  String.length (a +:+ b) = String.length a + String.length b.
Proof. induction a as [|c a IH]; simpl; [done|]. by rewrite IH. Qed.

Lemma append_cancel_r (a b s : string) : a +:+ s = b +:+ s -> a = b.
Proof.
  revert b; induction a as [|c a IH]; intros [|c' b] H; simpl in H.
  - done.
  - apply (f_equal String.length) in H. simpl in H.
    rewrite length_append in H. lia.
  - apply (f_equal String.length) in H. simpl in H.
    rewrite length_append in H. lia.
  - injection H as -> H. f_equal. by apply IH.
Qed.

Lemma positions_unique (k : string) (n : nat) (cols : list string) :
  NoDup cols -> k ∈ cols ->
  exists i, positions k n cols = [n + i] /\ nth i cols "" = k.
Proof.
  revert n; induction cols as [|c cols IH]; intros n Hnd Hk.
  - by apply elem_of_nil in Hk.
  - apply NoDup_cons in Hnd as [Hc Hnd]. simpl.
    destruct (String.eqb k c) eqn:E.
    + apply String.eqb_eq in E as ->. exists 0.
      rewrite (RunnerAndMerge.positions_absent _ _ _ Hc).
      split; [f_equal; lia | done].
    + apply String.eqb_neq in E.
      apply elem_of_cons in Hk as [?|Hk]; [done|].
      destruct (IH (S n) Hnd Hk) as (i & -> & Hi).
      exists (S i). split; [f_equal; lia | done].
Qed.

Lemma select_columns (keep : list string) (df : DataFrame) :
  NoDup (columns df) -> (forall k, k ∈ keep -> k ∈ columns df) ->
  exists kept, select keep df = Ok kept /\ columns kept = keep.
Proof.
  intros Hnd Hin. unfold select.
  assert (forallb (fun k => bool_decide (k ∈ columns df)) keep = true) as ->.
  { apply forallb_forall. intros k Hk.
    apply bool_decide_eq_true_2, Hin. by apply list_elem_of_In. }
  eexists. split; [reflexivity|]. simpl.
  induction keep as [|k keep IH]; simpl; [done|].
  rewrite map_app, IH by (intros z Hz; apply Hin; by right).
  destruct (positions_unique k 0 (columns df) Hnd) as (i & -> & Hi);
    [apply Hin; left|].
  simpl. by rewrite Hi.
Qed.

Lemma suffix_dups_same (labels : list string) :
  suffix_dups labels labels = false.
Proof.
  unfold suffix_dups. generalize (duplicated [] labels) as d.
  induction d as [|b d IH]; simpl; [done|].
  rewrite IH. by destruct b.
Qed.

Lemma map_id_on {A} (f : A -> A) (l : list A) :
  (forall x, x ∈ l -> f x = x) -> map f l = l.
Proof.
  intros H. induction l as [|x l IH]; simpl; [done|].
  rewrite (H x) by left. f_equal. apply IH. intros y Hy. apply H. by right.
Qed.

Lemma NoDup_map_on {A B} (f : A -> B) (l : list A) :
  (forall x y, x ∈ l -> y ∈ l -> f x = f y -> x = y) ->
  NoDup l -> NoDup (map f l).
Proof.
  intros Hinj. induction 1 as [|x l Hx Hnd IH]; simpl; [constructor|].
  constructor.
  - intros H. apply list_elem_of_In, in_map_iff in H as (y & Hy & Hin).
    apply list_elem_of_In in Hin.
    assert (y = x) as -> by (apply Hinj; [by right | left | done]). done.
  - apply IH. intros a b Ha Hb. apply Hinj; by right.
Qed.

Lemma positions_head (k : string) (n : nat) (cols : list string) :
  head (positions k n cols) = (fun i => n + i) <$> index_of k cols.
Proof.
  revert n; induction cols as [|c cols IH]; intros n; simpl; [done|].
  destruct (String.eqb k c); simpl; [f_equal; lia|].
  rewrite IH. destruct (index_of k cols); simpl; [f_equal; lia | done].
Qed.

Lemma positions_getitem (key : string) (df : DataFrame) (i : nat)
    (more : list nat) :
  positions key 0 (columns df) = i :: more ->
  getitem key df = Ok (map (fun r => nth i r VNaN) (rows df)).
Proof.
  intros H. pose proof (positions_head key 0 (columns df)) as Hh.
  rewrite H in Hh. unfold getitem.
  destruct (index_of key (columns df)); simpl in Hh; [|discriminate].
  by injection Hh as ->.
Qed.

Lemma index_of_map_on (g : string -> string) (k : string) (cols : list string) :
  g k = k -> (forall c, c ∈ cols -> g c = k -> c = k) ->
  index_of k (map g cols) = index_of k cols.
Proof.
  intros Hk. induction cols as [|c cols IH]; intros Hon; simpl; [done|].
  rewrite IH by (intros c' Hc'; apply Hon; by right).
  destruct (String.eqb k c) eqn:E.
  - apply String.eqb_eq in E as <-. by rewrite Hk, String.eqb_refl.
  - destruct (String.eqb k (g c)) eqn:E'; [|done].
    apply String.eqb_eq in E'. apply String.eqb_neq in E.
    exfalso. apply E. symmetry. apply Hon; [left | done].
Qed.

(** The key cells of [df_form[keep_fields]] are those of [df_form]. *)
Lemma select_key_cells (key : string) (rest : list string)
    (df kept : DataFrame) (rk : list value) :
  select (key :: rest) df = Ok kept -> getitem key df = Ok rk ->
  map (fun r => nth 0 r VNaN) (rows kept) = rk.
Proof.
  unfold select. destruct (forallb _ _); [|discriminate].
  intros [= <-]. simpl. unfold getitem.
  pose proof (positions_head key 0 (columns df)) as Hh.
  destruct (index_of key (columns df)) as [j|]; [|discriminate].
  intros [= <-]. rewrite map_map. apply map_ext. intros r.
  destruct (positions key 0 (columns df)) as [|p ps]; [discriminate|].
  simpl in Hh. by injection Hh as ->.
Qed.

(** X12: the attachment merge has distinct column names under the
    following conditions: the primary and the secondary table have
    distinct column names and the attachment fields are distinct; the
    join key is in both tables and is not an attachment field; the key
    cells of the two tables can be joined (a column of texts is not
    joined with a column of numbers); no field is the [_file] name of
    another; and the primary table does not hold both a field and its
    [_file] companion.  The merged columns are then the primary
    columns, with every colliding field renamed to [<field>_file],
    followed by the attachment fields the secondary table has. *)
Theorem merge_attachments_distinct_columns
    (fetch_form : option string -> result DataFrame)
    (df_main df_form : DataFrame) (cfg : attach_cfg) (fc : form_cfg)
    (key : string) :
  from_form cfg = Some fc -> match_on fc = Some key ->
  fetch_form (form_id fc) = Ok df_form ->
  NoDup (columns df_main) -> NoDup (columns df_form) -> NoDup (fields cfg) ->
  key ∈ columns df_main -> key ∈ columns df_form -> key ∉ fields cfg ->
  (forall lk rk, getitem key df_main = Ok lk -> getitem key df_form = Ok rk ->
                 keys_joinable lk rk = true) ->
  (forall f, f ∈ fields cfg -> f +:+ "_file" ∉ fields cfg) ->
  (forall f, f ∈ fields cfg -> f ∈ columns df_main ->
             f +:+ "_file" ∉ columns df_main) ->
  columns (merge_attachments fetch_form df_main cfg)
  = map (fun c => if bool_decide (c ∈ fields cfg) then c +:+ "_file" else c)
        (columns df_main)
    ++ List.filter (fun c => bool_decide (c ∈ columns df_form)) (fields cfg)
  /\ NoDup (columns (merge_attachments fetch_form df_main cfg)).
Proof.
  intros Hfc Hkey Hfetch Hnd_main Hnd_form Hnd_fields Hmain Hform Hnotfield
         Hjoin Hchain Hfresh.
  set (g := fun c => if bool_decide (c ∈ fields cfg) then c +:+ "_file" else c).
  set (R := List.filter (fun c => bool_decide (c ∈ columns df_form)) (fields cfg)).
  set (renamed := rename_collisions (fields cfg) df_main).
  assert (columns renamed = map g (columns df_main)) as Hcols
    by (by apply Attachments.rename_collisions_columns).
  assert (forall c, c ∈ R -> c ∈ fields cfg /\ c ∈ columns df_form) as HR.
  { intros c Hc. apply list_elem_of_In, filter_In in Hc as [Hc Hb].
    split; [by apply list_elem_of_In | by apply bool_decide_eq_true_1 in Hb]. }
  assert (forall c, c ∈ columns renamed -> c ∉ R) as Hdisj.
  { intros c Hc Hr. apply HR in Hr as [Hr _].
    rewrite Hcols in Hc.
    apply list_elem_of_In, in_map_iff in Hc as (c0 & Hc0 & _).
    unfold g in Hc0. case_bool_decide as Hin.
    - apply (Hchain c0 Hin). by rewrite Hc0.
    - by subst c0. }
  assert (NoDup (columns renamed)) as Hnd_renamed.
  { rewrite Hcols. apply NoDup_map_on; [|done].
    intros x y Hx Hy. unfold g.
    case_bool_decide as Hxf; case_bool_decide as Hyf; intros Heq.
    - by apply (append_cancel_r x y "_file").
    - exfalso. apply (Hfresh x Hxf Hx). by rewrite Heq.
    - exfalso. apply (Hfresh y Hyf Hy). by rewrite <- Heq.
    - done. }
  assert (key ∈ columns renamed) as Hkey_renamed.
  { rewrite Hcols. apply list_elem_of_In, in_map_iff. exists key.
    split; [|by apply list_elem_of_In].
    unfold g. by rewrite (bool_decide_eq_false_2 _ Hnotfield). }
  assert (NoDup R) as Hnd_R.
  { apply NoDup_ListNoDup, List.NoDup_filter. by apply NoDup_ListNoDup. }
  assert (key ∉ R) as Hkey_R by (intros H; by apply HR in H as [? _]).
  destruct (select_columns (keep_fields key (fields cfg) df_form) df_form)
    as (kept & Hkept & Hkept_cols); [done| |].
  { intros k Hk. apply elem_of_cons in Hk as [->|Hk]; [done|].
    by apply HR in Hk as [_ ?]. }
  assert (columns kept = key :: R) as HkR by (by rewrite Hkept_cols).
  assert (exists rows_merged,
            merge renamed kept key
            = Ok (mkDF (columns renamed ++ R) rows_merged)) as [rm Hmerge].
  { destruct (positions_unique key 0 (columns renamed) Hnd_renamed Hkey_renamed)
      as (i & Hpos & _).
    simpl in Hpos.
    assert (positions key 0 (columns kept) = [0]) as Hpos_kept.
    { rewrite HkR. simpl. rewrite String.eqb_refl.
      by rewrite (RunnerAndMerge.positions_absent _ _ _ Hkey_R). }
    assert (keys_joinable (map (fun r => nth i r VNaN) (rows renamed))
                          (map (fun r => nth 0 r VNaN) (rows kept)) = true)
      as Hjoinable.
    { pose proof (positions_getitem key renamed i [] Hpos) as Hlk.
      assert (getitem key renamed = getitem key df_main) as Hsame.
      { unfold getitem. unfold renamed at 2.
        rewrite RunnerAndMerge.rename_collisions_rows, Hcols.
        rewrite (index_of_map_on g key); [done| |].
        - unfold g. by rewrite (bool_decide_eq_false_2 _ Hnotfield).
        - intros c Hc. unfold g. case_bool_decide as Hin; [|done].
          intros Heq. exfalso. apply (Hfresh c Hin Hc). by rewrite Heq. }
      rewrite Hsame in Hlk.
      destruct (getitem key df_form) as [rk|] eqn:Erk.
      - rewrite (select_key_cells key _ df_form kept rk Hkept Erk).
        by apply Hjoin.
      - exfalso. unfold getitem in Erk.
        pose proof (positions_head key 0 (columns df_form)) as Hh.
        destruct (index_of key (columns df_form)); [discriminate|].
        destruct (positions_unique key 0 (columns df_form) Hnd_form Hform)
          as (j & Hj & _).
        rewrite Hj in Hh. discriminate. }
    unfold merge. rewrite Hpos, Hpos_kept, Hjoinable, HkR.
    cbn [negb].
    change (drop_nth 0 (key :: R)) with R.
    rewrite (map_id_on _ (columns renamed)).
    2:{ intros c Hc. rewrite (bool_decide_eq_false_2 (c ∈ R)) by (by apply Hdisj).
        by rewrite andb_false_r. }
    rewrite (map_id_on _ R).
    2:{ intros c Hc. rewrite bool_decide_eq_false_2; [done|].
        intros Hcin. by apply (Hdisj c). }
    rewrite !suffix_dups_same. simpl. eauto. }
  assert (merge_attachments fetch_form df_main cfg
          = mkDF (columns renamed ++ R) rm) as ->.
  { unfold merge_attachments, merge_attempt.
    rewrite Hfc, Hfetch, Hkey. simpl.
    rewrite (bool_decide_eq_true_2 _ Hmain), (bool_decide_eq_true_2 _ Hform).
    simpl. fold renamed. rewrite Hkept. simpl. by rewrite Hmerge. }
  simpl. split; [by rewrite Hcols|].
  apply NoDup_app. repeat split; done.
Qed.

Lemma merge_attachments_distinct_columns_witness :
  columns (merge_attachments (fun _ => Ok Samples.secondary)
             (mkDF ["KEY"; "cv"; "pi_name"]
                   [[VStr "uuid:1"; VStr "https://server/cv/1"; VStr "A. Diallo"]])
             Samples.attachments)
  = map (fun c => if bool_decide (c ∈ fields Samples.attachments)
                  then c +:+ "_file" else c)
        (columns (mkDF ["KEY"; "cv"; "pi_name"]
                       [[VStr "uuid:1"; VStr "https://server/cv/1";
                         VStr "A. Diallo"]]))
    ++ List.filter (fun c => bool_decide (c ∈ columns Samples.secondary))
                   (fields Samples.attachments)
  /\ NoDup (columns (merge_attachments (fun _ => Ok Samples.secondary)
                       (mkDF ["KEY"; "cv"; "pi_name"]
                             [[VStr "uuid:1"; VStr "https://server/cv/1";
                               VStr "A. Diallo"]])
                       Samples.attachments)).
Proof.
  apply (merge_attachments_distinct_columns (fun _ => Ok Samples.secondary)
           (mkDF ["KEY"; "cv"; "pi_name"]
                 [[VStr "uuid:1"; VStr "https://server/cv/1"; VStr "A. Diallo"]])
           Samples.secondary Samples.attachments
           (mkForm (Some "hiring_form") (Some "KEY")) "KEY");
    try reflexivity; try by_computation.
  - intros lk rk [= <-] [= <-]. reflexivity.
  - intros f Hf. apply list_elem_of_In in Hf. simpl in Hf.
    destruct Hf as [<-|[<-|[]]]; by_computation.
  - intros f Hf _. apply list_elem_of_In in Hf. simpl in Hf.
    destruct Hf as [<-|[<-|[]]]; by_computation.
Defined.

End MergeColumns.

(** ** Label lookups and the label map *)

Module LabelsMore.

(** X13: a single-choice lookup that finds nothing returns the value it
    was given: for a field that is not single-choice, for a list without
    entry in the label map, and for a code the list does not have. *)
Theorem get_label_passthrough (info : label_info) (field : string) (v : value) :
  select_one info !! VStr field = None
  \/ (exists list_name,
        select_one info !! VStr field = Some list_name
        /\ label_map info !! VStr list_name = None)
  \/ (exists list_name choices,
        select_one info !! VStr field = Some list_name
        /\ label_map info !! VStr list_name = Some choices
        /\ choices !! strip (str v) = None) ->
  get_label field v info = v.
Proof.
  unfold get_label, choices_of.
  intros [->|[(l & -> & ->)|(l & m & -> & -> & Hm)]]; simpl.
  - by rewrite lookup_empty.
  - by rewrite lookup_empty.
  - by rewrite Hm.
Qed.

Lemma get_label_passthrough_witness :
  get_label "children" (VStr "many") Samples.fruit_info = VStr "many".
Proof.
  apply (get_label_passthrough Samples.fruit_info "children" (VStr "many")).
  right. right. exists "nchild".
  exists {[ "0" := VStr "1"; "1" := VStr "2"; "2" := VStr "3+" ]}.
  repeat split; vm_compute; reflexivity.
Defined.

Lemma resolve_bound (info : label_info) (field list_name : string) :
  select_multiple info !! VStr field = Some list_name ->
  list_name <> "" ->
  forall s,
    get_labels_for_multiple field (VStr s) info
    = join_values " | " (map (label_or_code info list_name) (split s)).
Proof.
  intros Hbound Hne s. unfold get_labels_for_multiple. rewrite Hbound.
  apply String.eqb_neq in Hne. rewrite Hne.
  by rewrite Labels.codes_are_tokens.
Qed.

Lemma mapM_as_str_cases (l : list value) :
  (exists ss, mapM as_str l = Ok ss /\ Forall (fun v => is_str v = true) l)
  \/ (mapM as_str l = Err TypeError /\ exists v, v ∈ l /\ is_str v = false).
Proof.
  induction l as [|v l IH]; simpl.
  - left. eauto.
  - destruct v as [| |s|n]; simpl;
      try (right; split; [done|]; eexists; split; [left|done]).
    destruct IH as [(ss & -> & Hall)|(-> & w & Hw & Hns)]; simpl.
    + left. eexists. split; [done|]. by constructor.
    + right. split; [done|]. exists w. split; [by right | done].
Qed.

(** X14: for a multi-choice field bound to a list, resolving a string
    fails exactly when one of its codes has a label that is not a text,
    and then with TypeError (raised by the join); otherwise it returns a
    text. *)
Theorem get_labels_for_multiple_type_error (info : label_info)
    (field list_name s : string) :
  select_multiple info !! VStr field = Some list_name ->
  list_name <> "" ->
  (get_labels_for_multiple field (VStr s) info = Err TypeError
   <-> exists code, code ∈ split s
                    /\ is_str (label_or_code info list_name code) = false)
  /\ (get_labels_for_multiple field (VStr s) info = Err TypeError
      \/ exists text, get_labels_for_multiple field (VStr s) info
                      = Ok (VStr text)).
Proof.
  intros Hbound Hne.
  pose proof (resolve_bound info field list_name Hbound Hne) as Hmain.
  rewrite Hmain. unfold join_values.
  destruct (mapM_as_str_cases (map (label_or_code info list_name) (split s)))
    as [(ss & -> & Hall)|(-> & v & Hv & Hns)]; simpl.
  - split; [|eauto]. split; [discriminate|].
    intros (code & Hcode & Hns). exfalso.
    assert (is_str (label_or_code info list_name code) = true); [|congruence].
    apply (proj1 (Forall_forall _ _) Hall).
    apply list_elem_of_In, in_map. by apply list_elem_of_In.
  - split; [|by left]. split; [|done]. intros _.
    apply list_elem_of_In, in_map_iff in Hv as (code & <- & Hcode).
    exists code. split; [by apply list_elem_of_In | done].
Qed.

Lemma get_labels_for_multiple_type_error_witness :
  (get_labels_for_multiple "fruits" (VStr "a 7")
     (mkInfo ∅ {[ VStr "fruits" := "fruit" ]}
             {[ VStr "fruit" := {[ "a" := VStr "Apple"; "7" := VInt 7 ]} ]})
   = Err TypeError
   <-> exists code,
         code ∈ split "a 7"
         /\ is_str (label_or_code
                      (mkInfo ∅ {[ VStr "fruits" := "fruit" ]}
                              {[ VStr "fruit" := {[ "a" := VStr "Apple";
                                                    "7" := VInt 7 ]} ]})
                      "fruit" code) = false)
  /\ (get_labels_for_multiple "fruits" (VStr "a 7")
        (mkInfo ∅ {[ VStr "fruits" := "fruit" ]}
                {[ VStr "fruit" := {[ "a" := VStr "Apple"; "7" := VInt 7 ]} ]})
      = Err TypeError
      \/ exists text,
           get_labels_for_multiple "fruits" (VStr "a 7")
             (mkInfo ∅ {[ VStr "fruits" := "fruit" ]}
                     {[ VStr "fruit" := {[ "a" := VStr "Apple";
                                           "7" := VInt 7 ]} ]})
           = Ok (VStr text)).
Proof.
  apply (get_labels_for_multiple_type_error
           (mkInfo ∅ {[ VStr "fruits" := "fruit" ]}
                   {[ VStr "fruit" := {[ "a" := VStr "Apple"; "7" := VInt 7 ]} ]})
           "fruits" "fruit" "a 7"); by_computation.
Defined.

Lemma split_blank (s : string) :
  string_exists (fun c => negb (isspace c)) s = false -> split s = [].
Proof.
  induction s as [|c s IH]; [done|].
  simpl string_exists. intros H. apply orb_false_iff in H as [Hc Hs].
  apply negb_false_iff in Hc. rewrite Labels.split_cons, Hc. by apply IH.
Qed.

(** X15: for a multi-choice field bound to a list, a value made of
    whitespace only is resolved to the empty text (it is not returned
    unchanged), and a value none of whose codes is in the list is
    returned with its codes joined by " | ". *)
Theorem get_labels_for_multiple_unknown_codes (info : label_info)
    (field list_name s : string) :
  select_multiple info !! VStr field = Some list_name ->
  list_name <> "" ->
  (string_exists (fun c => negb (isspace c)) s = false ->
   get_labels_for_multiple field (VStr s) info = Ok (VStr ""))
  /\ ((forall code, code ∈ split s ->
         choices_of info (Some list_name) !! code = None) ->
      get_labels_for_multiple field (VStr s) info
      = Ok (VStr (join " | " (split s)))).
Proof.
  intros Hbound Hne.
  pose proof (resolve_bound info field list_name Hbound Hne) as Hmain.
  split.
  - intros Hblank. by rewrite Hmain, (split_blank s Hblank).
  - intros Hmiss. rewrite Hmain.
    rewrite (Labels.join_values_text _ _ (fun code => code)).
    + by rewrite map_id.
    + intros code Hcode. unfold label_or_code. by rewrite (Hmiss code Hcode).
Qed.

Lemma get_labels_for_multiple_unknown_codes_witness :
  (string_exists (fun c => negb (isspace c)) "   " = false ->
   get_labels_for_multiple "fruits" (VStr "   ") Samples.fruit_info
   = Ok (VStr ""))
  /\ ((forall code, code ∈ split "   " ->
         choices_of Samples.fruit_info (Some "fruit") !! code = None) ->
      get_labels_for_multiple "fruits" (VStr "   ") Samples.fruit_info
      = Ok (VStr (join " | " (split "   ")))).
Proof.
  apply (get_labels_for_multiple_unknown_codes Samples.fruit_info
           "fruits" "fruit" "   "); by_computation.
Defined.

End LabelsMore.

Module LabelMap.

Lemma add_choice_lookup (m : gmap value (gmap string value))
    (r : value * (value * value)) (list_name : value) (code : string) :
  add_choice m r !! list_name ≫= (.!! code)
  = if bool_decide (fst r = list_name)
       && String.eqb (clean_code (fst (snd r))) code
    then Some (snd (snd r))
    else m !! list_name ≫= (.!! code).
Proof.
  destruct r as [l0 [c0 lab]]. simpl.
  case_bool_decide as Hl; simpl.
  - subst l0. rewrite lookup_insert_eq. simpl.
    destruct (String.eqb (clean_code c0) code) eqn:E.
    + apply String.eqb_eq in E as ->. by rewrite lookup_insert_eq.
    + apply String.eqb_neq in E. rewrite lookup_insert_ne by done.
      by destruct (m !! list_name).
  - by rewrite lookup_insert_ne.
Qed.

Lemma fold_add_choice_lookup (kept : list (value * (value * value)))
    (m : gmap value (gmap string value)) (list_name : value) (code : string) :
  fold_left add_choice kept m !! list_name ≫= (.!! code)
  = match last (map (fun r => snd (snd r)) (rows_for list_name code kept)) with
    | Some label => Some label
    | None => m !! list_name ≫= (.!! code)
    end.
Proof.
  revert m; induction kept as [|r kept IH]; intros m; [done|].
  cbn [fold_left]. rewrite IH, add_choice_lookup.
  unfold rows_for. cbn [List.filter].
  destruct (bool_decide (fst r = list_name)
            && String.eqb (clean_code (fst (snd r))) code); [|done].
  cbn [map]. rewrite last_cons.
  by destruct (last (map _ _)).
Qed.

Lemma empty_groups_lookup (choices_def : DataFrame) (list_name : value)
    (code : string) :
  empty_groups choices_def !! list_name ≫= (.!! code) = None.
Proof.
  unfold empty_groups.
  destruct (list_to_map _ !! list_name) as [g|] eqn:E; [|done]. simpl.
  apply elem_of_list_to_map_2, list_elem_of_In, in_map_iff in E
    as (c & [= _ <-] & _).
  apply lookup_empty.
Qed.

(** X16: in the label map built from the choices sheet, the label found
    for a list and a code is the label of the last row of the sheet that
    has all three cells present, belongs to that list and has that code
    after normalization; a row with a missing cell never contributes, and
    a pair no complete row provides is absent. *)
Theorem label_map_last_row_wins (choices_def : DataFrame)
    (names codes labels : list value) :
  getitem "list_name" choices_def = Ok names ->
  getitem "value" choices_def = Ok codes ->
  getitem "label" choices_def = Ok labels ->
  exists lm,
    build_label_map choices_def = Ok lm
    /\ forall list_name code,
         lm !! list_name ≫= (.!! code)
         = last (map (fun r => snd (snd r))
                     (rows_for list_name code
                        (complete_rows names codes labels))).
Proof.
  intros Hn Hc Hl. unfold build_label_map. rewrite Hn, Hc, Hl. simpl.
  eexists. split; [reflexivity|]. intros list_name code.
  fold (complete_rows names codes labels).
  destruct (complete_rows names codes labels) as [|r kept].
  - by rewrite empty_groups_lookup.
  - rewrite fold_add_choice_lookup, lookup_empty. simpl.
    by destruct (last _).
Qed.

Lemma label_map_last_row_wins_witness :
  exists lm,
    build_label_map
      (mkDF ["list_name"; "value"; "label"]
            [[VStr "yn"; VInt 1; VStr "Yes"]; [VStr "yn"; VStr "1.0"; VStr "Oui"];
             [VStr "yn"; VStr "1"; VNaN]; [VNaN; VStr "1"; VStr "Si"]]) = Ok lm
    /\ forall list_name code,
         lm !! list_name ≫= (.!! code)
         = last (map (fun r => snd (snd r))
                     (rows_for list_name code
                        (complete_rows
                           [VStr "yn"; VStr "yn"; VStr "yn"; VNaN]
                           [VInt 1; VStr "1.0"; VStr "1"; VStr "1"]
                           [VStr "Yes"; VStr "Oui"; VNaN; VStr "Si"]))).
Proof.
  apply (label_map_last_row_wins
           (mkDF ["list_name"; "value"; "label"]
                 [[VStr "yn"; VInt 1; VStr "Yes"];
                  [VStr "yn"; VStr "1.0"; VStr "Oui"];
                  [VStr "yn"; VStr "1"; VNaN]; [VNaN; VStr "1"; VStr "Si"]]));
    reflexivity.
Defined.

Local Arguments String.append !_ _ / : simpl nomatch.

Lemma ends_with_append (s suffix : string) :
  ends_with suffix (s +:+ suffix) = true.
Proof.
  induction s as [|c s IH]; simpl.
  - destruct suffix; simpl; [done|].
    by rewrite Ascii.eqb_refl, String.eqb_refl.
  - rewrite IH. apply orb_true_r.
Qed.

Lemma drop_last_append (s t : string) :
  drop_last (String.length t) (s +:+ t) = s.
Proof.
  induction s as [|c s IH].
  - simpl. destruct t as [|c t]; [done|].
    cbn [drop_last]. by rewrite Nat.leb_refl.
  - change (String c s +:+ t) with (String c (s +:+ t)).
    cbn [drop_last]. rewrite IH.
    change (String.length (String c (s +:+ t)))
      with (S (String.length (s +:+ t))).
    rewrite MergeColumns.length_append.
    destruct (Nat.leb_spec (S (String.length s + String.length t))
                           (String.length t)); [lia | done].
Qed.

(** X17: a code cell written with a trailing ".0" is stored under the
    key of the text before it, so the code cells "3.0" and "3" (and
    likewise "v1.0" and "v1") denote the same code of a list, and a code
    without that ending is stored under its stripped text. *)
Theorem clean_code_drops_float_suffix (s : string) :
  clean_code (VStr (s +:+ ".0")) = strip s
  /\ (ends_with ".0" s = false ->
      ends_with (".0" +:+ String "010" EmptyString) s = false ->
      clean_code (VStr s) = strip s).
Proof.
  split.
  - unfold clean_code, strip_dot0. cbn [str].
    rewrite ends_with_append.
    change 2 with (String.length ".0").
    by rewrite (drop_last_append s ".0").
  - intros H1 H2. unfold clean_code, strip_dot0. cbn [str].
    by rewrite H1, H2.
Qed.

Lemma clean_code_drops_float_suffix_witness :
  clean_code (VStr "3") = strip "3".
Proof.
  apply (clean_code_drops_float_suffix "3"); reflexivity.
Defined.

End LabelMap.

(** ** The row filter *)

Module Loading.

Lemma filter_sublist {A} (p : A -> bool) (l : list A) :
  sublist (List.filter p l) l.
Proof.
  induction l as [|x l IH]; simpl; [constructor|].
  destruct (p x); by constructor.
Qed.

Lemma cell_eq_missing (v w : value) : notna w = false -> cell_eq v w = false.
Proof. by destruct v, w. Qed.

(** X20: the filter stage leaves the table alone when no filter is
    configured or the table lacks the filter column.  Otherwise it keeps
    the columns and keeps, in their order, exactly the rows whose cell in
    the filter column equals the configured value; a configured value
    that is missing selects no row at all. *)
Theorem filter_stage_keeps_matching_rows (cfg : tab_config) (df : DataFrame) :
  (filter_by cfg = None -> filter_stage cfg df = df)
  /\ (forall f col, filter_by cfg = Some f -> filter_column f = Some col ->
        col ∉ columns df -> filter_stage cfg df = df)
  /\ (forall f col i,
        filter_by cfg = Some f -> filter_column f = Some col ->
        index_of col (columns df) = Some i ->
        columns (filter_stage cfg df) = columns df
        /\ rows (filter_stage cfg df)
           = List.filter (fun r => cell_eq (nth i r VNaN) (filter_value f))
                         (rows df)
        /\ sublist (rows (filter_stage cfg df)) (rows df)
        /\ (forall r, r ∈ rows (filter_stage cfg df) ->
                      cell_eq (nth i r VNaN) (filter_value f) = true)
        /\ (notna (filter_value f) = false -> rows (filter_stage cfg df) = [])).
Proof.
  split; [|split].
  - unfold filter_stage. by intros ->.
  - intros f col Hf Hc Hin. unfold filter_stage. rewrite Hf, Hc.
    by rewrite (bool_decide_eq_false_2 _ Hin).
  - intros f col i Hf Hc Hi.
    assert (filter_stage cfg df
            = mkDF (columns df)
                   (List.filter (fun r => cell_eq (nth i r VNaN) (filter_value f))
                                (rows df))) as ->.
    { unfold filter_stage. rewrite Hf, Hc.
      rewrite bool_decide_eq_true_2
        by (by apply (ColumnUpdates.index_of_Some_elem _ _ i)).
      unfold filter_rows. by rewrite Hi. }
    simpl. repeat split; try done.
    + apply filter_sublist.
    + intros r Hr. by apply list_elem_of_In, filter_In in Hr as [_ ?].
    + intros Hna. induction (rows df) as [|r rs IH]; simpl; [done|].
      by rewrite (cell_eq_missing _ _ Hna).
Qed.

Lemma filter_stage_keeps_matching_rows_witness :
  columns (filter_stage
             (mkTab "positions" None (Some (mkFilter (Some "status") (VStr "open")))
                    (mkAttach None []) (mkCleaning false None None None) None)
             (mkDF ["KEY"; "status"]
                   [[VStr "uuid:1"; VStr "open"]; [VStr "uuid:2"; VNaN];
                    [VStr "uuid:3"; VStr "open"]]))
  = ["KEY"; "status"]
  /\ rows (filter_stage
             (mkTab "positions" None (Some (mkFilter (Some "status") (VStr "open")))
                    (mkAttach None []) (mkCleaning false None None None) None)
             (mkDF ["KEY"; "status"]
                   [[VStr "uuid:1"; VStr "open"]; [VStr "uuid:2"; VNaN];
                    [VStr "uuid:3"; VStr "open"]]))
     = [[VStr "uuid:1"; VStr "open"]; [VStr "uuid:3"; VStr "open"]].
Proof.
  destruct (filter_stage_keeps_matching_rows
              (mkTab "positions" None
                     (Some (mkFilter (Some "status") (VStr "open")))
                     (mkAttach None []) (mkCleaning false None None None) None)
              (mkDF ["KEY"; "status"]
                    [[VStr "uuid:1"; VStr "open"]; [VStr "uuid:2"; VNaN];
                     [VStr "uuid:3"; VStr "open"]]))
    as (_ & _ & H).
  destruct (H (mkFilter (Some "status") (VStr "open")) "status" 1
              eq_refl eq_refl eq_refl) as (Hc & Hr & _).
  split; [exact Hc | exact Hr].
Defined.

End Loading.

(** ** Column labels, uploads and downloads *)

Module LabelsUploads.

Lemma fold_add_entry_lookup (entries : list (value * string))
    (m : gmap value string) (k : value) :
  fold_left add_entry entries m !! k
  = match last (map snd (List.filter (fun e => bool_decide (fst e = k)) entries)) with
    | Some text => Some text
    | None => m !! k
    end.
Proof.
  revert m; induction entries as [|e entries IH]; intros m; [done|].
  cbn [fold_left List.filter]. rewrite IH. unfold add_entry.
  case_bool_decide as He.
  - cbn [map]. rewrite last_cons, <- He, lookup_insert_eq.
    match goal with |- context [last ?l] => by destruct (last l) end.
  - by rewrite lookup_insert_ne.
Qed.

Lemma fold_add_column_label_lookup (env : environment)
    (label_map : gmap value string) (cols : list string)
    (m : gmap string string) (c : string) :
  fold_left (add_column_label env label_map) cols m !! c
  = if bool_decide (c ∈ cols)
    then Some (default (title env (replace "_" " " c)) (label_map !! VStr c))
    else m !! c.
Proof.
  revert m; induction cols as [|k cols IH]; intros m; [done|].
  cbn [fold_left]. rewrite IH. unfold add_column_label.
  case_bool_decide as H1; case_bool_decide as H2; try done.
  - exfalso. apply H2. by right.
  - apply elem_of_cons in H2 as [->|?]; [|done].
    by rewrite lookup_insert_eq.
  - rewrite lookup_insert_ne; [done|]. intros ->. apply H2. left.
Qed.

(** X21: when the label file can be read and has both configured
    columns, [apply_column_labels] gives a label to every column of the
    table and to nothing else.  The label of a column is the stripped
    text of the last row of the file whose header cell is the column
    name (rows with a missing header or label are ignored); a column the
    file does not list gets its name with underscores replaced by spaces,
    in title case. *)
Theorem column_labels_cover_table (env : environment) (df label_df : DataFrame)
    (cfg : label_cfg) (headers labels : list value) :
  (if ends_with ".csv" (label_file cfg)
   then read_csv_file env (label_file cfg)
   else read_excel_sheet env (label_file cfg)
          (match label_sheet cfg with
           | Some s => if String.eqb s "" then None else Some s
           | None => None
           end)) = Ok label_df ->
  getitem (column_header_col cfg) label_df = Ok headers ->
  getitem (column_label_col cfg) label_df = Ok labels ->
  exists final_map,
    apply_column_labels env df cfg = Ok final_map
    /\ forall c,
         final_map !! c
         = if bool_decide (c ∈ columns df)
           then Some
                  (default (title env (replace "_" " " c))
                     (last (map snd
                        (List.filter (fun e => bool_decide (fst e = VStr c))
                           (map (label_entry
                                   (String.eqb (column_header_col cfg)
                                               (column_label_col cfg)))
                                (List.filter
                                   (fun r => notna (fst r) && notna (snd r))
                                   (combine headers labels)))))))
           else None.
Proof.
  intros Hread Hh Hl. unfold apply_column_labels.
  rewrite Hread. simpl. rewrite Hh, Hl. simpl.
  eexists. split; [reflexivity|]. intros c.
  rewrite fold_add_column_label_lookup, fold_add_entry_lookup, lookup_empty.
  case_bool_decide; [|done]. by destruct (last _).
Qed.

Lemma column_labels_cover_table_witness :
  exists final_map,
    apply_column_labels
      (mkEnv None None None (fun _ => Err IOError) (fun _ => Err IOError)
             (fun _ => Err IOError)
             (fun _ => Ok (mkDF ["column"; "label"]
                                [[VStr "pi_name"; VStr " Investigator "];
                                 [VStr "KEY"; VNaN]]))
             (fun _ => Err IOError) [] (fun _ _ => Err IOError)
             (fun _ _ => Err IOError) (fun s => s))
      (mkDF ["KEY"; "pi_name"] [])
      (mkLabels "labels.csv" "column" "label" None) = Ok final_map
    /\ final_map !! "pi_name" = Some "Investigator"
    /\ final_map !! "KEY" = Some "KEY"
    /\ final_map !! "hire_role" = None.
Proof.
  destruct (column_labels_cover_table
              (mkEnv None None None (fun _ => Err IOError) (fun _ => Err IOError)
                     (fun _ => Err IOError)
                     (fun _ => Ok (mkDF ["column"; "label"]
                                        [[VStr "pi_name"; VStr " Investigator "];
                                         [VStr "KEY"; VNaN]]))
                     (fun _ => Err IOError) [] (fun _ _ => Err IOError)
                     (fun _ _ => Err IOError) (fun s => s))
              (mkDF ["KEY"; "pi_name"] [])
              (mkDF ["column"; "label"]
                    [[VStr "pi_name"; VStr " Investigator "]; [VStr "KEY"; VNaN]])
              (mkLabels "labels.csv" "column" "label" None)
              [VStr "pi_name"; VStr "KEY"] [VStr " Investigator "; VNaN]
              eq_refl eq_refl eq_refl) as (fm & Hfm & Hlook).
  exists fm. split; [exact Hfm|].
  repeat split; rewrite Hlook; reflexivity.
Defined.

Lemma positions_nth (k : string) (n i : nat) (cols : list string) :
  i ∈ positions k n cols -> exists j, i = n + j /\ nth j cols "" = k.
Proof.
  revert n; induction cols as [|c cols IH]; intros n; simpl.
  - intros H. by apply elem_of_nil in H.
  - destruct (String.eqb k c) eqn:E.
    + apply String.eqb_eq in E as ->. intros H.
      apply elem_of_cons in H as [->|H].
      * exists 0. split; [lia | done].
      * destruct (IH _ H) as (j & -> & Hj). exists (S j). split; [lia | done].
    + intros H. destruct (IH _ H) as (j & -> & Hj).
      exists (S j). split; [lia | done].
Qed.

Lemma select_columns_subset (keep : list string) (df kept : DataFrame)
    (c : string) :
  select keep df = Ok kept -> c ∈ columns kept -> c ∈ keep.
Proof.
  unfold select. destruct (forallb _ keep); [|discriminate].
  intros [= <-]. simpl. intros Hc.
  apply list_elem_of_In, in_map_iff in Hc as (i & <- & Hi).
  apply in_flat_map in Hi as (k & Hk & Hi).
  apply list_elem_of_In in Hi.
  destruct (positions_nth k 0 i (columns df) Hi) as (j & -> & Hj).
  simpl. rewrite Hj. by apply list_elem_of_In.
Qed.

(** X22: [write_dataset] sends nothing and raises ValueError when
    [append] is not given, and sends nothing without credentials.
    Whatever it sends, it sends at most once, in the mode that [append]
    asks for, and (given a tab configuration) never with a
    [<field>_file] column of a configured attachment field; when the
    table has distinct column names, the uploaded columns are exactly the
    other columns, in their order. *)
Theorem write_dataset_uploads (auth : option (result string))
    (post : upload -> result value) (df : DataFrame) (dataset_id : string)
    (tab_cfg : option attach_cfg) (dataset_title : option string)
    (append : option bool) :
  (append = None ->
   write_dataset auth post df dataset_id tab_cfg dataset_title append
   = (Err ValueError, []))
  /\ (auth = None ->
      snd (write_dataset auth post df dataset_id tab_cfg dataset_title append)
      = [])
  /\ length (snd (write_dataset auth post df dataset_id tab_cfg
                    dataset_title append)) <= 1
  /\ (forall sent,
        sent ∈ snd (write_dataset auth post df dataset_id tab_cfg
                      dataset_title append) ->
        up_dataset sent = dataset_id
        /\ (append = Some true /\ up_mode sent = "append"
            \/ append = Some false /\ up_mode sent = "clear")
        /\ (forall cfg f, tab_cfg = Some cfg -> f ∈ fields cfg ->
              f +:+ "_file" ∉ columns (up_table sent))
        /\ (forall cfg, tab_cfg = Some cfg -> NoDup (columns df) ->
              columns (up_table sent)
              = List.filter
                  (fun col => negb (bool_decide
                     (col ∈ map (fun f => f +:+ "_file") (fields cfg))))
                  (columns df))).
Proof.
  unfold write_dataset. split; [by intros ->|].
  assert (forall r : result value,
            (auth = None -> snd (r, @nil upload) = [])
            /\ length (snd (r, @nil upload)) <= 1
            /\ (forall sent, sent ∈ snd (r, @nil upload) ->
                  up_dataset sent = dataset_id
                  /\ (append = Some true /\ up_mode sent = "append"
                      \/ append = Some false /\ up_mode sent = "clear")
                  /\ (forall cfg f, tab_cfg = Some cfg -> f ∈ fields cfg ->
                        f +:+ "_file" ∉ columns (up_table sent))
                  /\ (forall cfg, tab_cfg = Some cfg -> NoDup (columns df) ->
                        columns (up_table sent)
                        = List.filter
                            (fun col => negb (bool_decide
                               (col ∈ map (fun f => f +:+ "_file") (fields cfg))))
                            (columns df)))) as Hnothing.
  { intros r. simpl. split; [done|]. split; [lia|].
    intros ? Hnil. by apply elem_of_nil in Hnil. }
  destruct append as [mode|]; [|apply Hnothing].
  match goal with
  | |- context [match ?p with Ok _ => _ | Err _ => _ end] =>
      destruct p as [table|e] eqn:Et
  end; [|apply Hnothing].
  destruct auth as [[tok|e]|]; try apply Hnothing.
  clear Hnothing. split; [discriminate|].
  simpl. split; [lia|].
  intros sent Hs. apply list_elem_of_singleton in Hs as ->. simpl.
  split; [done|]. split; [destruct mode; auto|]. split.
  - intros cfg f -> Hf Hin.
    apply (select_columns_subset _ _ _ _ Et) in Hin.
    apply list_elem_of_In, filter_In in Hin as [_ Hex].
    apply negb_true_iff, bool_decide_eq_false_1 in Hex. apply Hex.
    apply list_elem_of_In. apply (in_map (fun f0 => f0 +:+ "_file")).
    by apply list_elem_of_In.
  - intros cfg -> Hnd.
    destruct (MergeColumns.select_columns
                (List.filter
                   (fun col => negb (bool_decide
                      (col ∈ map (fun f => f +:+ "_file") (fields cfg))))
                   (columns df)) df Hnd) as (kept & Hk & Hcols).
    + intros k Hk. by apply list_elem_of_In, filter_In in Hk as [?%list_elem_of_In _].
    + rewrite Hk in Et. by injection Et as <-.
Qed.

Lemma write_dataset_uploads_witness :
  write_dataset (Some (Ok "token")) (fun _ => Ok VNone) Samples.primary
    "positions" (Some Samples.attachments) None None
  = (Err ValueError, []).
Proof.
  apply (write_dataset_uploads (Some (Ok "token")) (fun _ => Ok VNone)
           Samples.primary "positions" (Some Samples.attachments) None None).
  reflexivity.
Defined.

Lemma collect_field_app (download : string -> result string) (row : Series)
    (found : list (value * string)) (field : string) :
  collect_field download row found field
  = found ++ collect_field download row [] field.
Proof.
  unfold collect_field.
  destruct (series_get field (VStr "") row) as [| |url|];
    try (by rewrite app_nil_r).
  destruct (startswith "http" url); [|by rewrite app_nil_r].
  destruct (download url); [done | by rewrite app_nil_r].
Qed.

Lemma collect_fold (download : string -> result string) (row : Series)
    (fs : list string) (found : list (value * string)) :
  fold_left (collect_field download row) fs found
  = found ++ flat_map (collect_field download row []) fs.
Proof.
  revert found; induction fs as [|f fs IH]; intros found; simpl.
  - by rewrite app_nil_r.
  - rewrite IH, (collect_field_app download row found f). by rewrite <- app_assoc.
Qed.

(** X23: [collect_row_attachments] returns one entry for each configured
    field whose cell is a text starting with "http" and whose download
    succeeds, in the order of the fields, and nothing else: a failed
    download only drops its own entry.  The entry is named by the
    [<field>_file] cell when that cell is true (a missing, NaN, cell is)
    and by [<field>.dat] otherwise. *)
Theorem collect_row_attachments_entries (download : string -> result string)
    (row : Series) (cfg : attach_cfg) :
  collect_row_attachments download row cfg
  = flat_map (collect_field download row []) (fields cfg)
  /\ length (collect_row_attachments download row cfg) <= length (fields cfg)
  /\ (forall name data,
        (name, data) ∈ collect_row_attachments download row cfg <->
        exists field url,
          field ∈ fields cfg
          /\ series_get field (VStr "") row = VStr url
          /\ startswith "http" url = true
          /\ download url = Ok data
          /\ name = (if truthy (series_get (field +:+ "_file") (VStr "") row)
                     then series_get (field +:+ "_file") (VStr "") row
                     else VStr (field +:+ ".dat"))).
Proof.
  assert (collect_row_attachments download row cfg
          = flat_map (collect_field download row []) (fields cfg)) as Heq.
  { unfold collect_row_attachments. by rewrite collect_fold. }
  split; [exact Heq|]. rewrite Heq. clear Heq. split.
  - induction (fields cfg) as [|f fs IH]; cbn [flat_map length]; [lia|].
    rewrite length_app.
    assert (length (collect_field download row [] f) <= 1); [|lia].
    unfold collect_field.
    destruct (series_get f (VStr "") row) as [| |url|]; simpl; try lia.
    destruct (startswith "http" url); simpl; [|lia].
    destruct (download url); simpl; lia.
  - intros name data. rewrite list_elem_of_In, in_flat_map. split.
    + intros (field & Hf & Hin). exists field.
      unfold collect_field in Hin.
      destruct (series_get field (VStr "") row) as [| |url|] eqn:El;
        try (by destruct Hin).
      destruct (startswith "http" url) eqn:Eh; [|by destruct Hin].
      destruct (download url) as [d|] eqn:Ed; [|by destruct Hin].
      destruct Hin as [[= <- <-]|[]].
      exists url. repeat split; try done. by apply list_elem_of_In.
    + intros (field & url & Hf & El & Eh & Ed & ->).
      exists field. split; [by apply list_elem_of_In|].
      unfold collect_field. rewrite El, Eh, Ed. by left.
Qed.

End LabelsUploads.

(** ** The detail view and the table view *)

Module Views.









Lemma dict_set_fresh (k : string) (v : value) (d : dict) :
  k ∉ dict_keys d -> dict_set k v d = d ++ [(k, v)].
Proof.
  induction d as [|[k' v'] d IH]; simpl; intros Hk; [done|].
  destruct (String.eqb k k') eqn:E.
  - apply String.eqb_eq in E as ->. exfalso. apply Hk. left.
  - rewrite IH; [done|]. intros H. apply Hk. by right.
Qed.

Lemma row_display_fold (info : option label_info) (labels : gmap string string)
    (row : Series) (cols : list string) (vals : list value) (d : dict) :
  Forall2 (fun c v => detail_value info row c = Ok v) cols vals ->
  NoDup (display_labels labels cols) ->
  (forall l, l ∈ display_labels labels cols -> l ∉ dict_keys d) ->
  fold_left (detail_step info labels row) cols (Ok d)
  = Ok (d ++ combine (display_labels labels cols) vals).
Proof.
  intros Hvals. revert d.
  induction Hvals as [|c v cols vals Hcv _ IH]; intros d Hnd Hfresh; simpl.
  - by rewrite app_nil_r.
  - apply NoDup_cons in Hnd as [Hc Hnd].
    rewrite Hcv. simpl.
    rewrite dict_set_fresh by (apply Hfresh; left).
    rewrite IH; [by rewrite <- app_assoc|done|].
    intros l Hl Hin. unfold dict_keys in Hin.
    rewrite map_app in Hin. apply elem_of_app in Hin as [Hin|Hin].
    + apply (Hfresh l); [by right | done].
    + simpl in Hin. apply list_elem_of_singleton in Hin as ->. done.
Qed.

Lemma fold_detail_step_err (info : option label_info)
    (labels : gmap string string) (row : Series) (cols : list string)
    (e : exn) :
  fold_left (detail_step info labels row) cols (Err e) = Err e.
Proof. induction cols as [|c cols IH]; simpl; [done|]. exact IH. Qed.

Lemma row_display_fold_err (info : option label_info)
    (labels : gmap string string) (row : Series) (before : list string)
    (c : string) (after : list string) (vals : list value) (e : exn) (d : dict) :
  Forall2 (fun c v => detail_value info row c = Ok v) before vals ->
  detail_value info row c = Err e ->
  fold_left (detail_step info labels row) (before ++ c :: after) (Ok d) = Err e.
Proof.
  intros Hvals Hc. revert d.
  induction Hvals as [|c0 v cols vals Hcv _ IH]; intros d; simpl.
  - rewrite Hc. simpl. apply fold_detail_step_err.
  - rewrite Hcv. simpl. apply IH.
Qed.

(** X25: when the columns of the detail view have distinct display
    labels and every value resolves, the detail view lists, in the order
    of the columns, the display label and the resolved value of each
    column whose value is neither missing nor blank.  A value that fails
    to resolve (a multi-choice label that is not a text) makes the whole
    view fail with that error. *)
Theorem detail_items_in_order (info : option label_info)
    (labels : gmap string string) (row : Series) (cols : list string) :
  (forall vals,
      Forall2 (fun c v => detail_value info row c = Ok v) cols vals ->
      NoDup (display_labels labels cols) ->
      detail_items info labels row cols
      = Ok (List.filter (fun kv => shown (snd kv))
                        (combine (display_labels labels cols) vals)))
  /\ (forall before c after vals e,
        cols = before ++ c :: after ->
        Forall2 (fun c v => detail_value info row c = Ok v) before vals ->
        detail_value info row c = Err e ->
        detail_items info labels row cols = Err e).
Proof.
  split.
  - intros vals Hvals Hnd.
    assert (row_display info labels row cols
            = Ok (combine (display_labels labels cols) vals)) as Hrd.
    { unfold row_display.
      apply (row_display_fold info labels row cols vals []); try done.
      intros l _ Hl. by apply elem_of_nil in Hl. }
    unfold detail_items. by rewrite Hrd.
  - intros before c after vals e -> Hvals Hc.
    assert (row_display info labels row (before ++ c :: after) = Err e) as Hrd.
    { unfold row_display. by apply (row_display_fold_err _ _ _ _ _ _ vals). }
    unfold detail_items. by rewrite Hrd.
Qed.

Lemma detail_items_in_order_witness :
  detail_items (Some Samples.fruit_info)
    {[ "children" := "Number of children" ]}
    [("children", VInt 0); ("fruits", VStr "b a"); ("pi_name", VStr " ")]
    ["children"; "fruits"; "pi_name"; "language"]
  = Ok (List.filter (fun kv => shown (snd kv))
          (combine (display_labels {[ "children" := "Number of children" ]}
                      ["children"; "fruits"; "pi_name"; "language"])
                   [VStr "1"; VStr "Banana | Apple"; VStr " "; VNone])).
Proof.
  apply (detail_items_in_order (Some Samples.fruit_info)
           {[ "children" := "Number of children" ]}
           [("children", VInt 0); ("fruits", VStr "b a"); ("pi_name", VStr " ")]
           ["children"; "fruits"; "pi_name"; "language"]).
  - repeat constructor.
  - by_computation.
Defined.

Lemma drop_backslash_x0_id (s : string) :
  string_exists (Ascii.eqb backslash) s = false -> drop_backslash_x0 s = s.
Proof.
  induction s as [|a s IH]; [done|].
  intros H. cbn [string_exists] in H. apply orb_false_iff in H as [Ha Hs].
  assert (Ascii.eqb a backslash = false) as Ha'
    by (by rewrite Ascii.eqb_sym).
  destruct s as [|b [|c [|d s]]].
  - reflexivity.
  - cbn [drop_backslash_x0]. reflexivity.
  - cbn [drop_backslash_x0]. by rewrite Ha'.
  - change (drop_backslash_x0 (String a (String b (String c (String d s)))))
      with (String a (drop_backslash_x0 (String b (String c (String d s))))).
    by rewrite (IH Hs).
Qed.

(** X26: for a single-choice column whose cell text holds no backslash,
    the table view and the detail view agree when the code is in the
    choice list (both show the label) and differ when it is not: the
    detail view shows the value as it is, the table view shows a missing
    value. *)
Theorem table_and_detail_cells (info : label_info) (field list_name : string)
    (v : value) :
  select_one info !! VStr field = Some list_name ->
  string_exists (Ascii.eqb backslash) (str v) = false ->
  (forall label,
      choices_of info (Some list_name) !! strip (str v) = Some label ->
      table_cell info list_name v = label /\ get_label field v info = label)
  /\ (choices_of info (Some list_name) !! strip (str v) = None ->
      table_cell info list_name v = VNaN /\ get_label field v info = v).
Proof.
  intros Hone Hbs.
  assert (drop_backslash_x0 (strip (str v)) = strip (str v)) as Hid.
  { apply drop_backslash_x0_id. unfold strip.
    by apply Coercion.rstrip_sub, Coercion.lstrip_sub. }
  unfold table_cell, get_label. rewrite Hid, Hone.
  split; [intros label ->|intros ->]; done.
Qed.

Lemma table_and_detail_cells_witness :
  table_cell Samples.fruit_info "nchild" (VStr "many") = VNaN
  /\ get_label "children" (VStr "many") Samples.fruit_info = VStr "many".
Proof.
  apply (table_and_detail_cells Samples.fruit_info "children" "nchild"
           (VStr "many")); reflexivity.
Defined.

Lemma duplicated_none (seen cols : list string) :
  existsb (fun b => b) (duplicated seen cols) = false
  <-> NoDup cols /\ forall x, x ∈ cols -> x ∉ seen.
Proof.
  revert seen; induction cols as [|c cols IH]; intros seen; simpl.
  - split; [|done]. intros _. split; [constructor|].
    intros x Hx. by apply elem_of_nil in Hx.
  - rewrite orb_false_iff, IH, bool_decide_eq_false, NoDup_cons. split.
    + intros (Hc & Hnd & Hseen). split; [split; [|done]|].
      * intros Hin. apply (Hseen c Hin). left.
      * intros x Hx Hs. apply elem_of_cons in Hx as [->|Hx]; [done|].
        apply (Hseen x Hx). by right.
    + intros ((Hc & Hnd) & Hseen). split; [apply Hseen; left|].
      split; [done|]. intros x Hx Hs.
      apply elem_of_cons in Hs as [->|Hs]; [done|].
      apply (Hseen x); [by right | done].
Qed.

Lemma index_of_None_absent (c : string) (cols : list string) :
  index_of c cols = None -> c ∉ cols.
Proof.
  induction cols as [|k cols IH]; simpl; [intros _ H; by apply elem_of_nil in H|].
  destruct (String.eqb c k) eqn:E; [discriminate|].
  apply String.eqb_neq in E.
  destruct (index_of c cols); simpl; [discriminate|].
  intros _ H. apply elem_of_cons in H as [?|H]; [done|]. by apply IH.
Qed.

Lemma selected_columns_present (default_cols : list string) (full_df : DataFrame)
    (c : string) :
  c ∈ selected_columns default_cols full_df -> c ∈ columns full_df.
Proof.
  intros H. apply list_elem_of_In, filter_In in H as [_ H].
  by apply bool_decide_eq_true_1 in H.
Qed.

(** On a table with distinct column names the view works on the
    selected columns followed by [row_index]. *)
Lemma visible_columns_distinct (default_cols : list string)
    (full_df : DataFrame) :
  NoDup (columns full_df) ->
  visible_columns default_cols full_df
  = selected_columns default_cols full_df
    ++ (if bool_decide ("row_index" ∈ selected_columns default_cols full_df)
        then [] else ["row_index"]).
Proof.
  intros Hnd. unfold visible_columns.
  destruct (MergeColumns.select_columns
              (selected_columns default_cols full_df) full_df Hnd)
    as (t & -> & Ht).
  { intros k. apply selected_columns_present. }
  unfold setitem. rewrite Ht.
  destruct (index_of "row_index" (selected_columns default_cols full_df))
    as [i|] eqn:Ei; simpl.
  - rewrite bool_decide_eq_true_2
      by (by apply (ColumnUpdates.index_of_Some_elem _ _ i)).
    by rewrite app_nil_r.
  - by rewrite bool_decide_eq_false_2 by (by apply index_of_None_absent).
Qed.

Lemma NoDup_map_distinct {A B} (f : A -> B) (l : list A) (x y : A) :
  NoDup (map f l) -> x ∈ l -> y ∈ l -> f x = f y -> x = y.
Proof.
  induction l as [|z l IH]; simpl; [intros _ H; by apply elem_of_nil in H|].
  intros Hnd Hx Hy Heq. apply NoDup_cons in Hnd as [Hz Hnd].
  apply elem_of_cons in Hx as [->|Hx]; apply elem_of_cons in Hy as [->|Hy].
  - done.
  - exfalso. apply Hz. rewrite Heq.
    apply list_elem_of_In, in_map. by apply list_elem_of_In.
  - exfalso. apply Hz. rewrite <- Heq.
    apply list_elem_of_In, in_map. by apply list_elem_of_In.
  - by apply IH.
Qed.

(** X27: on a table with distinct column names the table view works on
    the selected columns followed by the hidden [row_index] column.  It
    stops on duplicate names exactly when the display labels of these
    columns, [row_index] included, are not all distinct; in particular a
    selected column displayed under the label of the [row_index] column
    blocks the table even when the labels of the selected columns are
    distinct. *)
Theorem table_blocked_iff (labels : gmap string string)
    (default_cols : list string) (full_df : DataFrame) :
  NoDup (columns full_df) ->
  visible_columns default_cols full_df
  = selected_columns default_cols full_df
    ++ (if bool_decide ("row_index" ∈ selected_columns default_cols full_df)
        then [] else ["row_index"])
  /\ (table_blocked labels default_cols full_df = false
      <-> NoDup (display_labels labels
                   (selected_columns default_cols full_df
                    ++ (if bool_decide
                             ("row_index" ∈ selected_columns default_cols full_df)
                        then [] else ["row_index"]))))
  /\ (forall c,
        c ∈ selected_columns default_cols full_df -> c <> "row_index" ->
        default c (labels !! c) = default "row_index" (labels !! "row_index") ->
        table_blocked labels default_cols full_df = true).
Proof.
  intros Hnd.
  pose proof (visible_columns_distinct default_cols full_df Hnd) as Hvis.
  assert (forall cols,
             duplicates_detected (display_labels labels cols) = false
             <-> NoDup (display_labels labels cols)) as Hdup.
  { intros cols. unfold duplicates_detected. rewrite duplicated_none.
    split; [tauto|].
    intros H. split; [done|]. intros x _ Hx. by apply elem_of_nil in Hx. }
  split; [exact Hvis|]. split.
  { unfold table_blocked. rewrite Hvis. apply Hdup. }
  intros c Hc Hne Hsame. unfold table_blocked.
  destruct (duplicates_detected _) eqn:E; [done|]. exfalso.
  apply Hdup in E. rewrite Hvis in E. apply Hne.
  apply (NoDup_map_distinct _ _ c "row_index" E); [| |exact Hsame].
  - apply elem_of_app. by left.
  - apply elem_of_app. case_bool_decide as Hin; [by left|right; left].
Qed.

Lemma table_blocked_iff_witness :
  table_blocked {[ "KEY" := "row_index" ]} ["KEY"; "hire_role"]
    (mkDF ["KEY"; "hire_role"; "pi_name"] []) = true
  /\ NoDup (display_labels {[ "KEY" := "row_index" ]} ["KEY"; "hire_role"]).
Proof.
  destruct (table_blocked_iff {[ "KEY" := "row_index" ]} ["KEY"; "hire_role"]
              (mkDF ["KEY"; "hire_role"; "pi_name"] [])) as (_ & _ & H).
  - by_computation.
  - split; [|by_computation].
    apply (H "KEY"); [by_computation | discriminate | reflexivity].
Defined.

End Views.
